(** * JobMatch browser extension: the extraction pipeline

    A shallow embedding of the extractor registry ([src/extractors/index.ts]),
    the shared helpers of [src/extractors/base.ts], the four extraction
    strategies (LinkedIn, Indeed, Welcome to the Jungle, Generic), the
    HTML-to-Markdown converter ([src/lib/html-to-markdown.ts]) and the local
    store ([src/lib/storage.ts]), followed by the properties of the
    specification that were checked against them and by further properties
    of the code.

    Conventions of the embedding:
    - a JavaScript string is the list of its UTF-16 code units ([jsstring]);
      literals are written as Rocq strings (UTF-8) and decoded by [u];
    - a JavaScript number is an IEEE-754 binary64 value ([float]);
    - what the browser provides (the URL parser, the DOM parser, [JSON.parse],
      number printing, the [Date] object) is the [Platform] class; the
      selector engine is part of a [Document], which maps a selector text to
      the elements it matches, in document order;
    - [new Date()] reads an explicit clock that is threaded through the
      strategies; a thrown exception is the [Throw] completion;
    - an [async] function of the store is a function of the storage area: it
      answers how its promise settles and the area it leaves. *)

From Stdlib Require Import List String Ascii Bool Arith NArith ZArith Lia Floats.
From Stdlib Require Import Permutation Sorted.
Import ListNotations.

Set Warnings "-inexact-float,-register-all".
Set Implicit Arguments.

Local Open Scope N_scope.

(* ------------------------------------------------------------------ *)
(** ** JavaScript strings *)

Module JS.

(** A string value: its UTF-16 code units. *)
Definition jsstring := list N.

Definition bytes_of (s : string) : list N :=
  map N_of_ascii (list_ascii_of_string s).

(** UTF-8 decoding of a literal: [need] continuation bytes are still to be
    read into the code point [acc]. *)
Fixpoint utf8_points (l : list N) (need : nat) (acc : N) : list N :=
  match l with
  | [] => []
  | b :: r =>
      match need with
      | O =>
          if b <? 128 then b :: utf8_points r 0 0
          else if b <? 224 then utf8_points r 1 (b - 192)
          else if b <? 240 then utf8_points r 2 (b - 224)
          else utf8_points r 3 (b - 240)
      | S O => (acc * 64 + (b - 128)) :: utf8_points r 0 0
      | S n => utf8_points r n (acc * 64 + (b - 128))
      end
  end.

Definition utf16_units (c : N) : list N :=
  if c <? 65536 then [c]
  else [55296 + (c - 65536) / 1024; 56320 + (c - 65536) mod 1024].

(** The string value of a literal. *)
Definition u (s : string) : jsstring :=
  flat_map utf16_units (utf8_points (bytes_of s) 0 0).

(** A selector literal: the source writes selectors between single quotes,
    with double quotes inside; here the apostrophe stands for that double
    quote (no selector of the source contains an apostrophe). *)
Definition css (s : string) : jsstring :=
  map (fun c => if c =? 39 then 34 else c) (u s).

Definition nl : jsstring := [10].

Definition str_eqb (a b : jsstring) : bool :=
  if list_eq_dec N.eq_dec a b then true else false.

(** [!s] is false exactly for the non-empty strings. *)
Definition nonempty (s : jsstring) : bool :=
  match s with [] => false | _ => true end.

(** [String.prototype.length] *)
Definition len (s : jsstring) : nat := List.length s.

(** [String.prototype.startsWith] *)
Fixpoint startsWith (s p : jsstring) : bool :=
  match p, s with
  | [], _ => true
  | _ :: _, [] => false
  | a :: p', b :: s' => (a =? b) && startsWith s' p'
  end.

(** [String.prototype.includes] *)
Fixpoint includes (s p : jsstring) : bool :=
  startsWith s p ||
  match s with
  | [] => false
  | _ :: s' => includes s' p
  end.

(** The lower case of a letter of Basic Latin or of the Latin-1 Supplement;
    other code units are left as they are. *)
Definition lower_unit (c : N) : N :=
  if (65 <=? c) && (c <=? 90) then c + 32
  else if (192 <=? c) && (c <=? 222) && negb (c =? 215) then c + 32
  else c.

(** [String.prototype.toLowerCase]: the letters of those two blocks, and the
    five letters from elsewhere whose lower case is written with letters of
    those blocks: U+0130 (i and a combining dot), U+0178 (y with diaeresis),
    U+1E9E (sharp s), U+212A (the Kelvin sign, k) and U+212B (the Angstrom
    sign, a with ring). The letters of other scripts are left as they are:
    their lower case lies outside the two blocks, and the strings the source
    looks for in a lower-cased text have no letter from outside them. *)
Definition lower_units (c : N) : jsstring :=
  if c =? 304 then [105; 775]
  else if c =? 376 then [255]
  else if c =? 7838 then [223]
  else if c =? 8490 then [107]
  else if c =? 8491 then [229]
  else [lower_unit c].

Definition toLowerCase (s : jsstring) : jsstring := flat_map lower_units s.

(** WhiteSpace and LineTerminator code units: the class [\s], and what
    [trim] removes. *)
Definition is_space (c : N) : bool :=
  ((9 <=? c) && (c <=? 13)) || (c =? 32) || (c =? 160) || (c =? 5760) ||
  ((8192 <=? c) && (c <=? 8202)) || (c =? 8232) || (c =? 8233) ||
  (c =? 8239) || (c =? 8287) || (c =? 12288) || (c =? 65279).

Fixpoint trimStart (s : jsstring) : jsstring :=
  match s with
  | c :: s' => if is_space c then trimStart s' else s
  | [] => []
  end.

Definition trimEnd (s : jsstring) : jsstring := rev (trimStart (rev s)).

Definition trim (s : jsstring) : jsstring := trimEnd (trimStart s).

(** [s.split(sep)] for a one-unit separator: never the empty list. *)
Fixpoint split_on (sep : N) (s : jsstring) : list jsstring :=
  match s with
  | [] => [[]]
  | c :: s' =>
      if c =? sep then [] :: split_on sep s'
      else match split_on sep s' with
           | [] => [[c]]
           | w :: ws => (c :: w) :: ws
           end
  end.

(** [Array.prototype.join] on strings. *)
Fixpoint join (sep : jsstring) (l : list jsstring) : jsstring :=
  match l with
  | [] => []
  | [x] => x
  | x :: r => x ++ sep ++ join sep r
  end.

(** [s.replace(p, r)] with a string pattern: the first occurrence only. *)
Fixpoint replace_str (s p r : jsstring) : jsstring :=
  if startsWith s p then r ++ skipn (List.length p) s
  else match s with
       | [] => []
       | c :: s' => c :: replace_str s' p r
       end.

(** Decimal digits of a natural number, as [String(n)] prints an index. *)
Fixpoint digits_fuel (fuel : nat) (n : N) (acc : jsstring) : jsstring :=
  match fuel with
  | O => acc
  | S f => if n <? 10 then (48 + n) :: acc
           else digits_fuel f (n / 10) ((48 + n mod 10) :: acc)
  end.

Definition decimal (n : nat) : jsstring :=
  digits_fuel (S n) (N.of_nat n) [].

End JS.
Export JS.

(* ------------------------------------------------------------------ *)
(** ** Regular expressions

    The patterns of the source are written in the abstract syntax below and
    run by a backtracking matcher: alternatives left to right, [*] greedy, an
    iteration of [*] that consumes nothing rejected, the leftmost match
    reported. *)

Module RegExp.

Inductive regex : Type :=
| Eps
| Cls (p : N -> bool)
| Seq (r1 r2 : regex)
| Alt (r1 r2 : regex)
| Star (r : regex)
| Grp (r : regex)
| Bol (multiline : bool).

(** A position in the subject: the unit before it, the units from it on, and
    the groups captured so far, the latest first. *)
Record pos : Type := mkpos {
  before : option N;
  rest : jsstring;
  caps : list jsstring
}.

Definition advance_to (p : pos) (c : N) (s : jsstring) : pos :=
  mkpos (Some c) s (caps p).

Definition consumed (p q : pos) : jsstring :=
  firstn (List.length (rest p) - List.length (rest q)) (rest p).

Definition orelse {A} (a b : option A) : option A :=
  match a with Some _ => a | None => b end.

Section Matcher.
Variable R : Type.

Fixpoint run (r : regex) (p : pos) (k : pos -> option R) {struct r} : option R :=
  match r with
  | Eps => k p
  | Cls f =>
      match rest p with
      | c :: s => if f c then k (advance_to p c s) else None
      | [] => None
      end
  | Seq r1 r2 => run r1 p (fun q => run r2 q k)
  | Alt r1 r2 => orelse (run r1 p k) (run r2 p k)
  | Star r1 =>
      (fix loop (n : nat) (p : pos) {struct n} : option R :=
         match n with
         | O => k p
         | S n' =>
             orelse
               (run r1 p (fun q =>
                  if (List.length (rest q) <? List.length (rest p))%nat
                  then loop n' q else None))
               (k p)
         end) (List.length (rest p)) p
  | Grp r1 =>
      run r1 p (fun q => k (mkpos (before q) (rest q) (consumed p q :: caps q)))
  | Bol multiline =>
      match before p with
      | None => k p
      | Some c =>
          if multiline && ((c =? 10) || (c =? 13) || (c =? 8232) || (c =? 8233))
          then k p else None
      end
  end.

End Matcher.

(** A match starting exactly at the position: where it ends. *)
Definition match_here (r : regex) (bef : option N) (s : jsstring) : option pos :=
  run r (mkpos bef s []) (fun q => Some q).

(** The result of [exec]: what precedes the match, the match, the captures
    (group 1 first) and what follows. *)
Record found : Type := mkfound {
  prefix : jsstring;
  matched : jsstring;
  groups : list jsstring;
  suffix : jsstring
}.

Fixpoint exec_from (r : regex) (bef : option N) (pre_rev s : jsstring) : option found :=
  match match_here r bef s with
  | Some q =>
      Some (mkfound (rev pre_rev)
                    (firstn (List.length s - List.length (rest q)) s)
                    (rev (caps q)) (rest q))
  | None =>
      match s with
      | [] => None
      | c :: s' => exec_from r (Some c) (c :: pre_rev) s'
      end
  end.

(** [r.exec(s)] / [s.match(r)] without the [g] flag. *)
Definition exec (r : regex) (s : jsstring) : option found := exec_from r None [] s.

(** [r.test(s)] *)
Definition test (r : regex) (s : jsstring) : bool :=
  match exec r s with Some _ => true | None => false end.

(** The n-th capture of a match (from 1), as [m[n]]. *)
Definition group (m : found) (n : nat) : jsstring := nth (n - 1) (groups m) [].

(** [s.replace(r, by)] with the [g] flag and a constant replacement. [skip]
    units of the current match are still to be dropped. *)
Fixpoint replaceAll_from (r : regex) (repl : jsstring) (bef : option N)
         (skip : nat) (s : jsstring) : jsstring :=
  match skip with
  | S k =>
      match s with
      | c :: s' => replaceAll_from r repl (Some c) k s'
      | [] => []
      end
  | O =>
      match match_here r bef s with
      | Some q =>
          match s with
          | c :: s' =>
              match (List.length s - List.length (rest q))%nat with
              | O => repl ++ c :: replaceAll_from r repl (Some c) 0 s'
              | S k => repl ++ replaceAll_from r repl (Some c) k s'
              end
          | [] => repl
          end
      | None =>
          match s with
          | c :: s' => c :: replaceAll_from r repl (Some c) 0 s'
          | [] => []
          end
      end
  end.

Definition replaceAll (r : regex) (repl : jsstring) (s : jsstring) : jsstring :=
  replaceAll_from r repl None 0 s.

(** [s.replace(r, by)] without the [g] flag: the leftmost match only. *)
Definition replaceFirst (r : regex) (repl : jsstring) (s : jsstring) : jsstring :=
  match exec r s with
  | Some m => prefix m ++ repl ++ suffix m
  | None => s
  end.

(** [s.split(r)[0]], for a pattern that cannot match the empty string. *)
Definition split_head (r : regex) (s : jsstring) : jsstring :=
  match exec r s with
  | Some m => prefix m
  | None => s
  end.

(** *** Pattern syntax *)

Definition chr (c : N) : regex := Cls (N.eqb c).
Definition oneof (l : jsstring) : regex := Cls (fun c => existsb (N.eqb c) l).
Definition digit : regex := Cls (fun c => (48 <=? c) && (c <=? 57)).
Definition space : regex := Cls is_space.
Definition plus (r : regex) : regex := Seq r (Star r).
Definition opt (r : regex) : regex := Alt r Eps.

Fixpoint seqs (l : list regex) : regex :=
  match l with
  | [] => Eps
  | [r] => r
  | r :: l' => Seq r (seqs l')
  end.

Fixpoint alts (l : list regex) : regex :=
  match l with
  | [] => Cls (fun _ => false)
  | [r] => r
  | r :: l' => Alt r (alts l')
  end.

Fixpoint times (n : nat) (r : regex) : regex :=
  match n with
  | O => Eps
  | S O => r
  | S n' => Seq r (times n' r)
  end.

(** A literal run of units. *)
Definition lit (s : string) : regex := seqs (map chr (u s)).

(** A literal under the [i] flag: ASCII letters in either case. *)
Definition chr_i (c : N) : regex := Cls (fun d => lower_unit d =? lower_unit c).
Definition lit_i (s : string) : regex := seqs (map chr_i (u s)).

End RegExp.
Import RegExp.

Local Open Scope string_scope.
Local Open Scope list_scope.


(* ------------------------------------------------------------------ *)
(** ** Values, completions and the clock *)

(** What [JSON.parse] can return, and [undefined]. The fields of an object
    are in the order of the text, each key once. *)
Inductive jsval : Type :=
| VUndef
| VNull
| VBool (b : bool)
| VNum (x : float)
| VStr (s : jsstring)
| VArr (items : list jsval)
| VObj (fields : list (jsstring * jsval)).

Inductive exn : Type := TypeError | SyntaxError | RangeError.

(** How an evaluation ends: with a value, or by throwing. *)
Inductive completion (A : Type) : Type :=
| Normal (a : A)
| Throw (e : exn).
Arguments Normal {A} a.
Arguments Throw {A} e.

Definition cbind {A B} (c : completion A) (k : A -> completion B) : completion B :=
  match c with
  | Normal a => k a
  | Throw e => Throw e
  end.

Notation "'try!' x <- c ; k" := (cbind c (fun x => k))
  (at level 10, x name, c at level 100, k at level 200).

(** A time value (milliseconds since the epoch), and the clock: the values
    the successive [new Date()] of a run will read. A [Date] object holds a
    time value, or none ([NaN]) when it is invalid. *)
Definition Date := Z.
Definition Clock := nat -> Date.

(** A computation that may read the clock and may throw: the body of an
    [async] strategy method, which here never suspends. *)
Definition Async (A : Type) : Type := Clock -> completion A * Clock.

Definition ret {A} (a : A) : Async A := fun c => (Normal a, c).

Definition bind {A B} (m : Async A) (k : A -> Async B) : Async B :=
  fun c =>
    match m c with
    | (Normal a, c') => k a c'
    | (Throw e, c') => (Throw e, c')
    end.

Definition lift {A} (x : completion A) : Async A := fun c => (x, c).

(** [new Date()] *)
Definition newDate : Async Date :=
  fun c => (Normal (c 0%nat), fun n => c (S n)).

Notation "'let!' x <- m ; k" := (bind m (fun x => k))
  (at level 10, x name, m at level 100, k at level 200).

(** Truthiness ([ToBoolean]). *)
Definition truthy (v : jsval) : bool :=
  match v with
  | VUndef | VNull => false
  | VBool b => b
  | VNum x => negb (PrimFloat.eqb x 0%float) && PrimFloat.eqb x x
  | VStr s => nonempty s
  | VArr _ | VObj _ => true
  end.

Fixpoint own (fields : list (jsstring * jsval)) (k : jsstring) : option jsval :=
  match fields with
  | [] => None
  | (k', v) :: r => if str_eqb k' k then Some v else own r k
  end.

(** [v[k]] for the property names the strategies read (none of them is a
    property of a prototype): the own field of an object, [undefined] on any
    other value, a [TypeError] on [null] and [undefined]. *)
Definition get (v : jsval) (k : jsstring) : completion jsval :=
  match v with
  | VUndef | VNull => Throw TypeError
  | VObj fields => Normal (match own fields k with Some x => x | None => VUndef end)
  | _ => Normal VUndef
  end.

(** [v?.[k]] *)
Definition get_opt (v : jsval) (k : jsstring) : jsval :=
  match get v k with
  | Normal x => x
  | Throw _ => VUndef
  end.

(** [a ?? b] *)
Definition nullish_or (a b : jsval) : jsval :=
  match a with
  | VUndef | VNull => b
  | _ => a
  end.

(** [a === s] for a string [s]. *)
Definition is_str (a : jsval) (s : jsstring) : bool :=
  match a with
  | VStr t => str_eqb t s
  | _ => false
  end.

(** [parseInt(ds, 10)] on a run of decimal digits: the number nearest to the
    integer the digits write. *)
Definition digits_value (ds : jsstring) : Z :=
  fold_left (fun acc d => (acc * 10 + (Z.of_N d - 48))%Z) ds 0%Z.

Definition number_of_Z (z : Z) : float :=
  SF2Prim (binary_normalize prec emax z 0 false).

Definition parseInt (ds : jsstring) : float := number_of_Z (digits_value ds).

(** [Math.min(a, b)] for numbers that are not NaN. *)
Definition Math_min (a b : float) : float :=
  if PrimFloat.ltb b a then b else a.

(* ------------------------------------------------------------------ *)
(** ** The document *)

Module DOM.

(** A node of a parsed fragment: a text node, an element with its tag name,
    attributes and child nodes, or a node of another type (a comment). *)
Inductive Node : Type :=
| Text (data : jsstring)
| Elem (tagName : jsstring) (attrs : list (jsstring * jsstring)) (childNodes : list Node)
| Other.

(** An element of the page as the strategies read it. *)
Record Element : Type := mkElement {
  textContent : jsstring;
  innerHTML : jsstring;
  attributes : list (jsstring * jsstring)
}.

Fixpoint attr (l : list (jsstring * jsstring)) (name : jsstring) : option jsstring :=
  match l with
  | [] => None
  | (k, v) :: r => if str_eqb k name then Some v else attr r name
  end.

Definition getAttribute (e : Element) (name : jsstring) : option jsstring :=
  attr (attributes e) name.

(** The page: its title, and for each selector the elements that match it,
    in document order. *)
Record Document : Type := mkDocument {
  title : jsstring;
  querySelectorAll : jsstring -> list Element
}.

Definition querySelector (doc : Document) (selector : jsstring) : option Element :=
  hd_error (querySelectorAll doc selector).

End DOM.
Import DOM.

(** What the browser provides. *)
Class Platform : Type := {
  (** [new URL(url).hostname]; [None] when the constructor throws *)
  URL_hostname : jsstring -> option jsstring;
  (** [new DOMParser().parseFromString(html, 'text/html').body] *)
  DOMParser_body : jsstring -> Node;
  (** [JSON.parse(text)]; [None] when it throws a [SyntaxError] *)
  JSON_parse : jsstring -> option jsval;
  (** [String(x)] for a number *)
  Number_toString : float -> jsstring;
  (** [d.toISOString()] *)
  Date_toISOString : Date -> jsstring;
  (** [d.setHours(d.getHours() - n)], [d.setDate(d.getDate() - n)] and
      [d.setMonth(d.getMonth() - n)]: the time value afterwards; [None] when
      the date has left the range of [Date] and is invalid *)
  Date_hoursBack : Date -> float -> option Date;
  Date_daysBack : Date -> float -> option Date;
  Date_monthsBack : Date -> float -> option Date
}.

(* ------------------------------------------------------------------ *)
(** ** src/lib/html-to-markdown.ts *)

Module Markdown.

(** What the recursive pass knows of a node: its Markdown, and what
    [querySelectorAll('td, th')] and [querySelectorAll('tr')] find in the
    subtree it roots (itself included), each cell already processed. *)
Record Rendered : Type := mkRendered {
  md : jsstring;
  cellsIn : list jsstring;
  rowsIn : list (list jsstring)
}.

Definition is_tag (name : string) (node : Node) : bool :=
  match node with
  | Elem tagName _ _ => str_eqb (toLowerCase tagName) (u name)
  | _ => false
  end.

(** [processListItems]: [items] are the [processNode] of the [:scope > li]
    children, [index] the position of the first of them. *)
Fixpoint listItems (ordered : bool) (index : nat) (items : list jsstring) : list jsstring :=
  match items with
  | [] => []
  | item :: r =>
      let prefix := if ordered then decimal (index + 1) ++ u "." else u "-" in
      let content := trim item in
      let lines := split_on 10 content in
      let firstLine := hd [] lines in
      let rest := join nl (map (fun line => u "  " ++ line) (tl lines)) in
      (prefix ++ u " " ++ firstLine ++ (if nonempty rest then nl ++ rest else []))
        :: listItems ordered (S index) r
  end.

Definition processListItems (items : list jsstring) (ordered : bool) : jsstring :=
  join nl (listItems ordered 0 items).

(** [processTable]: [rows] are the rows of the table, each the [processNode]
    of its cells. *)
Fixpoint tableLines (rowIndex : nat) (rows : list (list jsstring)) : list jsstring :=
  match rows with
  | [] => []
  | cells :: r =>
      let cellContents :=
        map (fun cell => replaceAll (chr 124) (u "\|") (trim cell)) cells in
      let line := u "| " ++ join (u " | ") cellContents ++ u " |" in
      let sep := u "| " ++ join (u " | ") (map (fun _ => u "---") cells) ++ u " |" in
      (match rowIndex with O => [line; sep] | S _ => [line] end)
        ++ tableLines (S rowIndex) r
  end.

Definition processTable (rows : list (list jsstring)) : jsstring :=
  match rows with
  | [] => []
  | _ => join nl (tableLines 0 rows)
  end.

(** The [switch] of [processNode] on the lower-cased tag name. *)
Definition wrap (tag : jsstring) (attrs : list (jsstring * jsstring))
           (children : jsstring) (items : list jsstring)
           (rows : list (list jsstring)) : jsstring :=
  let tg (name : string) := str_eqb tag (u name) in
  if tg "h1" then nl ++ u "# " ++ trim children ++ nl ++ nl
  else if tg "h2" then nl ++ u "## " ++ trim children ++ nl ++ nl
  else if tg "h3" then nl ++ u "### " ++ trim children ++ nl ++ nl
  else if tg "h4" then nl ++ u "#### " ++ trim children ++ nl ++ nl
  else if tg "h5" then nl ++ u "##### " ++ trim children ++ nl ++ nl
  else if tg "h6" then nl ++ u "###### " ++ trim children ++ nl ++ nl
  else if tg "strong" || tg "b" then u "**" ++ trim children ++ u "**"
  else if tg "em" || tg "i" then u "*" ++ trim children ++ u "*"
  else if tg "u" then u "_" ++ trim children ++ u "_"
  else if tg "s" || tg "strike" || tg "del" then u "~~" ++ trim children ++ u "~~"
  else if tg "code" then u "`" ++ trim children ++ u "`"
  else if tg "a" then
    match attr attrs (u "href") with
    | Some href =>
        if nonempty href && negb (startsWith href (u "javascript:"))
        then u "[" ++ trim children ++ u "](" ++ href ++ u ")"
        else children
    | None => children
    end
  else if tg "ul" then nl ++ processListItems items false ++ nl
  else if tg "ol" then nl ++ processListItems items true ++ nl
  else if tg "li" then children
  else if tg "p" then nl ++ trim children ++ nl ++ nl
  else if tg "br" then nl
  else if tg "hr" then nl ++ u "---" ++ nl ++ nl
  else if tg "div" || tg "section" || tg "article" then nl ++ children ++ nl
  else if tg "blockquote" then
    nl ++ u "> " ++ join (nl ++ u "> ") (split_on 10 (trim children)) ++ nl ++ nl
  else if tg "pre" then nl ++ u "```" ++ nl ++ trim children ++ nl ++ u "```" ++ nl ++ nl
  else if tg "table" then nl ++ processTable rows ++ nl
  else if tg "tr" || tg "td" || tg "th" || tg "thead" || tg "tbody" then children
  else if tg "script" || tg "style" || tg "noscript" || tg "iframe" || tg "svg"
          || tg "canvas" then []
  else children.

Fixpoint render (node : Node) : Rendered :=
  match node with
  | Text data => mkRendered data [] []
  | Other => mkRendered [] [] []
  | Elem tagName attrs childNodes =>
      let tag := toLowerCase tagName in
      let kids := map (fun c => (c, render c)) childNodes in
      let children := List.concat (map (fun k => md (snd k)) kids) in
      let items := map (fun k => md (snd k)) (filter (fun k => is_tag "li" (fst k)) kids) in
      let cells := List.concat (map (fun k => cellsIn (snd k)) kids) in
      let rows := List.concat (map (fun k => rowsIn (snd k)) kids) in
      let out := wrap tag attrs children items rows in
      mkRendered out
        ((if str_eqb tag (u "td") || str_eqb tag (u "th") then [out] else []) ++ cells)
        ((if str_eqb tag (u "tr") then [cells] else []) ++ rows)
  end.

(** [processNode(node)] *)
Definition processNode (node : Node) : jsstring := md (render node).

Definition bullets : jsstring := u "•●○▪▸►".

(** [cleanMarkdown(markdown)] *)
Definition cleanMarkdown (markdown : jsstring) : jsstring :=
  let s := replaceAll (Seq (times 3 (chr 10)) (Star (chr 10))) (nl ++ nl) markdown in
  let s := join nl (map trimEnd (split_on 10 s)) in
  let s := trim s in
  let s := replaceAll (seqs [chr 42; chr 42; plus space]) (u "**") s in
  let s := replaceAll (seqs [plus space; chr 42; chr 42]) (u "**") s in
  let s := replaceAll (seqs [chr 42; plus space]) (u "*") s in
  let s := replaceAll (seqs [plus space; chr 42]) (u "*") s in
  let s := replaceAll (lit "****") [] s in
  let s := replaceAll (lit "**") (u "**") s in
  let s := replaceAll (seqs [Bol true; Star space; oneof bullets; Star space]) (u "- ") s in
  replaceAll (seqs [chr 10; lit "- "; chr 10]) nl s.

Section WithPlatform.
Context {P : Platform}.

(** [htmlToMarkdown(html)] *)
Definition htmlToMarkdown (html : jsstring) : jsstring :=
  if negb (nonempty html) then []
  else cleanMarkdown (processNode (DOMParser_body html)).

End WithPlatform.

(** The elements [htmlToStructuredText] removes. *)
Definition unwanted (node : Node) : bool :=
  is_tag "script" node || is_tag "style" node || is_tag "noscript" node
  || is_tag "iframe" node || is_tag "svg" node.

(** [body.querySelectorAll('script, style, noscript, iframe, svg')
    .forEach(el => el.remove())]: the tree without the unwanted elements
    below its root. *)
Fixpoint without_unwanted (node : Node) : Node :=
  match node with
  | Elem tagName attrs childNodes =>
      Elem tagName attrs
        ((fix each (l : list Node) : list Node :=
            match l with
            | [] => []
            | c :: r => if unwanted c then each r else without_unwanted c :: each r
            end) childNodes)
  | _ => node
  end.

Definition blockTags : list jsstring := map u
  [ "p"; "div"; "br"; "h1"; "h2"; "h3"; "h4"; "h5"; "h6"; "li"; "tr" ].

(** The loop of [htmlToStructuredText] over the elements and the text nodes
    of a subtree, in document order, as the tree walker shows them: [text]
    is the text so far. *)
Fixpoint walk (node : Node) (text : jsstring) : jsstring :=
  match node with
  | Text data =>
      let content := trim data in
      if nonempty content then text ++ content ++ u " " else text
  | Other => text
  | Elem tagName _ childNodes =>
      let tag := toLowerCase tagName in
      let text := if existsb (str_eqb tag) blockTags then trimEnd text ++ nl else text in
      let text := if str_eqb tag (u "li") then text ++ u "• " else text in
      fold_left (fun text c => walk c text) childNodes text
  end.

Section WithPlatformText.
Context {P : Platform}.

(** [htmlToStructuredText(html)] *)
Definition htmlToStructuredText (html : jsstring) : jsstring :=
  if negb (nonempty html) then []
  else
    let body := without_unwanted (DOMParser_body html) in
    let text := walk body [] in
    trim (replaceAll (plus (oneof [32; 9]%N)) (u " ")
            (replaceAll (Seq (times 3 (chr 10)) (Star (chr 10))) (nl ++ nl) text)).

End WithPlatformText.

End Markdown.
Import Markdown.

(* ------------------------------------------------------------------ *)
(** ** src/types/index.ts *)

Inductive RemoteType : Type := onsite | hybrid | remote | unknown.

Inductive Period : Type := hour | day | month | year.

Record Salary : Type := mkSalary {
  min : jsval;
  max : jsval;
  currency : jsval;
  period : Period
}.

(** [Partial<JobOffer>], with the fields the strategies write. A field read
    from embedded JSON keeps the value found there. *)
Record JobOffer : Type := mkJobOffer {
  sourceUrl : jsstring;
  sourceDomain : jsstring;
  title : option jsstring;
  company : option jsstring;
  location : option jsstring;
  remoteType : option RemoteType;
  description : option jsstring;
  contractType : option jsstring;
  experience : option jsstring;
  salary : option Salary;
  skills : option (list jsval);
  publishedAt : option jsval;
  capturedAt : jsstring
}.

Record ExtractionResult : Type := mkResult {
  success : bool;
  offer : option JobOffer;
  confidence : float;
  extractorUsed : jsstring;
  errors : option (list jsstring)
}.

(** Truthiness of an optional string field. *)
Definition has (field : option jsstring) : bool :=
  match field with
  | Some s => nonempty s
  | None => false
  end.

(** [offer.skills && offer.skills.length > 0] *)
Definition has_items (field : option (list jsval)) : bool :=
  match field with
  | Some (_ :: _) => true
  | _ => false
  end.

Definition is_some {A} (o : option A) : bool :=
  match o with Some _ => true | None => false end.

(* ------------------------------------------------------------------ *)
(** ** src/extractors/base.ts *)

Module Base.

(** [cleanText(text)] on a string. *)
Definition cleanText (text : jsstring) : jsstring :=
  if negb (nonempty text) then []
  else trim (replaceAll (plus (oneof [10; 13; 9]%N)) (u " ")
               (replaceAll (plus space) (u " ") text)).

(** [cleanText(v)] on a value read from JSON: a truthy value that is not a
    string has no [replace] method. *)
Definition cleanText_val (v : jsval) : completion jsstring :=
  if negb (truthy v) then Normal []
  else match v with
       | VStr s => Normal (cleanText s)
       | _ => Throw TypeError
       end.

Definition createEmptyResult (extractorName : jsstring) : ExtractionResult :=
  {| success := false;
     offer := None;
     confidence := 0;
     extractorUsed := extractorName;
     errors := Some [u "Aucune donnée extraite"] |}.

Definition createSuccessResult (extractorName : jsstring) (o : JobOffer)
           (conf : float) : ExtractionResult :=
  {| success := true;
     offer := Some o;
     confidence := conf;
     extractorUsed := extractorName;
     errors := None |}.

Definition range_pattern : regex :=
  seqs [Grp (plus digit); opt (chr 107); oneof (u "-–à"); Grp (plus digit); opt (chr 107)].

Definition single_pattern : regex :=
  seqs [Grp (plus digit); opt (chr 107); oneof (u "€$£")].

(** [parseSalary(text)] *)
Definition parseSalary (text : jsstring) : option Salary :=
  if negb (nonempty text) then None
  else
    let normalized := replaceAll space [] (toLowerCase text) in
    match exec range_pattern normalized with
    | Some rangeMatch =>
        let min := parseInt (group rangeMatch 1) in
        let max := parseInt (group rangeMatch 2) in
        let min := if PrimFloat.ltb min 1000 && includes normalized (u "k")
                   then PrimFloat.mul min 1000 else min in
        let max := if PrimFloat.ltb max 1000 && includes normalized (u "k")
                   then PrimFloat.mul max 1000 else max in
        let currency := u "EUR" in
        let currency := if includes normalized (u "$") then u "USD" else currency in
        let currency := if includes normalized (u "£") then u "GBP" else currency in
        let currency := if includes normalized (u "chf") then u "CHF" else currency in
        let period := year in
        let period := if includes normalized (u "/h") || includes normalized (u "heure")
                      then hour else period in
        let period := if includes normalized (u "/j") || includes normalized (u "jour")
                      then day else period in
        let period := if includes normalized (u "/m") || includes normalized (u "mois")
                      then month else period in
        Some (mkSalary (VNum min) (VNum max) (VStr currency) period)
    | None =>
        match exec single_pattern normalized with
        | Some singleMatch =>
            let value := parseInt (group singleMatch 1) in
            let value := if PrimFloat.ltb value 1000 && includes normalized (u "k")
                         then PrimFloat.mul value 1000 else value in
            let currency := u "EUR" in
            let currency := if includes normalized (u "$") then u "USD" else currency in
            let currency := if includes normalized (u "£") then u "GBP" else currency in
            Some (mkSalary (VNum value) (VNum value) (VStr currency) year)
        | None => None
        end
    end.

(** [detectRemoteType(text)] *)
Definition detectRemoteType (text : jsstring) : RemoteType :=
  let lower := toLowerCase text in
  if includes lower (u "full remote") || includes lower (u "100% remote")
     || includes lower (u "télétravail complet") then remote
  else if includes lower (u "hybrid") || includes lower (u "hybride")
          || includes lower (u "télétravail partiel") then hybrid
  else if includes lower (u "on-site") || includes lower (u "sur site")
          || includes lower (u "présentiel") then onsite
  else unknown.

Definition knownSkills : list jsstring := map u
  [ "JavaScript"; "TypeScript"; "Python"; "Java"; "C#"; "C++"; "Go"; "Rust"; "Ruby"; "PHP";
    "React"; "Vue"; "Angular"; "Svelte"; "Node.js"; "Express"; "NestJS"; "Django"; "FastAPI";
    "Flask";
    "PostgreSQL"; "MySQL"; "MongoDB"; "Redis"; "Elasticsearch";
    "AWS"; "GCP"; "Azure"; "Docker"; "Kubernetes"; "Terraform";
    "Git"; "CI/CD"; "Agile"; "Scrum";
    "Machine Learning"; "Deep Learning"; "TensorFlow"; "PyTorch";
    "REST"; "GraphQL"; "gRPC" ].

(** [[...new Set(l)]]: the first occurrence of each string, in order. *)
Fixpoint unique (seen l : list jsstring) : list jsstring :=
  match l with
  | [] => []
  | x :: r =>
      if existsb (str_eqb x) seen then unique seen r
      else x :: unique (x :: seen) r
  end.

(** [extractSkillsFromText(text)] *)
Definition extractSkillsFromText (text : jsstring) : list jsstring :=
  let lowerText := toLowerCase text in
  unique [] (filter (fun skill => includes lowerText (toLowerCase skill)) knownSkills).

Section WithPlatform.
Context {P : Platform}.

(** [getDomain(url)] *)
Definition getDomain (url : jsstring) : jsstring :=
  match URL_hostname url with
  | Some hostname => replaceFirst (Seq (Bol false) (lit "www.")) [] hostname
  | None => []
  end.

End WithPlatform.

End Base.
Import Base.

(** The [Extractor] interface. *)
Record Extractor : Type := mkExtractor {
  name : jsstring;
  domains : list jsstring;
  priority : Z;
  canHandle : jsstring -> Document -> bool;
  extract : jsstring -> Document -> Async ExtractionResult
}.

(** A cascade: the first entry of the list for which the body returns. *)
Fixpoint firstOf {A B} (body : A -> option B) (l : list A) : option B :=
  match l with
  | [] => None
  | x :: r =>
      match body x with
      | Some y => Some y
      | None => firstOf body r
      end
  end.

(** [element?.textContent], when it is truthy. *)
Definition textOf (element : option Element) : option jsstring :=
  match element with
  | Some e => if nonempty (textContent e) then Some (textContent e) else None
  | None => None
  end.

(** The object the metadata scans of the site strategies fill. *)
Record Metadata : Type := mkMetadata {
  m_contractType : option jsstring;
  m_salary : option Salary;
  m_experience : option jsstring;
  m_remoteType : option RemoteType
}.

Definition no_metadata : Metadata := mkMetadata None None None None.

(** The cleaned texts of the elements the selectors match, selector by
    selector, the empty ones left out. *)
Definition textsOf (doc : Document) (selectors : list jsstring) : list jsstring :=
  flat_map (fun selector =>
              filter nonempty
                (map (fun el => cleanText (textContent el)) (querySelectorAll doc selector)))
           selectors.

(* ------------------------------------------------------------------ *)
(** ** src/extractors/linkedin.ts *)

Module LinkedIn.
Section WithPlatform.
Context {P : Platform}.

Definition name : jsstring := u "linkedin".
Definition domains : list jsstring := [u "linkedin.com"; u "www.linkedin.com"].
Definition priority : Z := 10.

Definition canHandle (url : jsstring) : bool :=
  let domain := getDomain url in
  existsb (str_eqb domain) domains && includes url (u "/jobs/").

Definition extractTitle (doc : Document) : option jsstring :=
  firstOf (fun selector =>
    match textOf (querySelector doc selector) with
    | Some content =>
        let text := cleanText content in
        if nonempty text && (2 <? len text)%nat then Some text else None
    | None => None
    end)
    [ css "h1.t-24.t-bold.inline";
      css "h1.topcard__title";
      css "h1.job-details-jobs-unified-top-card__job-title";
      css ".jobs-unified-top-card__job-title";
      css "h1[class*='job-title']";
      css ".top-card-layout__title";
      css "h1" ].

Definition extractCompany (doc : Document) : option jsstring :=
  firstOf (fun selector =>
    match textOf (querySelector doc selector) with
    | Some content =>
        let text := cleanText content in
        if nonempty text && (1 <? len text)%nat then Some text else None
    | None => None
    end)
    [ css ".topcard__org-name-link";
      css ".job-details-jobs-unified-top-card__company-name";
      css ".jobs-unified-top-card__company-name";
      css "a[class*='company-name']";
      css ".top-card-layout__card a[data-tracking-control-name='public_jobs_topcard-org-name']";
      css "a[data-tracking-control-name*='company']" ].

Definition ago_pattern : regex :=
  seqs [plus digit; Star space;
        Grp (alts [lit_i "week"; lit_i "day"; lit_i "hour"; lit_i "jour"; lit_i "semaine"])].

Definition extractLocation (doc : Document) : option jsstring :=
  firstOf (fun selector =>
    firstOf (fun element =>
      let text := cleanText (textContent element) in
      if nonempty text
         && (includes text (u ",") || includes text (u "France") || (3 <? len text)%nat)
      then if negb (test ago_pattern text) then Some text else None
      else None)
      (querySelectorAll doc selector))
    [ css ".topcard__flavor--bullet";
      css ".job-details-jobs-unified-top-card__bullet";
      css ".jobs-unified-top-card__bullet";
      css ".top-card-layout__entity-info-container .topcard__flavor:not(.topcard__flavor--bullet)";
      css "span[class*='location']" ].

Definition extractDescription (doc : Document) : option jsstring :=
  firstOf (fun selector =>
    match querySelector doc selector with
    | Some element =>
        let markdown := htmlToMarkdown (innerHTML element) in
        if nonempty markdown && (100 <? len markdown)%nat then Some markdown else None
    | None => None
    end)
    [ css ".show-more-less-html__markup";
      css ".jobs-description__content";
      css ".jobs-description-content__text";
      css ".description__text";
      css "[class*='job-description']";
      css ".jobs-box__html-content" ].

(** The body of the [forEach] of [extractJobDetails], on one cleaned text. *)
Definition scanInsight (result : Metadata) (text : jsstring) : Metadata :=
  let lower := toLowerCase text in
  let contractType :=
    if includes lower (u "cdi") || includes lower (u "full-time")
       || includes lower (u "temps plein") then Some (u "CDI")
    else if includes lower (u "cdd") || includes lower (u "contract")
            || includes lower (u "temporary") then Some (u "CDD")
    else if includes lower (u "intern") || includes lower (u "stage") then Some (u "Stage")
    else if includes lower (u "freelance") then Some (u "Freelance")
    else m_contractType result in
  let remoteType :=
    if includes lower (u "remote") || includes lower (u "télétravail") then
      if includes lower (u "hybrid") || includes lower (u "hybride")
      then Some hybrid else Some remote
    else if includes lower (u "on-site") || includes lower (u "sur site") then Some onsite
    else m_remoteType result in
  let experience :=
    if includes lower (u "entry") || includes lower (u "junior")
       || includes lower (u "débutant") then Some (u "Junior (0-2 ans)")
    else if includes lower (u "mid-senior") || includes lower (u "confirmé")
    then Some (u "Confirmé (3-5 ans)")
    else if includes lower (u "senior") || includes lower (u "expert")
    then Some (u "Senior (5+ ans)")
    else m_experience result in
  mkMetadata contractType (m_salary result) experience remoteType.

Definition extractJobDetails (doc : Document) : Metadata :=
  fold_left scanInsight
    (textsOf doc
       [ css ".job-details-jobs-unified-top-card__job-insight";
         css ".jobs-unified-top-card__job-insight";
         css ".description__job-criteria-item";
         css ".job-criteria__item" ])
    no_metadata.

Definition extractSkills (doc : Document) : option (list jsstring) :=
  let skills :=
    filter (fun text => (1 <? len text)%nat && (len text <? 50)%nat)
      (textsOf doc
         [ css ".job-details-skill-match-modal__skill-name";
           css ".job-details-how-you-match__skills-item";
           css "[class*='skill-match'] span" ]) in
  match skills with
  | [] => None
  | _ => Some (unique [] skills)
  end.

Definition relative_pattern : regex :=
  seqs [Grp (plus digit); Star space;
        Grp (alts [lit "hour"; lit "day"; lit "week"; lit "month";
                   lit "jour"; lit "semaine"; lit "mois"; lit "heure"])].

(** [now.toISOString()] throws a [RangeError] when [now] is invalid. *)
Definition parseRelativeDate (text : jsstring) : Async jsstring :=
  let! now <- newDate;
  let lower := toLowerCase text in
  let now :=
    match exec relative_pattern lower with
    | Some m =>
        let num := parseInt (group m 1) in
        let unit := group m 2 in
        if includes unit (u "hour") || includes unit (u "heure") then Date_hoursBack now num
        else if includes unit (u "day") || includes unit (u "jour") then Date_daysBack now num
        else if includes unit (u "week") || includes unit (u "semaine")
        then Date_daysBack now (PrimFloat.mul num 7)
        else if includes unit (u "month") || includes unit (u "mois")
        then Date_monthsBack now num
        else Some now
    | None => Some now
    end in
  match now with
  | Some now => ret (hd [] (split_on 84 (Date_toISOString now)))
  | None => lift (Throw RangeError)
  end.

Definition extractPostedDate (doc : Document) : Async (option jsstring) :=
  match
    firstOf (fun selector =>
      match textOf (querySelector doc selector) with
      | Some content =>
          let text := cleanText content in
          if nonempty text then Some text else None
      | None => None
      end)
      [ css ".posted-time-ago__text";
        css ".jobs-unified-top-card__posted-date";
        css "[class*='posted-date']" ]
  with
  | Some text => let! date <- parseRelativeDate text; ret (Some date)
  | None => ret None
  end.

Definition calculateConfidence (o : JobOffer) : float :=
  let score := 0.5%float in
  let score := if has (title o) then (score + 0.15)%float else score in
  let score := if has (company o) then (score + 0.1)%float else score in
  let score := if match description o with
                  | Some d => nonempty d && (200 <? len d)%nat
                  | None => false
                  end then (score + 0.15)%float else score in
  let score := if has (location o) then (score + 0.05)%float else score in
  let score := if has_items (skills o) then (score + 0.05)%float else score in
  Math_min score 1.

Definition extract (url : jsstring) (doc : Document) : Async ExtractionResult :=
  let! now <- newDate;
  let capturedAt := Date_toISOString now in
  let title := extractTitle doc in
  if negb (has title) then ret (createEmptyResult name)
  else
    let company := extractCompany doc in
    let location := extractLocation doc in
    match extractDescription doc with
    | Some description =>
        if negb (nonempty description) then ret (createEmptyResult name)
        else
          let details := extractJobDetails doc in
          let remoteType :=
            match m_remoteType details with
            | Some r => r
            | None => detectRemoteType description
            end in
          let skills :=
            match extractSkills doc with
            | Some l => l
            | None => extractSkillsFromText description
            end in
          let! publishedAt <- extractPostedDate doc;
          let o :=
            {| sourceUrl := url;
               sourceDomain := u "linkedin.com";
               title := title;
               company := company;
               location := location;
               remoteType := Some remoteType;
               description := Some description;
               contractType := m_contractType details;
               experience := m_experience details;
               salary := None;
               skills := Some (map VStr skills);
               publishedAt := option_map VStr publishedAt;
               capturedAt := capturedAt |} in
          ret (createSuccessResult name o (calculateConfidence o))
    | None => ret (createEmptyResult name)
    end.

End WithPlatform.

Definition linkedInExtractor {P : Platform} : Extractor :=
  mkExtractor name domains priority (fun url _ => canHandle url) extract.

End LinkedIn.

(* ------------------------------------------------------------------ *)
(** ** src/extractors/indeed.ts *)

Module Indeed.
Section WithPlatform.
Context {P : Platform}.

Definition name : jsstring := u "indeed".
Definition domains : list jsstring :=
  [u "indeed.com"; u "indeed.fr"; u "www.indeed.com"; u "www.indeed.fr"].
Definition priority : Z := 10.

Definition canHandle (url : jsstring) : bool :=
  let domain := getDomain url in
  existsb (fun d => includes domain (u "indeed")) domains.

Definition new_badge : regex :=
  seqs [Bol false; Grp (Alt (lit_i "new") (lit_i "nouveau")); Star space].

Definition extractTitle (doc : Document) : option jsstring :=
  firstOf (fun selector =>
    match textOf (querySelector doc selector) with
    | Some content =>
        let text := cleanText content in
        if nonempty text && (2 <? len text)%nat
        then Some (trim (replaceFirst new_badge [] text))
        else None
    | None => None
    end)
    [ css "h1.jobsearch-JobInfoHeader-title";
      css "[data-testid='jobsearch-JobInfoHeader-title']";
      css "h1[class*='JobTitle']";
      css ".jobsearch-JobInfoHeader-title-container h1";
      css "h1" ].

Definition extractCompany (doc : Document) : option jsstring :=
  firstOf (fun selector =>
    match textOf (querySelector doc selector) with
    | Some content =>
        let text := cleanText content in
        if nonempty text && (1 <? len text)%nat then Some text else None
    | None => None
    end)
    [ css "[data-testid='inlineHeader-companyName']";
      css "[data-testid='jobsearch-CompanyInfoHeader-companyName']";
      css ".jobsearch-InlineCompanyRating-companyHeader a";
      css ".jobsearch-CompanyInfoWithoutHeaderImage a";
      css "[class*='companyName']";
      css ".icl-u-lg-mr--sm a" ].

Definition extractLocation (doc : Document) : option jsstring :=
  firstOf (fun selector =>
    match textOf (querySelector doc selector) with
    | Some content =>
        let text := cleanText content in
        if nonempty text && (2 <? len text)%nat then Some text else None
    | None => None
    end)
    [ css "[data-testid='inlineHeader-companyLocation']";
      css "[data-testid='jobsearch-CompanyInfoHeader-location']";
      css ".jobsearch-InlineCompanyRating-companyHeader + div";
      css ".jobsearch-JobInfoHeader-subtitle > div:last-child";
      css "[class*='companyLocation']" ].

Definition extractDescription (doc : Document) : option jsstring :=
  firstOf (fun selector =>
    match querySelector doc selector with
    | Some element =>
        let markdown := htmlToMarkdown (innerHTML element) in
        if nonempty markdown && (100 <? len markdown)%nat then Some markdown else None
    | None => None
    end)
    [ css "#jobDescriptionText";
      css "[data-testid='jobDescriptionText']";
      css ".jobsearch-jobDescriptionText";
      css ".jobsearch-JobComponent-description";
      css "[class*='jobDescription']" ].

Definition extractSalary (doc : Document) : option Salary :=
  firstOf (fun selector =>
    match textOf (querySelector doc selector) with
    | Some content => parseSalary content
    | None => None
    end)
    [ css "[data-testid='jobsearch-JobMetadataHeader-salarySnippet']";
      css ".jobsearch-JobMetadataHeader-item .attribute_snippet";
      css "#salaryInfoAndJobType";
      css "[class*='salary']";
      css "[class*='salaire']" ].

(** The body of the [forEach] of [extractJobDetails], on one cleaned text. *)
Definition scanItem (result : Metadata) (text : jsstring) : Metadata :=
  let lower := toLowerCase text in
  let contractType :=
    if includes lower (u "cdi") || includes lower (u "permanent")
       || includes lower (u "full-time") then Some (u "CDI")
    else if includes lower (u "cdd") || includes lower (u "temporary")
            || includes lower (u "contract") then Some (u "CDD")
    else if includes lower (u "intérim") || includes lower (u "interim")
    then Some (u "Intérim")
    else if includes lower (u "stage") || includes lower (u "intern") then Some (u "Stage")
    else if includes lower (u "apprenti") || includes lower (u "alternance")
    then Some (u "Alternance")
    else m_contractType result in
  let remoteType :=
    if includes lower (u "télétravail") || includes lower (u "remote") then
      if includes lower (u "hybrid") || includes lower (u "hybride")
         || includes lower (u "partiel") then Some hybrid else Some remote
    else m_remoteType result in
  mkMetadata contractType (m_salary result) (m_experience result) remoteType.

Definition extractJobDetails (doc : Document) : Metadata :=
  fold_left scanItem
    (textsOf doc
       [ css ".jobsearch-JobMetadataHeader-item";
         css "[data-testid='jobsearch-JobMetadataHeader-item']";
         css "#salaryInfoAndJobType span";
         css ".jobMetaDataGroup span" ])
    no_metadata.

Definition calculateConfidence (o : JobOffer) : float :=
  let score := 0.5%float in
  let score := if has (title o) then (score + 0.15)%float else score in
  let score := if has (company o) then (score + 0.1)%float else score in
  let score := if match description o with
                  | Some d => nonempty d && (200 <? len d)%nat
                  | None => false
                  end then (score + 0.15)%float else score in
  let score := if has (location o) then (score + 0.05)%float else score in
  let score := if is_some (salary o) then (score + 0.05)%float else score in
  Math_min score 1.

Definition extract (url : jsstring) (doc : Document) : Async ExtractionResult :=
  let! now <- newDate;
  let capturedAt := Date_toISOString now in
  let title := extractTitle doc in
  if negb (has title) then ret (createEmptyResult name)
  else
    let company := extractCompany doc in
    let location := extractLocation doc in
    match extractDescription doc with
    | Some description =>
        if negb (nonempty description) then ret (createEmptyResult name)
        else
          let salary := extractSalary doc in
          let details := extractJobDetails doc in
          let remoteType :=
            match m_remoteType details with
            | Some r => r
            | None => detectRemoteType description
            end in
          let o :=
            {| sourceUrl := url;
               sourceDomain := getDomain url;
               title := title;
               company := company;
               location := location;
               remoteType := Some remoteType;
               description := Some description;
               contractType := m_contractType details;
               experience := None;
               salary := salary;
               skills := Some (map VStr (extractSkillsFromText description));
               publishedAt := None;
               capturedAt := capturedAt |} in
          ret (createSuccessResult name o (calculateConfidence o))
    | None => ret (createEmptyResult name)
    end.

End WithPlatform.

Definition indeedExtractor {P : Platform} : Extractor :=
  mkExtractor name domains priority (fun url _ => canHandle url) extract.

End Indeed.

(* ------------------------------------------------------------------ *)
(** ** src/extractors/welcometothejungle.ts *)

Module WelcomeToTheJungle.
Section WithPlatform.
Context {P : Platform}.

Definition name : jsstring := u "welcometothejungle".
Definition domains : list jsstring :=
  [u "welcometothejungle.com"; u "www.welcometothejungle.com"].
Definition priority : Z := 10.

Definition canHandle (url : jsstring) : bool :=
  let domain := getDomain url in
  existsb (fun d => includes domain (u "welcometothejungle")) domains.

Definition extractTitle (doc : Document) : option jsstring :=
  firstOf (fun selector =>
    match textOf (querySelector doc selector) with
    | Some content =>
        let text := cleanText content in
        if nonempty text && (2 <? len text)%nat && (len text <? 200)%nat
        then Some text else None
    | None => None
    end)
    [ css "h1[class*='JobHeader']";
      css "[data-testid='job-header-title']";
      css "h1[class*='sc-']";
      css "header h1";
      css "h1" ].

Definition extractCompany (doc : Document) : option jsstring :=
  firstOf (fun selector =>
    match textOf (querySelector doc selector) with
    | Some content =>
        let text := cleanText content in
        if nonempty text && (1 <? len text)%nat && (len text <? 100)%nat
        then Some text else None
    | None => None
    end)
    [ css "[data-testid='job-header-company-name']";
      css "[class*='CompanyName']";
      css "a[href*='/companies/']";
      css "header a[class*='sc-']" ].

Definition extractLocation (doc : Document) : option jsstring :=
  firstOf (fun selector =>
    firstOf (fun element =>
      let text := cleanText (textContent element) in
      if nonempty text
         && (includes text (u ",") || includes text (u "Paris") || includes text (u "Lyon")
             || includes text (u "France")
             || test (Seq (Bol false) (times 5 digit)) text)
      then Some text else None)
      (querySelectorAll doc selector))
    [ css "[data-testid='job-header-location']";
      css "[class*='Location']";
      css "header [class*='sc-'] span" ].

Definition extractDescription (doc : Document) : option jsstring :=
  match
    firstOf (fun selector =>
      match querySelector doc selector with
      | Some element =>
          let markdown := htmlToMarkdown (innerHTML element) in
          if nonempty markdown && (100 <? len markdown)%nat then Some markdown else None
      | None => None
      end)
      [ css "[data-testid='job-section-description']";
        css "[class*='JobDescription']";
        css "[class*='sc-'] div[class*='sc-'] p";
        css "article";
        css "main section" ]
  with
  | Some markdown => Some markdown
  | None =>
      let sections := querySelectorAll doc (css "[data-testid^='job-section-']") in
      match sections with
      | [] => None
      | _ =>
          let combinedMarkdown :=
            join (nl ++ nl)
              (filter (fun t => nonempty t && (20 <? len t)%nat)
                 (map (fun s => htmlToMarkdown (innerHTML s)) sections)) in
          if (100 <? len combinedMarkdown)%nat then Some combinedMarkdown else None
      end
  end.

Definition years_pattern : regex :=
  seqs [Grp (plus digit); Star space; Grp (alts [lit "an"; lit "année"; lit "year"])].

(** The body of the analysis loop of [extractMetadata], on one text. *)
Definition scanText (result : Metadata) (text : jsstring) : Metadata :=
  let lower := toLowerCase text in
  let contractType :=
    if includes lower (u "cdi") then Some (u "CDI")
    else if includes lower (u "cdd") then Some (u "CDD")
    else if includes lower (u "stage") then Some (u "Stage")
    else if includes lower (u "alternance") || includes lower (u "apprentissage")
    then Some (u "Alternance")
    else if includes lower (u "freelance") || includes lower (u "indépendant")
    then Some (u "Freelance")
    else m_contractType result in
  let salary :=
    if includes lower (u "€") || includes lower (u "eur")
       || test (Seq (plus digit) (chr 107)) lower
    then match parseSalary text with
         | Some s => Some s
         | None => m_salary result
         end
    else m_salary result in
  let experience :=
    match exec years_pattern lower with
    | Some m =>
        let years := parseInt (group m 1) in
        if PrimFloat.leb years 2 then Some (u "Junior (0-2 ans)")
        else if PrimFloat.leb years 5 then Some (u "Confirmé (3-5 ans)")
        else Some (u "Senior (5+ ans)")
    | None => m_experience result
    end in
  let remoteType :=
    if includes lower (u "télétravail") || includes lower (u "remote") then
      if includes lower (u "100%") || includes lower (u "full") then Some remote
      else if includes lower (u "partiel") || includes lower (u "hybride")
              || includes lower (u "jour") then Some hybrid
      else Some hybrid
    else if includes lower (u "présentiel") || includes lower (u "sur site")
    then Some onsite
    else m_remoteType result in
  mkMetadata contractType salary experience remoteType.

Definition extractMetadata (doc : Document) : Metadata :=
  let allText :=
    textsOf doc
      [ css "[data-testid*='job-info']";
        css "[class*='JobInfo']";
        css "header ul li";
        css "header div[class*='sc-']" ] in
  fold_left scanText allText no_metadata.

Definition extractSkills (doc : Document) : option (list jsstring) :=
  let skills :=
    filter (fun text => (1 <? len text)%nat && (len text <? 50)%nat)
      (textsOf doc
         [ css "[data-testid='job-section-stack'] li";
           css "[data-testid='job-section-skills'] li";
           css "[class*='TechStack'] span";
           css "[class*='Skill']" ]) in
  match skills with
  | [] => None
  | _ => Some (unique [] skills)
  end.

Definition calculateConfidence (o : JobOffer) : float :=
  let score := 0.6%float in
  let score := if has (title o) then (score + 0.1)%float else score in
  let score := if has (company o) then (score + 0.1)%float else score in
  let score := if match description o with
                  | Some d => nonempty d && (200 <? len d)%nat
                  | None => false
                  end then (score + 0.1)%float else score in
  let score := if has (location o) then (score + 0.05)%float else score in
  let score := if has_items (skills o) then (score + 0.05)%float else score in
  Math_min score 1.

Definition extract (url : jsstring) (doc : Document) : Async ExtractionResult :=
  let! now <- newDate;
  let capturedAt := Date_toISOString now in
  let title := extractTitle doc in
  if negb (has title) then ret (createEmptyResult name)
  else
    let company := extractCompany doc in
    let location := extractLocation doc in
    match extractDescription doc with
    | Some description =>
        if negb (nonempty description) then ret (createEmptyResult name)
        else
          let metadata := extractMetadata doc in
          let remoteType :=
            match m_remoteType metadata with
            | Some r => r
            | None => detectRemoteType description
            end in
          let skills :=
            match extractSkills doc with
            | Some l => l
            | None => extractSkillsFromText description
            end in
          let o :=
            {| sourceUrl := url;
               sourceDomain := u "welcometothejungle.com";
               title := title;
               company := company;
               location := location;
               remoteType := Some remoteType;
               description := Some description;
               contractType := m_contractType metadata;
               experience := m_experience metadata;
               salary := m_salary metadata;
               skills := Some (map VStr skills);
               publishedAt := None;
               capturedAt := capturedAt |} in
          ret (createSuccessResult name o (calculateConfidence o))
    | None => ret (createEmptyResult name)
    end.

End WithPlatform.

Definition welcomeToTheJungleExtractor {P : Platform} : Extractor :=
  mkExtractor name domains priority (fun url _ => canHandle url) extract.

End WelcomeToTheJungle.

(* ------------------------------------------------------------------ *)
(** ** src/extractors/generic.ts *)

Module Generic.
Section WithPlatform.
Context {P : Platform}.

Definition name : jsstring := u "generic".
Definition domains : list jsstring := [u "*"].
Definition priority : Z := 0.

Definition canHandle : bool := true.

(** [ToString]: how a value is printed when a string is expected. An object
    read from JSON prints as [[object Object]], unless a field of its own
    hides [toString], in which case no conversion is found. *)
Fixpoint ToString (v : jsval) : completion jsstring :=
  match v with
  | VUndef => Normal (u "undefined")
  | VNull => Normal (u "null")
  | VBool true => Normal (u "true")
  | VBool false => Normal (u "false")
  | VNum x => Normal (Number_toString x)
  | VStr s => Normal s
  | VArr items =>
      try! parts <-
        (fix each (l : list jsval) : completion (list jsstring) :=
           match l with
           | [] => Normal []
           | x :: r =>
               try! s <- match x with
                         | VUndef | VNull => Normal []
                         | _ => ToString x
                         end;
               try! rs <- each r;
               Normal (s :: rs)
           end) items;
      Normal (join (u ",") parts)
  | VObj fields =>
      match own fields (u "toString") with
      | Some _ => Throw TypeError
      | None => Normal (u "[object Object]")
      end
  end.

(** [parts.join(sep)] on values. *)
Fixpoint Array_join (sep : jsstring) (parts : list jsval) : completion jsstring :=
  match parts with
  | [] => Normal []
  | x :: r =>
      try! s <- match x with
                | VUndef | VNull => Normal []
                | _ => ToString x
                end;
      match r with
      | [] => Normal s
      | _ => try! rs <- Array_join sep r; Normal (s ++ sep ++ rs)
      end
  end.

(** [item['@graph'].find(g => g['@type'] === 'JobPosting')] *)
Fixpoint findPosting (graph : list jsval) : completion (option jsval) :=
  match graph with
  | [] => Normal None
  | g :: r =>
      try! ty <- get g (u "@type");
      if is_str ty (u "JobPosting") then Normal (Some g) else findPosting r
  end.

(** The loop over the items of one script, inside the [try]. *)
Fixpoint scanItems (items : list jsval) : completion (option jsval) :=
  match items with
  | [] => Normal None
  | item :: r =>
      try! ty <- get item (u "@type");
      if is_str ty (u "JobPosting") then Normal (Some item)
      else
        try! graph <- get item (u "@graph");
        if truthy graph then
          try! jobPosting <-
            match graph with
            | VArr l => findPosting l
            | _ => Throw TypeError
            end;
          match jobPosting with
          | Some g => if truthy g then Normal (Some g) else scanItems r
          | None => scanItems r
          end
        else scanItems r
  end.

Definition scanScript (script : Element) : completion (option jsval) :=
  match JSON_parse (textContent script) with
  | None => Throw SyntaxError
  | Some data =>
      let items := match data with VArr l => l | _ => [data] end in
      scanItems items
  end.

Definition extractJsonLd (doc : Document) : option jsval :=
  firstOf (fun script =>
    match scanScript script with
    | Normal found => found
    | Throw _ => None
    end)
    (querySelectorAll doc (css "script[type='application/ld+json']")).

Definition normalizeContractType (type : jsstring) : jsstring :=
  let lower := toLowerCase type in
  if includes lower (u "full") || includes lower (u "permanent") || str_eqb lower (u "cdi")
  then u "CDI"
  else if includes lower (u "temporary") || includes lower (u "contract")
          || str_eqb lower (u "cdd")
  then u "CDD"
  else if includes lower (u "intern") || includes lower (u "stage") then u "Stage"
  else if includes lower (u "freelance") || includes lower (u "contractor") then u "Freelance"
  else if includes lower (u "part-time") || includes lower (u "partiel")
  then u "Temps partiel"
  else if includes lower (u "apprenti") then u "Alternance"
  else type.

Definition normalizeSalaryPeriod (period : jsval) : completion Period :=
  if negb (truthy period) then Normal year
  else match period with
       | VStr s =>
           let lower := toLowerCase s in
           if includes lower (u "hour") || includes lower (u "heure") then Normal hour
           else if includes lower (u "day") || includes lower (u "jour") then Normal day
           else if includes lower (u "month") || includes lower (u "mois") then Normal month
           else Normal year
       | _ => Throw TypeError
       end.

(** [htmlToMarkdown(v)] on a value read from JSON: the parser converts its
    argument to a string. *)
Definition htmlToMarkdown_val (v : jsval) : completion jsstring :=
  if negb (truthy v) then Normal []
  else try! html <- ToString v;
       Normal (cleanMarkdown (processNode (DOMParser_body html))).

(** The fields [applyJsonLdData] and the later steps assign. *)
Definition set_title (o : JobOffer) (v : option jsstring) : JobOffer :=
  mkJobOffer (sourceUrl o) (sourceDomain o) v (company o) (location o) (remoteType o)
    (description o) (contractType o) (experience o) (salary o) (skills o) (publishedAt o)
    (capturedAt o).

Definition set_company (o : JobOffer) (v : option jsstring) : JobOffer :=
  mkJobOffer (sourceUrl o) (sourceDomain o) (title o) v (location o) (remoteType o)
    (description o) (contractType o) (experience o) (salary o) (skills o) (publishedAt o)
    (capturedAt o).

Definition set_location (o : JobOffer) (v : option jsstring) : JobOffer :=
  mkJobOffer (sourceUrl o) (sourceDomain o) (title o) (company o) v (remoteType o)
    (description o) (contractType o) (experience o) (salary o) (skills o) (publishedAt o)
    (capturedAt o).

Definition set_remoteType (o : JobOffer) (v : option RemoteType) : JobOffer :=
  mkJobOffer (sourceUrl o) (sourceDomain o) (title o) (company o) (location o) v
    (description o) (contractType o) (experience o) (salary o) (skills o) (publishedAt o)
    (capturedAt o).

Definition set_description (o : JobOffer) (v : option jsstring) : JobOffer :=
  mkJobOffer (sourceUrl o) (sourceDomain o) (title o) (company o) (location o) (remoteType o)
    v (contractType o) (experience o) (salary o) (skills o) (publishedAt o)
    (capturedAt o).

Definition set_contractType (o : JobOffer) (v : option jsstring) : JobOffer :=
  mkJobOffer (sourceUrl o) (sourceDomain o) (title o) (company o) (location o) (remoteType o)
    (description o) v (experience o) (salary o) (skills o) (publishedAt o)
    (capturedAt o).

Definition set_salary (o : JobOffer) (v : option Salary) : JobOffer :=
  mkJobOffer (sourceUrl o) (sourceDomain o) (title o) (company o) (location o) (remoteType o)
    (description o) (contractType o) (experience o) v (skills o) (publishedAt o)
    (capturedAt o).

Definition set_skills (o : JobOffer) (v : option (list jsval)) : JobOffer :=
  mkJobOffer (sourceUrl o) (sourceDomain o) (title o) (company o) (location o) (remoteType o)
    (description o) (contractType o) (experience o) (salary o) v (publishedAt o)
    (capturedAt o).

Definition set_publishedAt (o : JobOffer) (v : option jsval) : JobOffer :=
  mkJobOffer (sourceUrl o) (sourceDomain o) (title o) (company o) (location o) (remoteType o)
    (description o) (contractType o) (experience o) (salary o) (skills o) v
    (capturedAt o).

(** [applyJsonLdData(offer, data)]: the offer after the assignments, or the
    exception one of them throws. *)
Definition applyJsonLdData (o : JobOffer) (data : jsval) : completion JobOffer :=
  try! v <- get data (u "title");
  try! o <- (if truthy v
             then try! t <- cleanText_val v; Normal (set_title o (Some t))
             else Normal o);
  try! v <- get data (u "description");
  try! o <- (if truthy v
             then try! d <- htmlToMarkdown_val v; Normal (set_description o (Some d))
             else Normal o);
  try! org <- get data (u "hiringOrganization");
  let v := get_opt org (u "name") in
  try! o <- (if truthy v
             then try! c <- cleanText_val v; Normal (set_company o (Some c))
             else Normal o);
  try! loc <- get data (u "jobLocation");
  let addr := get_opt loc (u "address") in
  try! o <- (if truthy addr
             then
               let parts :=
                 filter truthy
                   [ get_opt addr (u "addressLocality");
                     get_opt addr (u "addressRegion");
                     get_opt addr (u "addressCountry") ] in
               try! l <- Array_join (u ", ") parts;
               Normal (set_location o (Some l))
             else Normal o);
  try! v <- get data (u "employmentType");
  try! o <- (if truthy v
             then match v with
                  | VStr type => Normal (set_contractType o (Some (normalizeContractType type)))
                  | _ => Throw TypeError
                  end
             else Normal o);
  try! baseSalary <- get data (u "baseSalary");
  let value := get_opt baseSalary (u "value") in
  try! o <- (if truthy value
             then
               try! p <- normalizeSalaryPeriod (get_opt value (u "unitText"));
               Normal (set_salary o (Some
                 {| min := get_opt value (u "minValue");
                    max := get_opt value (u "maxValue");
                    currency := nullish_or (get_opt baseSalary (u "currency")) (VStr (u "EUR"));
                    period := p |}))
             else Normal o);
  try! v <- get data (u "datePosted");
  let o := if truthy v then set_publishedAt o (Some v) else o in
  try! v <- get data (u "skills");
  let o := if truthy v
           then set_skills o (Some match v with VArr l => l | _ => [v] end)
           else o in
  Normal o.

(** [doc.querySelector(sel)?.getAttribute('content')] *)
Definition metaContent (doc : Document) (selector : jsstring) : option jsstring :=
  match querySelector doc selector with
  | Some el => getAttribute el (u "content")
  | None => None
  end.

(** [a ?? b] on optional strings. *)
Definition coalesce (a b : option jsstring) : option jsstring :=
  match a with Some _ => a | None => b end.

(** [cleanText(s)] on an optional string. *)
Definition cleanText_opt (s : option jsstring) : jsstring :=
  match s with Some t => cleanText t | None => [] end.

Definition extractMetaTags (o : JobOffer) (doc : Document) : JobOffer :=
  let ogTitle := metaContent doc (css "meta[property='og:title']") in
  let ogDesc := metaContent doc (css "meta[property='og:description']") in
  let ogSiteName := metaContent doc (css "meta[property='og:site_name']") in
  let twitterTitle := metaContent doc (css "meta[name='twitter:title']") in
  let twitterDesc := metaContent doc (css "meta[name='twitter:description']") in
  let metaDesc := metaContent doc (css "meta[name='description']") in
  let o := if negb (has (title o)) && (has ogTitle || has twitterTitle)
           then set_title o (Some (cleanText_opt (coalesce ogTitle twitterTitle)))
           else o in
  let o := if negb (has (description o)) && (has ogDesc || has twitterDesc || has metaDesc)
           then set_description o
                  (Some (cleanText_opt (coalesce ogDesc (coalesce twitterDesc metaDesc))))
           else o in
  if negb (has (company o)) && has ogSiteName
  then set_company o (Some (cleanText_opt ogSiteName))
  else o.

Definition title_separator : regex :=
  seqs [Star space; oneof (u "|â€“-"); Star space].

Definition extractTitle (doc : Document) : option jsstring :=
  match
    firstOf (fun selector =>
      match textOf (querySelector doc selector) with
      | Some content =>
          let text := cleanText content in
          if nonempty text && (3 <? len text)%nat && (len text <? 200)%nat
          then Some text else None
      | None => None
      end)
      [ css "h1[class*='job-title']";
        css "h1[class*='jobtitle']";
        css "h1[class*='position']";
        css "[class*='job-title'] h1";
        css "[class*='job-header'] h1";
        css "[data-testid*='job-title']";
        css "h1" ]
  with
  | Some text => Some text
  | None =>
      let docTitle := DOM.title doc in
      if nonempty docTitle
      then Some (cleanText (split_head title_separator docTitle))
      else None
  end.

Definition extractDescription (doc : Document) : option jsstring :=
  firstOf (fun selector =>
    match querySelector doc selector with
    | Some element =>
        let markdown := htmlToMarkdown (innerHTML element) in
        if nonempty markdown && (100 <? len markdown)%nat then Some markdown else None
    | None => None
    end)
    [ css "[class*='job-description']";
      css "[class*='jobdescription']";
      css "[class*='description-content']";
      css "[data-testid*='job-description']";
      css "[id*='job-description']";
      css "article";
      css "main" ].

Definition extractCompany (doc : Document) : option jsstring :=
  firstOf (fun selector =>
    match textOf (querySelector doc selector) with
    | Some content =>
        let text := cleanText content in
        if nonempty text && (1 <? len text)%nat && (len text <? 100)%nat
        then Some text else None
    | None => None
    end)
    [ css "[class*='company-name']";
      css "[class*='companyname']";
      css "[class*='employer']";
      css "[data-testid*='company']";
      css "[class*='hiring-organization']" ].

Definition extractLocation (doc : Document) : option jsstring :=
  firstOf (fun selector =>
    match textOf (querySelector doc selector) with
    | Some content =>
        let text := cleanText content in
        if nonempty text && (1 <? len text)%nat && (len text <? 200)%nat
        then Some text else None
    | None => None
    end)
    [ css "[class*='job-location']";
      css "[class*='joblocation']";
      css "[class*='location']";
      css "[data-testid*='location']";
      css "[class*='address']" ].

Definition calculateConfidence (o : JobOffer) : float :=
  let score := 0%float in
  let score := if has (title o) then (score + 0.25)%float else score in
  let score := if match description o with
                  | Some d => nonempty d && (200 <? len d)%nat
                  | None => false
                  end then (score + 0.25)%float else score in
  let score := if has (company o) then (score + 0.15)%float else score in
  let score := if has (location o) then (score + 0.1)%float else score in
  let score := if is_some (salary o) then (score + 0.1)%float else score in
  let score := if has_items (skills o) then (score + 0.1)%float else score in
  let score := if has (contractType o) then (score + 0.05)%float else score in
  Math_min score 1.

(** The string a field stands for in a template ([offer.x ?? '']). *)
Definition or_empty (s : option jsstring) : jsstring :=
  match s with Some t => t | None => [] end.

Definition extract (url : jsstring) (doc : Document) : Async ExtractionResult :=
  let! now <- newDate;
  let o :=
    {| sourceUrl := url;
       sourceDomain := getDomain url;
       title := None; company := None; location := None; remoteType := None;
       description := None; contractType := None; experience := None;
       salary := None; skills := None; publishedAt := None;
       capturedAt := Date_toISOString now |} in
  let confidence := 0%float in
  let jsonLdData := extractJsonLd doc in
  let! o <- lift match jsonLdData with
                 | Some data => applyJsonLdData o data
                 | None => Normal o
                 end;
  let confidence := if is_some jsonLdData then 0.9%float else confidence in
  let o := extractMetaTags o doc in
  let o := if negb (has (title o)) then set_title o (extractTitle doc) else o in
  let o := if negb (has (description o))
           then set_description o (extractDescription doc) else o in
  let o := if negb (has (company o)) then set_company o (extractCompany doc) else o in
  let o := if negb (has (location o)) then set_location o (extractLocation doc) else o in
  let o := if has (description o) && negb (has_items (skills o))
           then set_skills o (Some (map VStr (extractSkillsFromText (or_empty (description o)))))
           else o in
  let fullText := or_empty (title o) ++ u " " ++ or_empty (description o) in
  let o := match remoteType o with
           | None | Some unknown => set_remoteType o (Some (detectRemoteType fullText))
           | _ => o
           end in
  let confidence := if negb (is_some jsonLdData) then calculateConfidence o else confidence in
  ret (if negb (has (title o)) || negb (has (description o))
       then createEmptyResult name
       else createSuccessResult name o confidence).

End WithPlatform.

Definition genericExtractor {P : Platform} : Extractor :=
  mkExtractor name domains priority (fun _ _ => canHandle) extract.

End Generic.

(* ------------------------------------------------------------------ *)
(** ** src/extractors/index.ts *)

Module Registry.
Section WithPlatform.
Context {P : Platform}.

(** [Array.prototype.sort] with the comparator [(a, b) => b.priority -
    a.priority]: a stable sort, the higher priority first. *)
Fixpoint insert (e : Extractor) (l : list Extractor) : list Extractor :=
  match l with
  | [] => [e]
  | x :: r =>
      if (priority x <=? priority e)%Z then e :: l else x :: insert e r
  end.

Definition sort (l : list Extractor) : list Extractor := fold_right insert [] l.

Definition registered : list Extractor :=
  [ LinkedIn.linkedInExtractor;
    Indeed.indeedExtractor;
    WelcomeToTheJungle.welcomeToTheJungleExtractor;
    Generic.genericExtractor ].

Definition extractors : list Extractor := sort registered.

(** What an [async] function that catches every exception resolves to. *)
Definition Task (A : Type) : Type := Clock -> A * Clock.

(** The [for] loop of [extractJobOffer] over the extractors still to try. *)
Fixpoint tryEach (l : list Extractor) (url : jsstring) (doc : Document)
  : Task ExtractionResult :=
  match l with
  | [] => fun c => (createEmptyResult (u "none"), c)
  | extractor :: r =>
      if canHandle extractor url doc then
        fun c =>
          match extract extractor url doc c with
          | (Normal result, c') =>
              if success result && is_some (offer result) then (result, c')
              else tryEach r url doc c'
          | (Throw _, c') => tryEach r url doc c'
          end
      else tryEach r url doc
  end.

(** [extractJobOffer(url, doc)]; what it writes to the console is left out. *)
Definition extractJobOffer (url : jsstring) (doc : Document) : Task ExtractionResult :=
  tryEach extractors url doc.

Definition jobSiteDomains : list jsstring := map u
  [ "linkedin.com"; "indeed.com"; "indeed.fr"; "welcometothejungle.com";
    "glassdoor.com"; "glassdoor.fr"; "monster.fr"; "monster.com"; "apec.fr";
    "pole-emploi.fr"; "francetravail.fr"; "hellowork.com"; "cadremploi.fr";
    "talent.com"; "jobteaser.com" ].

Definition isKnownJobSite (url : jsstring) : bool :=
  let domain := getDomain url in
  existsb (fun d => includes domain (replace_str d (u "www.") [])) jobSiteDomains.

Definition pathIndicators : list jsstring := map u
  [ "/jobs/"; "/job/"; "/offre/"; "/emploi/"; "/career/"; "/carriere/" ].

Definition slug : regex :=
  Cls (fun c => let d := lower_unit c in
                ((97 <=? d) && (d <=? 122) || (48 <=? c) && (c <=? 57) || (c =? 45))%N).

Definition urlPatterns : list regex :=
  [ Seq (lit "/jobs/view/") (plus digit);
    Seq (lit_i "/job/") (plus slug);
    Seq (lit_i "/offre/") (plus slug);
    lit_i "viewjob" ].

Definition hasJobPath (url : jsstring) : bool :=
  existsb (fun p => includes (toLowerCase url) p) pathIndicators.

Definition hasJobUrl (url : jsstring) : bool :=
  existsb (fun p => test p url) urlPatterns.

Definition urlKeywords : list jsstring := map u
  [ "job"; "career"; "emploi"; "offre"; "recrutement"; "hiring"; "vacancy"; "position" ].

Definition titleKeywords : list jsstring := map u
  [ "job"; "career"; "emploi"; "poste"; "recrutement"; "hiring"; "developer"; "engineer";
    "manager" ].

Definition jobElementSelectors : list jsstring :=
  [ css "[class*='job-description']";
    css "[class*='job-title']";
    css "[class*='apply']";
    css "[id*='job-description']";
    css "button[class*='apply']";
    css "a[href*='apply']" ].

(** [graph.some(g => g['@type'] === 'JobPosting')] *)
Fixpoint somePosting (graph : list jsval) : completion bool :=
  match graph with
  | [] => Normal false
  | g :: r =>
      try! ty <- get g (u "@type");
      if is_str ty (u "JobPosting") then Normal true else somePosting r
  end.

(** The loop over the items of one script, inside the [try]: whether it
    sets the structured-data score. *)
Fixpoint hasPosting (items : list jsval) : completion bool :=
  match items with
  | [] => Normal false
  | item :: r =>
      try! ty <- get item (u "@type");
      if is_str ty (u "JobPosting") then Normal true
      else
        try! graph <- get item (u "@graph");
        try! some <-
          match graph with
          | VUndef | VNull => Normal false
          | VArr l => somePosting l
          | _ => Throw TypeError
          end;
        if some then Normal true else hasPosting r
  end.

Definition scriptHasPosting (script : Element) : bool :=
  match JSON_parse (textContent script) with
  | None => false
  | Some data =>
      match hasPosting (match data with VArr l => l | _ => [data] end) with
      | Normal b => b
      | Throw _ => false
      end
  end.

Definition urlScore (url : jsstring) : Z :=
  let urlLower := toLowerCase url in
  Z.of_nat (List.length (filter (fun k => includes urlLower k) urlKeywords)).

Definition contentScore (doc : Document) : Z :=
  let title := toLowerCase (DOM.title doc) in
  let score := 0%Z in
  let score := if existsb (fun k => includes title k) titleKeywords
               then (score + 2)%Z else score in
  let hasJobElements :=
    existsb (fun s => is_some (querySelector doc s)) jobElementSelectors in
  if hasJobElements then (score + 2)%Z else score.

Definition structuredDataScore (doc : Document) : Z :=
  fold_left (fun score script => if scriptHasPosting script then 5%Z else score)
    (querySelectorAll doc (css "script[type='application/ld+json']")) 0%Z.

(** [detectJobPageHeuristics(url, doc)] *)
Definition detectJobPageHeuristics (url : jsstring) (doc : Document) : bool :=
  let totalScore := (urlScore url + contentScore doc + structuredDataScore doc)%Z in
  (3 <=? totalScore)%Z.

(** [isJobPage], with the scorer it falls back on as a parameter. *)
Definition isJobPage_with (heuristics : jsstring -> Document -> bool)
           (url : jsstring) (doc : Document) : bool :=
  if isKnownJobSite url then hasJobPath url || hasJobUrl url
  else heuristics url doc.

(** [isJobPage(url, doc)] *)
Definition isJobPage (url : jsstring) (doc : Document) : bool :=
  isJobPage_with detectJobPageHeuristics url doc.

End WithPlatform.
End Registry.

(* ------------------------------------------------------------------ *)
(** ** src/lib/storage.ts *)

(** What the validation library provides: [AuthTokensSchema.safeParse], which
    answers the parsed tokens, or nothing when the value is not of the
    schema. *)
Record AuthTokens : Type := mkAuthTokens {
  accessToken : jsstring;
  refreshToken : jsstring;
  expiresAt : float
}.

Class Schemas : Type := {
  AuthTokensSchema_safeParse : jsval -> option AuthTokens
}.

Module Storage.

(** The keys of [STORAGE_KEYS]. *)
Inductive Key : Type := AUTH_TOKENS | USER | SETTINGS | CAPTURED_OFFERS.

Definition STORAGE_KEYS (k : Key) : jsstring :=
  match k with
  | AUTH_TOKENS => u "jobmatch_auth_tokens"
  | USER => u "jobmatch_user"
  | SETTINGS => u "jobmatch_settings"
  | CAPTURED_OFFERS => u "jobmatch_captured_offers"
  end.

(** What is kept under a key: the list of the captured offers under
    [CAPTURED_OFFERS], a value as it was stored under the others. The
    extension is the only writer of its storage area. *)
Definition Value (k : Key) : Type :=
  match k with
  | CAPTURED_OFFERS => list JobOffer
  | _ => jsval
  end.

Record Items : Type := mkItems {
  auth_tokens : option jsval;
  user : option jsval;
  settings : option jsval;
  captured_offers : option (list JobOffer)
}.

Definition lookup (k : Key) : Items -> option (Value k) :=
  match k with
  | AUTH_TOKENS => auth_tokens
  | USER => user
  | SETTINGS => settings
  | CAPTURED_OFFERS => captured_offers
  end.

Definition update (k : Key) : option (Value k) -> Items -> Items :=
  match k with
  | AUTH_TOKENS => fun v it => mkItems v (user it) (settings it) (captured_offers it)
  | USER => fun v it => mkItems (auth_tokens it) v (settings it) (captured_offers it)
  | SETTINGS => fun v it => mkItems (auth_tokens it) (user it) v (captured_offers it)
  | CAPTURED_OFFERS => fun v it => mkItems (auth_tokens it) (user it) (settings it) v
  end.

(** [chrome.storage.local] and the clock: the items kept, for each call to
    the storage still to come whether the browser rejects it (none is
    rejected once the list is exhausted), and the times [Date.now()] will
    read. *)
Record Area : Type := mkArea {
  items : Items;
  rejections : list bool;
  clock : Clock
}.

(** How a promise settles. *)
Inductive Settled (A : Type) : Type :=
| Fulfilled (a : A)
| Rejected.
Arguments Fulfilled {A} a.
Arguments Rejected {A}.

(** An [async] function of the module, run to the end. *)
Definition Promise (A : Type) : Type := Area -> Settled A * Area.

Definition resolve {A} (a : A) : Promise A := fun w => (Fulfilled a, w).

Definition await {A B} (m : Promise A) (k : A -> Promise B) : Promise B :=
  fun w =>
    match m w with
    | (Fulfilled a, w') => k a w'
    | (Rejected, w') => (Rejected, w')
    end.

Notation "'await!' x <- m ; k" := (await m (fun x => k))
  (at level 10, x name, m at level 100, k at level 200).

(** A call to the storage of the browser: rejected, it leaves the items as
    they are. *)
Definition call {A} (op : Items -> A * Items) : Promise A :=
  fun w =>
    match rejections w with
    | true :: later => (Rejected, mkArea (items w) later (clock w))
    | _ =>
        let (a, it) := op (items w) in
        (Fulfilled a, mkArea it (tl (rejections w)) (clock w))
    end.

(** [storage.get(key)], [storage.set({ [key]: value })], [storage.remove(key)] *)
Definition storage_get (k : Key) : Promise (option (Value k)) :=
  call (fun it => (lookup k it, it)).

Definition storage_set (k : Key) (value : Value k) : Promise unit :=
  call (fun it => (tt, update k (Some value) it)).

Definition storage_remove (k : Key) : Promise unit :=
  call (fun it => (tt, update k None it)).

(** [value ?? null]: a list of offers is not nullish. *)
Definition or_null (k : Key) : option (Value k) -> option (Value k) :=
  match k with
  | CAPTURED_OFFERS => fun value => value
  | _ => fun value =>
      match value with
      | Some VUndef | Some VNull => None
      | _ => value
      end
  end.

(** [get(key)]: [null] when nothing is kept, and when the storage rejects. *)
Definition get (k : Key) : Promise (option (Value k)) :=
  fun w =>
    match storage_get k w with
    | (Fulfilled result, w') => (Fulfilled (or_null k result), w')
    | (Rejected, w') => (Fulfilled None, w')
    end.

(** [set(key, value)] and [remove(key)]: a rejection is logged and thrown
    again. *)
Definition set (k : Key) (value : Value k) : Promise unit := storage_set k value.

Definition remove (k : Key) : Promise unit := storage_remove k.

(** [Promise.all([p, q])] of two calls: both are made, in order. *)
Definition all2 (p q : Promise unit) : Promise unit :=
  fun w =>
    let (a, w1) := p w in
    let (b, w2) := q w1 in
    (match a, b with
     | Fulfilled _, Fulfilled _ => Fulfilled tt
     | _, _ => Rejected
     end, w2).

Definition clearAuth : Promise unit :=
  all2 (remove AUTH_TOKENS) (remove USER).

Section WithSchemas.
Context {V : Schemas}.

Definition getAuthTokens : Promise (option AuthTokens) :=
  await! tokens <- get AUTH_TOKENS;
  match tokens with
  | None => resolve None
  | Some v =>
      if negb (truthy v) then resolve None
      else match AuthTokensSchema_safeParse v with
           | None => await! _ <- clearAuth; resolve None
           | Some data => resolve (Some data)
           end
  end.

(** [Date.now()] *)
Definition Date_now : Promise float :=
  fun w => (Fulfilled (number_of_Z (clock w 0%nat)),
            mkArea (items w) (rejections w) (fun n => clock w (S n))).

Definition isAuthenticated : Promise bool :=
  await! tokens <- getAuthTokens;
  match tokens with
  | None => resolve false
  | Some t =>
      await! now <- Date_now;
      let isExpired := PrimFloat.ltb (expiresAt t) (now + 30000)%float in
      resolve (negb isExpired)
  end.

End WithSchemas.

(** The tokens as the object that is stored. *)
Definition AuthTokens_value (tokens : AuthTokens) : jsval :=
  VObj [ (u "accessToken", VStr (accessToken tokens));
         (u "refreshToken", VStr (refreshToken tokens));
         (u "expiresAt", VNum (expiresAt tokens)) ].

Definition setAuthTokens (tokens : AuthTokens) : Promise unit :=
  set AUTH_TOKENS (AuthTokens_value tokens).

Definition getUser : Promise (option jsval) := get USER.

Definition setUser (user : jsval) : Promise unit := set USER user.

Definition getCapturedOffers : Promise (list JobOffer) :=
  await! offers <- get CAPTURED_OFFERS;
  resolve (match offers with Some l => l | None => [] end).

Definition addCapturedOffer (offer : JobOffer) : Promise unit :=
  await! offers <- getCapturedOffers;
  let exists_ := existsb (fun o => str_eqb (sourceUrl o) (sourceUrl offer)) offers in
  if exists_ then
    let updated :=
      map (fun o => if str_eqb (sourceUrl o) (sourceUrl offer) then offer else o) offers in
    set CAPTURED_OFFERS updated
  else
    let updated := firstn 100 (offer :: offers) in
    set CAPTURED_OFFERS updated.

Definition removeCapturedOffer (sourceUrl_ : jsstring) : Promise unit :=
  await! offers <- getCapturedOffers;
  let updated := filter (fun o => negb (str_eqb (sourceUrl o) sourceUrl_)) offers in
  set CAPTURED_OFFERS updated.

Definition clearCapturedOffers : Promise unit := remove CAPTURED_OFFERS.

End Storage.

(* ------------------------------------------------------------------ *)
(** ** A platform to run the embedding on

    The examples, witnesses and counterexamples below are evaluated on this
    platform: URLs of the form [scheme://host/...], HTML fragments made of
    text and attribute-free tags, JSON texts made of objects, arrays, strings
    without escapes, integers and the three literals, and a [Date] in UTC. *)

Module Reference.

Definition host_unit (c : N) : bool :=
  let d := lower_unit c in
  ((97 <=? d) && (d <=? 122) || (48 <=? c) && (c <=? 57) || (c =? 45) || (c =? 46))%N.

Definition hostname (url : jsstring) : option jsstring :=
  match exec (seqs [Bol false; plus (Cls host_unit); lit "://"; Grp (plus (Cls host_unit))]) url with
  | Some m => Some (toLowerCase (group m 1))
  | None => None
  end.

(** *** HTML fragments *)

Inductive token : Type :=
| TText (s : jsstring)
| TOpen (tag : jsstring)
| TClose (tag : jsstring).

Definition upper_unit (c : N) : N :=
  if ((97 <=? c) && (c <=? 122))%N then (c - 32)%N else c.

(** [intag] is [None] in text, and otherwise the units read since [<]. *)
Fixpoint tokens (s : jsstring) (intag : option jsstring) (acc : jsstring) : list token :=
  match s with
  | [] => match acc with [] => [] | _ => [TText (rev acc)] end
  | c :: r =>
      match intag with
      | None =>
          if (c =? 60)%N
          then match acc with
               | [] => tokens r (Some []) []
               | _ => TText (rev acc) :: tokens r (Some []) []
               end
          else tokens r None (c :: acc)
      | Some t =>
          if (c =? 62)%N
          then match rev t with
               | 47%N :: nm => TClose (map upper_unit nm) :: tokens r None []
               | nm => TOpen (map upper_unit nm) :: tokens r None []
               end
          else tokens r (Some (c :: t)) []
      end
  end.

Definition void_tag (t : jsstring) : bool :=
  existsb (str_eqb t) [u "BR"; u "HR"; u "IMG"; u "META"; u "INPUT"].

(** [open] holds the elements still open, innermost first, each with the
    children its parent had when it opened. *)
Fixpoint build (ts : list token) (open : list (jsstring * list Node))
         (cur : list Node) : list Node :=
  match ts with
  | [] =>
      fold_left (fun kids frame => snd frame ++ [Elem (fst frame) [] kids]) open cur
  | TText s :: r => build r open (cur ++ [Text s])
  | TOpen t :: r =>
      if void_tag t then build r open (cur ++ [Elem t [] []])
      else build r ((t, cur) :: open) []
  | TClose _ :: r =>
      match open with
      | (t, above) :: open' => build r open' (above ++ [Elem t [] cur])
      | [] => build r [] cur
      end
  end.

Definition parse_body (html : jsstring) : Node :=
  Elem (u "BODY") [] (build (tokens html None []) [] []).

(** *** JSON texts *)

Fixpoint skip_ws (s : jsstring) : jsstring :=
  match s with
  | c :: r => if ((c =? 32) || (c =? 10) || (c =? 13) || (c =? 9))%N then skip_ws r else s
  | [] => []
  end.

Fixpoint span_until (stop : N -> bool) (s : jsstring) : jsstring * jsstring :=
  match s with
  | c :: r => if stop c then ([], s)
              else let (a, b) := span_until stop r in (c :: a, b)
  | [] => ([], [])
  end.

Definition is_digit (c : N) : bool := ((48 <=? c) && (c <=? 57))%N.

Fixpoint parse_value (fuel : nat) (s : jsstring) : option (jsval * jsstring) :=
  match fuel with
  | O => None
  | S f =>
      match skip_ws s with
      | 34%N :: r =>
          match span_until (N.eqb 34) r with
          | (str, 34%N :: r') => Some (VStr str, r')
          | _ => None
          end
      | 123%N :: r =>
          match skip_ws r with
          | 125%N :: r' => Some (VObj [], r')
          | _ => option_map (fun p => (VObj (fst p), snd p)) (parse_members f r)
          end
      | 91%N :: r =>
          match skip_ws r with
          | 93%N :: r' => Some (VArr [], r')
          | _ => option_map (fun p => (VArr (fst p), snd p)) (parse_elements f r)
          end
      | c :: r =>
          if is_digit c then
            let (ds, r') := span_until (fun d => negb (is_digit d)) (c :: r) in
            Some (VNum (parseInt ds), r')
          else if startsWith (c :: r) (u "true") then Some (VBool true, skipn 4 (c :: r))
          else if startsWith (c :: r) (u "false") then Some (VBool false, skipn 5 (c :: r))
          else if startsWith (c :: r) (u "null") then Some (VNull, skipn 4 (c :: r))
          else None
      | [] => None
      end
  end
with parse_members (fuel : nat) (s : jsstring)
  : option (list (jsstring * jsval) * jsstring) :=
  match fuel with
  | O => None
  | S f =>
      match skip_ws s with
      | 34%N :: r =>
          match span_until (N.eqb 34) r with
          | (key, 34%N :: r1) =>
              match skip_ws r1 with
              | 58%N :: r2 =>
                  match parse_value f r2 with
                  | Some (v, r3) =>
                      match skip_ws r3 with
                      | 44%N :: r4 =>
                          option_map (fun p => ((key, v) :: fst p, snd p)) (parse_members f r4)
                      | 125%N :: r4 => Some ([(key, v)], r4)
                      | _ => None
                      end
                  | None => None
                  end
              | _ => None
              end
          | _ => None
          end
      | _ => None
      end
  end
with parse_elements (fuel : nat) (s : jsstring) : option (list jsval * jsstring) :=
  match fuel with
  | O => None
  | S f =>
      match parse_value f s with
      | Some (v, r) =>
          match skip_ws r with
          | 44%N :: r' => option_map (fun p => (v :: fst p, snd p)) (parse_elements f r')
          | 93%N :: r' => Some ([v], r')
          | _ => None
          end
      | None => None
      end
  end.

Definition parse_json (text : jsstring) : option jsval :=
  match parse_value (S (List.length text)) text with
  | Some (v, r) => match skip_ws r with [] => Some v | _ => None end
  | None => None
  end.

(** *** Numbers and dates *)

(** The integer part of a number. *)
Definition Z_of_number (x : float) : Z :=
  match Prim2SF x with
  | S754_finite s m e =>
      let v := if (0 <=? e)%Z then (Z.pos m * 2 ^ e)%Z else (Z.pos m / 2 ^ (- e))%Z in
      if s then (- v)%Z else v
  | _ => 0%Z
  end.

(** Integers print in decimal; no other number is printed in the examples. *)
Definition print_number (x : float) : jsstring :=
  let z := Z_of_number x in
  if (z <? 0)%Z then u "-" ++ decimal (Z.to_nat (- z)) else decimal (Z.to_nat z).

(** Days since the epoch to the civil date, and back. *)
Definition civil_from_days (days : Z) : Z * Z * Z :=
  let z := (days + 719468)%Z in
  let era := (z / 146097)%Z in
  let doe := (z - era * 146097)%Z in
  let yoe := ((doe - doe / 1460 + doe / 36524 - doe / 146096) / 365)%Z in
  let doy := (doe - (365 * yoe + yoe / 4 - yoe / 100))%Z in
  let mp := ((5 * doy + 2) / 153)%Z in
  let d := (doy - (153 * mp + 2) / 5 + 1)%Z in
  let m := (if mp <? 10 then mp + 3 else mp - 9)%Z in
  let y := (yoe + era * 400 + (if m <=? 2 then 1 else 0))%Z in
  (y, m, d).

Definition days_from_civil (y m d : Z) : Z :=
  let y := (if m <=? 2 then y - 1 else y)%Z in
  let era := (y / 400)%Z in
  let yoe := (y - era * 400)%Z in
  let doy := ((153 * (if 2 <? m then m - 3 else m + 9) + 2) / 5 + d - 1)%Z in
  let doe := (yoe * 365 + yoe / 4 - yoe / 100 + doy)%Z in
  (era * 146097 + doe - 719468)%Z.

Definition pad (width : nat) (z : Z) : jsstring :=
  let ds := decimal (Z.to_nat z) in
  repeat 48%N (width - List.length ds) ++ ds.

(** The year of an ISO date: four digits from 0 to 9999, a sign and six
    digits otherwise. *)
Definition iso_year (y : Z) : jsstring :=
  if ((0 <=? y) && (y <=? 9999))%Z then pad 4 y
  else (if (y <? 0)%Z then u "-" else u "+") ++ pad 6 (Z.abs y).

Definition toISOString (t : Date) : jsstring :=
  let '(y, m, d) := civil_from_days (t / 86400000) in
  let ms := (t mod 86400000)%Z in
  iso_year y ++ u "-" ++ pad 2 m ++ u "-" ++ pad 2 d ++ u "T"
    ++ pad 2 (ms / 3600000) ++ u ":" ++ pad 2 (ms / 60000 mod 60) ++ u ":"
    ++ pad 2 (ms / 1000 mod 60) ++ u "." ++ pad 3 (ms mod 1000) ++ u "Z".

(** [TimeClip]: the time values of [Date] lie within 8.64e15 milliseconds of
    the epoch. *)
Definition timeClip (t : Z) : option Date :=
  if (Z.abs t <=? 8640000000000000)%Z then Some t else None.

Definition finite (x : float) : bool :=
  match Prim2SF x with
  | S754_zero _ | S754_finite _ _ _ => true
  | _ => false
  end.

Definition hoursBack (t : Date) (n : float) : option Date :=
  if finite n then timeClip (t - Z_of_number n * 3600000) else None.

Definition daysBack (t : Date) (n : float) : option Date :=
  if finite n then timeClip (t - Z_of_number n * 86400000) else None.

Definition monthsBack (t : Date) (n : float) : option Date :=
  if finite n then
    let '(y, m, d) := civil_from_days (t / 86400000) in
    let months := (y * 12 + (m - 1) - Z_of_number n)%Z in
    let y' := (months / 12)%Z in
    let m' := (months mod 12 + 1)%Z in
    timeClip ((days_from_civil y' m' 1 + (d - 1)) * 86400000 + t mod 86400000)
  else None.

#[export] Instance platform : Platform := {
  URL_hostname := hostname;
  DOMParser_body := parse_body;
  JSON_parse := parse_json;
  Number_toString := print_number;
  Date_toISOString := toISOString;
  Date_hoursBack := hoursBack;
  Date_daysBack := daysBack;
  Date_monthsBack := monthsBack
}.

(** A page given by its title and, selector by selector, the elements
    matched; any other selector matches nothing. *)
Fixpoint lookup (table : list (jsstring * list Element)) (selector : jsstring) : list Element :=
  match table with
  | [] => []
  | (s, els) :: r => if str_eqb s selector then els else lookup r selector
  end.

Definition page (title : string) (table : list (jsstring * list Element)) : Document :=
  mkDocument (u title) (lookup table).

(** An element with the given text content and markup. *)
Definition element (text html : string) : Element := mkElement (u text) (u html) [].

(** A [meta] element with the given [content]. *)
Definition meta (content : string) : Element :=
  mkElement [] [] [(u "content", u content)].

(** A clock that stands still. *)
Definition still (t : Date) : Clock := fun _ => t.

End Reference.

(* ================================================================== *)
(** * The vocabulary of the properties *)

Import Reference.

(** [s] contains [p] as a substring. *)
Definition Contains (s p : jsstring) : Prop := exists a b, s = a ++ p ++ b.

(** [s] contains one of the strings of [ps]. *)
Definition ContainsAny (s : jsstring) (ps : list jsstring) : Prop :=
  exists p, In p ps /\ Contains s p.

(** The phrases of the three rules of the remote-type detector. *)
Definition remotePhrases : list jsstring :=
  [u "full remote"; u "100% remote"; u "télétravail complet"].

Definition hybridPhrases : list jsstring :=
  [u "hybrid"; u "hybride"; u "télétravail partiel"].

Definition onsitePhrases : list jsstring :=
  [u "on-site"; u "sur site"; u "présentiel"].

(** The text [parseSalary] matches its patterns against. *)
Definition normalized (text : jsstring) : jsstring :=
  replaceAll space [] (toLowerCase text).

(** The descendants of a node, in document order: what [querySelectorAll]
    ranges over. *)
Fixpoint descendants (node : Node) : list Node :=
  match node with
  | Elem _ _ childNodes => flat_map (fun c => c :: descendants c) childNodes
  | _ => []
  end.

Definition is_cell (node : Node) : bool := is_tag "td" node || is_tag "th" node.

(** The [body] of a parsed fragment, and an element without attributes. *)
Definition body_of (childNodes : list Node) : Node := Elem (u "BODY") [] childNodes.

Definition plain (tagName : string) (childNodes : list Node) : Node :=
  Elem (u tagName) [] childNodes.

(** The confidence is a number of the unit interval. *)
Definition in_unit_interval (x : float) : Prop :=
  PrimFloat.leb 0 x = true /\ PrimFloat.leb x 1 = true.

(** The invariant of an outcome: the confidence lies in [0, 1]; a success
    carries a record with a title and a description, and a positive
    confidence; a failure carries no record. *)
Definition well_formed (r : ExtractionResult) : Prop :=
  in_unit_interval (confidence r) /\
  (success r = true ->
   exists o, offer r = Some o /\ has (title o) = true /\ has (description o) = true /\
             PrimFloat.ltb 0 (confidence r) = true) /\
  (success r = false -> offer r = None).

(** What a strategy named [n] may answer: the canonical failure under its
    name, or a success under its name that carries a title and a
    description, with a confidence in (0, 1]. *)
Definition answer_of (n : jsstring) (r : ExtractionResult) : Prop :=
  r = createEmptyResult n \/
  exists o conf, r = createSuccessResult n o conf /\
                 has (title o) = true /\ has (description o) = true /\
                 in_unit_interval conf /\ PrimFloat.ltb 0 conf = true.

(** An offer without the two fields that are read off the clock. *)
Definition erase (o : JobOffer) : JobOffer :=
  mkJobOffer (sourceUrl o) (sourceDomain o) (title o) (company o) (location o)
    (remoteType o) (description o) (contractType o) (experience o) (salary o)
    (skills o) None [].

Definition timeless (r : ExtractionResult) : ExtractionResult :=
  mkResult (success r) (option_map erase (offer r)) (confidence r) (extractorUsed r)
    (errors r).

(** Two runs end the same way, up to the fields read off the clock. *)
Definition same_outcome (x y : completion ExtractionResult) : Prop :=
  match x, y with
  | Normal r1, Normal r2 => timeless r1 = timeless r2
  | Throw e1, Throw e2 => e1 = e2
  | _, _ => False
  end.

(** Two clocks that read the same times. *)
Definition agree (c1 c2 : Clock) : Prop := forall n, c1 n = c2 n.

(** Whether a run threw. *)
Definition thrown {A} (x : completion A * Clock) : bool :=
  match fst x with
  | Normal _ => false
  | Throw _ => true
  end.

(** What a run answered, when it did not throw. *)
Definition answered (x : completion ExtractionResult * Clock) : option ExtractionResult :=
  match fst x with
  | Normal r => Some r
  | Throw _ => None
  end.

Definition cmap {A B} (f : A -> B) (x : completion A) : completion B :=
  match x with
  | Normal a => Normal (f a)
  | Throw e => Throw e
  end.

(** The same offer, captured at another time. *)
Definition recapture (cap : jsstring) (o : JobOffer) : JobOffer :=
  mkJobOffer (sourceUrl o) (sourceDomain o) (title o) (company o) (location o)
    (remoteType o) (description o) (contractType o) (experience o) (salary o)
    (skills o) (publishedAt o) cap.

(** A step that neither reads nor writes [capturedAt]. *)
Definition oblivious (step : JobOffer -> JobOffer) : Prop :=
  forall cap o, step (recapture cap o) = recapture cap (step o).

(** The weights of the Generic confidence, field by field, in the words of
    the specification. *)
Definition substantial (description : option jsstring) : bool :=
  match description with
  | Some d => nonempty d && (200 <? len d)%nat
  | None => false
  end.

Definition weights (o : JobOffer) : list (bool * float) :=
  [ (has (title o), 0.25%float);
    (substantial (description o), 0.25%float);
    (has (company o), 0.15%float);
    (has (location o), 0.1%float);
    (is_some (salary o), 0.1%float);
    (has_items (skills o), 0.1%float);
    (has (contractType o), 0.05%float) ].

Definition weighted_sum (ws : list (bool * float)) : float :=
  fold_left (fun (acc : float) (w : bool * float) =>
               if fst w then PrimFloat.add acc (snd w) else acc) ws 0%float.


(** The selector of the JSON-LD scripts. *)
Definition ld_selector : jsstring := css "script[type='application/ld+json']".

Section Vocabulary.
Context {P : Platform}.
Import Registry Generic.




(** A value whose [@type] is the string "JobPosting". *)
Definition jobPosting (v : jsval) : bool :=
  match v with
  | VObj fields =>
      match own fields (u "@type") with
      | Some (VStr type) => str_eqb type (u "JobPosting")
      | _ => false
      end
  | _ => false
  end.












(** The three assignments of [extractMetaTags]. *)
Definition meta_title (doc : Document) (o : JobOffer) : JobOffer :=
  let ogTitle := metaContent doc (css "meta[property='og:title']") in
  let twitterTitle := metaContent doc (css "meta[name='twitter:title']") in
  if negb (has (title o)) && (has ogTitle || has twitterTitle)
  then set_title o (Some (cleanText_opt (coalesce ogTitle twitterTitle)))
  else o.

Definition meta_description (doc : Document) (o : JobOffer) : JobOffer :=
  let ogDesc := metaContent doc (css "meta[property='og:description']") in
  let twitterDesc := metaContent doc (css "meta[name='twitter:description']") in
  let metaDesc := metaContent doc (css "meta[name='description']") in
  if negb (has (description o)) && (has ogDesc || has twitterDesc || has metaDesc)
  then set_description o
         (Some (cleanText_opt (coalesce ogDesc (coalesce twitterDesc metaDesc))))
  else o.

Definition meta_company (doc : Document) (o : JobOffer) : JobOffer :=
  let ogSiteName := metaContent doc (css "meta[property='og:site_name']") in
  if negb (has (company o)) && has ogSiteName
  then set_company o (Some (cleanText_opt ogSiteName))
  else o.

(** Steps 3 to 5 of the Generic [extract], one assignment each. *)
Definition page_title (doc : Document) (o : JobOffer) : JobOffer :=
  if negb (has (title o)) then set_title o (extractTitle doc) else o.

Definition page_description (doc : Document) (o : JobOffer) : JobOffer :=
  if negb (has (description o)) then set_description o (extractDescription doc) else o.

Definition page_company (doc : Document) (o : JobOffer) : JobOffer :=
  if negb (has (company o)) then set_company o (extractCompany doc) else o.

Definition page_location (doc : Document) (o : JobOffer) : JobOffer :=
  if negb (has (location o)) then set_location o (extractLocation doc) else o.

Definition derive_skills (o : JobOffer) : JobOffer :=
  if has (description o) && negb (has_items (skills o))
  then set_skills o (Some (map VStr (extractSkillsFromText (or_empty (description o)))))
  else o.

Definition derive_remoteType (o : JobOffer) : JobOffer :=
  let fullText := or_empty (title o) ++ u " " ++ or_empty (description o) in
  match remoteType o with
  | None | Some unknown => set_remoteType o (Some (detectRemoteType fullText))
  | _ => o
  end.

(** Steps 2 to 5 of the Generic [extract]: what the page adds to the offer. *)
Definition fillFromPage (o : JobOffer) (doc : Document) : JobOffer :=
  derive_remoteType
    (derive_skills
       (page_location doc
          (page_company doc
             (page_description doc
                (page_title doc (extractMetaTags o doc)))))).

(** The end of the Generic [extract]: the confidence and the outcome. *)
Definition conclude (structured : bool) (o : JobOffer) : ExtractionResult :=
  let confidence := if structured then 0.9%float else calculateConfidence o in
  if negb (has (title o)) || negb (has (description o))
  then createEmptyResult name
  else createSuccessResult name o confidence.

(** The offer the Generic [extract] starts from. *)
Definition blank (url cap : jsstring) : JobOffer :=
  {| sourceUrl := url;
     sourceDomain := getDomain url;
     title := None; company := None; location := None; remoteType := None;
     description := None; contractType := None; experience := None;
     salary := None; skills := None; publishedAt := None;
     capturedAt := cap |}.

(** Step 1 of the Generic [extract]: the offer after the structured data,
    if any. *)
Definition structured (o : JobOffer) (doc : Document) : completion JobOffer :=
  match extractJsonLd doc with
  | Some data => applyJsonLdData o data
  | None => Normal o
  end.

End Vocabulary.

Section Runs.
Variable url : jsstring.
Variable doc : Document.

(** The extractors of a list were tried in order, from clock [c] on, and
    none surfaced a result: each either cannot handle the page, or threw,
    or answered without a success; the clock is [c'] afterwards. *)
Inductive Declined : list Extractor -> Clock -> Clock -> Prop :=
| declined_nil c : Declined [] c c
| declined_cannot e l c c' :
    canHandle e url doc = false ->
    Declined l c c' -> Declined (e :: l) c c'
| declined_throws e l c x c1 c' :
    canHandle e url doc = true ->
    extract e url doc c = (Throw x, c1) ->
    Declined l c1 c' -> Declined (e :: l) c c'
| declined_fails e l c r c1 c' :
    canHandle e url doc = true ->
    extract e url doc c = (Normal r, c1) ->
    success r && is_some (offer r) = false ->
    Declined l c1 c' -> Declined (e :: l) c c'.

(** How a run over [l] from clock [c] ends with [r]: an extractor of the
    list that can handle the page answered [r], a success, after those
    before it were declined; or all were declined and [r] is the canonical
    failure under the name "none". *)
Definition Surfaced (l : list Extractor) (c : Clock) (r : ExtractionResult) : Prop :=
  (exists pre e post c1 c',
     l = pre ++ e :: post /\ Declined pre c c1 /\
     canHandle e url doc = true /\ extract e url doc c1 = (Normal r, c') /\
     success r = true /\ offer r <> None) \/
  (exists c', Declined l c c' /\ r = createEmptyResult (u "none")).

(** An extractor that answers under its own name, with a well-formed
    outcome. *)
Definition answers_well (e : Extractor) : Prop :=
  forall c r c', extract e url doc c = (Normal r, c') -> answer_of (name e) r.


(** An extractor in which the clock decides nothing but the two dates, and
    which reads nothing of the clock but its times. *)
Definition clock_free (e : Extractor) : Prop :=
  forall c1 c2, same_outcome (fst (extract e url doc c1)) (fst (extract e url doc c2)).

Definition clock_reader (e : Extractor) : Prop :=
  forall c1 c2, agree c1 c2 ->
    fst (extract e url doc c1) = fst (extract e url doc c2) /\
    agree (snd (extract e url doc c1)) (snd (extract e url doc c2)).

End Runs.

(** *** Pages for the examples *)

(** A JSON-LD script with the given text, quotes written as apostrophes. *)
Definition ld_script (json : string) : Element := mkElement (css json) [] [].

(** A page of an unknown site with one title keyword: reached by a URL with
    one URL keyword it scores 3, by a URL without keyword 2. *)
Definition engineer_page : Document := page "Engineer wanted" [].



(** A page whose JobPosting has a title and no description. *)
Definition posting_page : Document :=
  page "Engineer wanted"
    [(ld_selector, [ld_script "{'@type': 'JobPosting', 'title': 'Engineer'}"])].

(** A page whose JobPosting has a number for a title. *)
Definition odd_page : Document :=
  page "Acme"
    [(ld_selector, [ld_script "{'@type': 'JobPosting', 'title': 5}"])].

(** A page with nothing but an OpenGraph title and description: only the
    Generic strategy finds an offer there. *)
Definition meta_page : Document :=
  page "Acme"
    [ (css "meta[property='og:title']", [meta "Senior Rust developer"]);
      (css "meta[property='og:description']", [meta "Build things"]) ].

(** A LinkedIn posting with a heading, a description of some length and a
    relative posting date. *)
Definition linkedin_page : Document :=
  page "Backend engineer | LinkedIn"
    [ (css "h1", [element "Backend engineer" "Backend engineer"]);
      (css ".description__text",
       [element
          "We are looking for a backend engineer to build and run the services of our platform, in a team of five people."
          "<p>We are looking for a backend engineer to build and run the services of our platform, in a team of five people.</p>"]);
      (css ".posted-time-ago__text", [element "1 hour ago" "1 hour ago"]) ].

(** A page whose JSON-LD JobPosting has a title and a description. *)
Definition ld_page : Document :=
  page "Acme"
    [(ld_selector,
      [ld_script "{'@type': 'JobPosting', 'title': 'Engineer', 'description': '<p>Build things</p>'}"])].

(** Induction on a node, with the property at hand for every child. *)
Section NodeInduction.
Variable Q : Node -> Prop.
Hypothesis Q_text : forall data, Q (Text data).
Hypothesis Q_other : Q Other.
Hypothesis Q_elem :
  forall tagName attrs childNodes, Forall Q childNodes -> Q (Elem tagName attrs childNodes).

Fixpoint Node_induction (node : Node) : Q node :=
  match node with
  | Text data => Q_text data
  | Other => Q_other
  | Elem tagName attrs childNodes =>
      Q_elem tagName attrs
        ((fix all (l : list Node) : Forall Q l :=
            match l with
            | [] => Forall_nil Q
            | c :: r => Forall_cons c (Node_induction c) (all r)
            end) childNodes)
  end.
End NodeInduction.

Fixpoint past (f : N -> bool) (bef : option N) (s : jsstring) (cs : list jsstring) : pos :=
  match s with
  | c :: s' => if f c then past f (Some c) s' cs else mkpos bef s cs
  | [] => mkpos bef s cs
  end.

Fixpoint collapse (f : N -> bool) (by_ : jsstring) (inrun : bool) (s : jsstring) : jsstring :=
  match s with
  | [] => []
  | c :: s' =>
      if f c then (if inrun then [] else by_) ++ collapse f by_ true s'
      else c :: collapse f by_ false s'
  end.

Fixpoint dropWhile (f : N -> bool) (s : jsstring) : jsstring :=
  match s with
  | c :: s' => if f c then dropWhile f s' else s
  | [] => []
  end.

(** Whether [s] starts with a unit of the class. *)
Definition starts_in (f : N -> bool) (s : jsstring) : bool :=
  match s with
  | c :: _ => f c
  | [] => false
  end.

Definition starts_with_space (s : jsstring) : bool := starts_in is_space s.

(** Every unit of [s] that is of the class is a [b] that no unit of the
    class follows. *)
Fixpoint isolated (f : N -> bool) (b : N) (s : jsstring) : bool :=
  match s with
  | [] => true
  | c :: s' =>
      (if f c then (c =? b)%N && negb (starts_in f s') else true) && isolated f b s'
  end.

(** Every white-space unit of [s] is a U+0020 that no white space follows. *)
Definition single_spaced (s : jsstring) : bool := isolated is_space 32 s.

Definition visible (s : jsstring) : jsstring := filter (fun c => negb (is_space c)) s.

Definition ends_with_space (s : jsstring) : bool := starts_with_space (rev s).

Definition decimal_digit (c : N) : bool := ((48 <=? c) && (c <=? 57))%N.

Fixpoint distinct (l : list jsstring) : bool :=
  match l with
  | [] => true
  | x :: r => negb (existsb (str_eqb x) r) && distinct r
  end.

Definition currencies : list jsstring := [u "EUR"; u "USD"; u "GBP"; u "CHF"].

(** The labels [normalizeContractType] writes. *)
Definition contractLabels : list jsstring :=
  [u "CDI"; u "CDD"; u "Stage"; u "Freelance"; u "Temps partiel"; u "Alternance"].

(** [a] may stand before [b] in the order of the registry. *)
Definition before_or_tied (a b : Extractor) : Prop := (priority b <= priority a)%Z.

Definition of_priority (p : Z) (e : Extractor) : bool := (priority e =? p)%Z.

(** A value whose [@type] is the string "JobPosting". *)
Definition is_posting (v : jsval) : Prop :=
  get v (u "@type") = Normal (VStr (u "JobPosting")).

(** A page whose JobPosting and whose OpenGraph tags both give a title. *)
Definition ld_meta_page : Document :=
  page "Acme"
    [ (ld_selector,
       [ld_script "{'@type': 'JobPosting', 'title': 'Engineer', 'description': '<p>Build things</p>'}"]);
      (css "meta[property='og:title']", [meta "Senior Rust developer"]) ].

(** The three strategies written for one site each. *)
Definition siteExtractors {P : Platform} : list Extractor :=
  [ LinkedIn.linkedInExtractor; Indeed.indeedExtractor;
    WelcomeToTheJungle.welcomeToTheJungleExtractor ].

(** An Indeed page with a heading and a description of some length. *)
Definition indeed_page : Document :=
  page "Indeed"
    [ (css "h1", [element "Backend engineer" "Backend engineer"]);
      (css "#jobDescriptionText",
       [element EmptyString
          "<p>We are looking for a backend engineer to build and run the services of our platform, in a team of five people.</p>"]) ].

(** Where and when an offer was captured. *)
Definition origin (o : JobOffer) : jsstring * jsstring * jsstring :=
  (sourceUrl o, sourceDomain o, capturedAt o).

(** The domains a record may name for the URL it was read from: the domain of
    the URL, or the domain a site strategy writes. *)
Definition domains_written {P : Platform} (url : jsstring) : list jsstring :=
  [getDomain url; u "linkedin.com"; u "welcometothejungle.com"].

(** The captured offers an area keeps. *)
Definition offers_of (w : Storage.Area) : list JobOffer :=
  match Storage.captured_offers (Storage.items w) with
  | Some l => l
  | None => []
  end.

(** Whether an offer of the list has the URL. *)
Definition known (url : jsstring) (l : list JobOffer) : bool :=
  existsb (fun o => str_eqb (sourceUrl o) url) l.

(** What [addCapturedOffer] writes, given what it read. *)
Definition updated_with (offer : JobOffer) (offers : list JobOffer) : list JobOffer :=
  if known (sourceUrl offer) offers
  then map (fun o => if str_eqb (sourceUrl o) (sourceUrl offer) then offer else o) offers
  else firstn 100 (offer :: offers).

(** What a function of the module reads from the area: nothing when the
    browser rejects the call. *)
Definition offers_read (w : Storage.Area) : list JobOffer :=
  match Storage.rejections w with
  | true :: _ => []
  | _ => offers_of w
  end.

(** The browser rejects no call. *)
Definition undisturbed (w : Storage.Area) : Prop := Storage.rejections w = [].

(** An offer with a URL and a title, and an area that keeps a list of
    offers, for the examples. *)
Definition offer_at (url title : string) : JobOffer :=
  {| sourceUrl := u url; sourceDomain := [];
     title := Some (u title); company := None; location := None; remoteType := None;
     description := None; contractType := None; experience := None;
     salary := None; skills := None; publishedAt := None;
     capturedAt := [] |}.

Definition area_with (l : list JobOffer) (rejections : list bool) : Storage.Area :=
  Storage.mkArea (Storage.mkItems None None None (Some l)) rejections (still 0%Z).

(** A validator to run the examples on: an object whose three fields have
    the types of the schema. *)
#[export] Instance plain_schemas : Schemas := {
  AuthTokensSchema_safeParse v :=
    match v with
    | VObj fields =>
        match own fields (u "accessToken"), own fields (u "refreshToken"),
              own fields (u "expiresAt") with
        | Some (VStr a), Some (VStr r), Some (VNum e) => Some (mkAuthTokens a r e)
        | _, _, _ => None
        end
    | _ => None
    end
}.

(** An area that keeps a value as tokens, a user and one captured offer. *)
Definition area_of_tokens (tokens : jsval) (rejections : list bool) : Storage.Area :=
  Storage.mkArea
    (Storage.mkItems (Some tokens) (Some (VObj [(u "id", VNum 1)])) None
       (Some [offer_at "https://a.example/1" "Engineer"]))
    rejections (still 0%Z).

(** The number of units of the class [s] starts with. *)
Fixpoint lead (f : N -> bool) (s : jsstring) : nat :=
  match s with
  | c :: s' => if f c then S (lead f s') else 0
  | [] => 0
  end.

Definition line_feed (c : N) : bool := (10 =? c)%N.

(** At most two line feeds in a row in [s], [run] of them standing just
    before it. *)
Fixpoint spaced_lines (run : nat) (s : jsstring) : bool :=
  match s with
  | [] => true
  | c :: s' =>
      if line_feed c then (run <? 2)%nat && spaced_lines (S run) s'
      else spaced_lines 0 s'
  end.

Definition blank_or_tab (c : N) : bool := existsb (N.eqb c) [32; 9]%N.


(* ================================================================== *)
(** * Properties *)

(* ------------------------------------------------------------------ *)
(** ** The embedding at work *)

Example cleanText_collapses_whitespace :
  cleanText (u "  Senior   developer" ++ nl ++ u "  (H/F) ") = u "Senior developer (H/F)".
Proof. reflexivity. Qed.

Example range_pattern_groups :
  option_map groups (exec range_pattern (u "de45kà55k€")) = Some [u "45"; u "55"].
Proof. reflexivity. Qed.

Example title_separator_splits :
  split_head Generic.title_separator (u "Rust developer | Acme") = u "Rust developer".
Proof. reflexivity. Qed.

Example new_badge_is_removed :
  replaceFirst Indeed.new_badge [] (u "Nouveau Data engineer") = u "Data engineer".
Proof. reflexivity. Qed.

Example processNode_nested_list :
  processNode
    (plain "OL" [plain "LI" [Text (u "a"); plain "UL" [plain "LI" [Text (u "b")]]];
                 plain "LI" [Text (u "c")]])
  = nl ++ u "1. a" ++ nl ++ u "  - b" ++ nl ++ u "2. c" ++ nl.
Proof. reflexivity. Qed.

Example cleanMarkdown_table_and_bullet :
  cleanMarkdown
    (processNode
       (body_of [plain "TABLE" [plain "TR" [plain "TH" [Text (u "a|b")]; plain "TH" [Text (u "c")]];
                                plain "TR" [plain "TD" [plain "B" [Text (u " x ")]]]];
                 plain "P" [Text (u "• item  ")]]))
  = u "| a\|b | c |" ++ nl ++ u "| --- | --- |" ++ nl ++ u "|**x**|" ++ nl ++ u "- item".
Proof. reflexivity. Qed.

Example parseSalary_range_with_period :
  parseSalary (u "45 000 - 55 000 € / mois")
  = Some (mkSalary (VNum 45000) (VNum 55000) (VStr (u "EUR")) month).
Proof. reflexivity. Qed.

(** A JobPosting whose title is a number makes the Generic strategy throw
    (a number has no [replace] method); the registry catches the exception
    and, no extractor being left, answers the canonical failure. *)
Example Generic_throws_on_odd_page :
  fst (Generic.extract (u "https://example.org/team") odd_page (still 0%Z)) = Throw TypeError /\
  fst (Registry.extractJobOffer (u "https://example.org/team") odd_page (still 0%Z))
  = createEmptyResult (u "none").
Proof. split; reflexivity. Qed.

(* ------------------------------------------------------------------ *)
(** ** Strings *)

Lemma str_eqb_eq a b : str_eqb a b = true <-> a = b.
Proof. unfold str_eqb. destruct (list_eq_dec N.eq_dec a b); split; congruence. Qed.

Lemma str_eqb_refl a : str_eqb a a = true.
Proof. now apply str_eqb_eq. Qed.

Lemma startsWith_prefix s p : startsWith s p = true <-> exists b, s = p ++ b.
Proof.
  revert s. induction p as [|a p IH]; intros s.
  - split; [intros _; now exists s | now destruct s].
  - destruct s as [|c s].
    + split; [discriminate | intros [b Hb]; discriminate].
    + change (startsWith (c :: s) (a :: p)) with ((a =? c)%N && startsWith s p).
      rewrite andb_true_iff, N.eqb_eq, IH. split.
      * intros [-> [b ->]]. now exists b.
      * intros [b Hb]. injection Hb as -> ->. split; [reflexivity | now exists b].
Qed.

Lemma includes_nil p : includes [] p = startsWith [] p.
Proof. now destruct p. Qed.

Lemma includes_cons c s p :
  includes (c :: s) p = startsWith (c :: s) p || includes s p.
Proof. reflexivity. Qed.

Lemma includes_Contains s p : includes s p = true <-> Contains s p.
Proof.
  induction s as [|c s IH].
  - rewrite includes_nil, startsWith_prefix. split.
    + intros [b Hb]. now exists [], b.
    + intros [a [b Hab]]. destruct a; [now exists b | discriminate].
  - rewrite includes_cons, orb_true_iff, startsWith_prefix, IH. split.
    + intros [[b Hb] | [a [b Hab]]].
      * now exists [], b.
      * exists (c :: a), b. now rewrite Hab.
    + intros [a [b Hab]]. destruct a as [|x a].
      * left. now exists b.
      * right. injection Hab as -> ->. now exists a, b.
Qed.

Lemma includes_false s p : includes s p = false <-> ~ Contains s p.
Proof.
  rewrite <- includes_Contains. destruct (includes s p); split; intros; congruence.
Qed.

(** A pattern that lower-casing leaves alone is found in the lower-cased
    text whenever it occurs in the text. *)
Lemma Contains_toLowerCase s p :
  toLowerCase p = p -> Contains s p -> Contains (toLowerCase s) p.
Proof.
  intros Hp [a [b ->]]. exists (toLowerCase a), (toLowerCase b).
  unfold toLowerCase in *. now rewrite !flat_map_app, Hp.
Qed.

Lemma existsb_includes s ps :
  existsb (fun p => includes s p) ps = true <-> ContainsAny s ps.
Proof.
  rewrite existsb_exists. unfold ContainsAny.
  split; intros [p [Hin H]]; exists p; split; auto; now apply includes_Contains.
Qed.

Lemma existsb_includes_false s ps :
  existsb (fun p => includes s p) ps = false <-> ~ ContainsAny s ps.
Proof.
  rewrite <- existsb_includes.
  destruct (existsb (fun p => includes s p) ps); split; intros; congruence.
Qed.

Lemma existsb_const {A} (b : bool) (l : list A) :
  l <> [] -> existsb (fun _ => b) l = b.
Proof.
  destruct l as [|x l]; [congruence|]. intros _. simpl.
  destruct b; [reflexivity|]. induction l; simpl; auto.
Qed.

Lemma existsb_str_eqb_In (x : jsstring) (l : list jsstring) :
  existsb (str_eqb x) l = true <-> In x l.
Proof.
  rewrite existsb_exists. split.
  - intros [y [Hin Hy]]. apply str_eqb_eq in Hy. now subst.
  - intros Hin. exists x. split; [exact Hin | apply str_eqb_refl].
Qed.

Lemma existsb_ext_in {A} (f g : A -> bool) (l : list A) :
  (forall x, In x l -> f x = g x) -> existsb f l = existsb g l.
Proof.
  induction l as [|x l IH]; intros H; [reflexivity|].
  simpl. rewrite (H x) by now left. rewrite IH; [reflexivity|].
  intros y Hy. apply H. now right.
Qed.

Lemma existsb_false_forall {A} (f : A -> bool) (l : list A) :
  existsb f l = false <-> forall x, In x l -> f x = false.
Proof.
  induction l as [|x l IH]; simpl.
  - split; [intros _ y [] | reflexivity].
  - rewrite orb_false_iff, IH. split.
    + intros [Hx Hl] y [<- | Hy]; auto.
    + intros H. split; [apply H; now left | intros y Hy; apply H; now right].
Qed.

Lemma not_ContainsAny_by_computation s ps :
  existsb (fun p => includes s p) ps = false -> ~ ContainsAny s ps.
Proof. apply existsb_includes_false. Qed.

Lemma ContainsAny_by_computation s ps :
  existsb (fun p => includes s p) ps = true -> ContainsAny s ps.
Proof. apply existsb_includes. Qed.

Lemma filter_flat_map {A B} (p : B -> bool) (f : A -> list B) (l : list A) :
  filter p (flat_map f l) = flat_map (fun x => filter p (f x)) l.
Proof.
  induction l as [|x l IH]; [reflexivity|]. cbn [flat_map]. now rewrite filter_app, IH.
Qed.

Lemma map_flat_map {A B C} (g : B -> C) (f : A -> list B) (l : list A) :
  map g (flat_map f l) = flat_map (fun x => map g (f x)) l.
Proof.
  induction l as [|x l IH]; [reflexivity|]. cbn [flat_map]. now rewrite map_app, IH.
Qed.

Lemma Forall_middle {A} (Q : A -> Prop) pre x post :
  Forall Q (pre ++ x :: post) -> Q x.
Proof. intros H. apply Forall_app in H. destruct H as [_ H]. now inversion H. Qed.

(* ------------------------------------------------------------------ *)
(** ** Remote-type detection (C7) *)

Lemma detectRemoteType_cascade text :
  detectRemoteType text =
  let lower := toLowerCase text in
  if existsb (fun p => includes lower p) remotePhrases then remote
  else if existsb (fun p => includes lower p) hybridPhrases then hybrid
  else if existsb (fun p => includes lower p) onsitePhrases then onsite
  else unknown.
Proof.
  unfold detectRemoteType, remotePhrases, hybridPhrases, onsitePhrases.
  cbn [existsb]. now rewrite !orb_false_r, !orb_assoc.
Qed.

(** C7, as the code has it: the text "100% télétravail" contains none of the
    phrases of the detector, so it is classified [unknown], not [remote]. *)
Lemma detectRemoteType_cent_pour_cent_teletravail :
  detectRemoteType (u "100% télétravail") = unknown /\ unknown <> remote.
Proof. split; [reflexivity | discriminate]. Qed.

(** C7 (amended): [detectRemoteType] lower-cases its input and applies three
    rules in order, the first that matches deciding: a remote phrase gives
    [remote]; otherwise a hybrid phrase gives [hybrid]; otherwise an on-site
    phrase gives [onsite]; otherwise [unknown]. A phrase that occurs in the
    input itself occurs in the lower-cased input. In particular "sur site" is
    [onsite], and "100% télétravail" is [unknown]. *)
Theorem detectRemoteType_rules (text : jsstring) :
  let lower := toLowerCase text in
  (ContainsAny lower remotePhrases -> detectRemoteType text = remote) /\
  (~ ContainsAny lower remotePhrases -> ContainsAny lower hybridPhrases ->
   detectRemoteType text = hybrid) /\
  (~ ContainsAny lower remotePhrases -> ~ ContainsAny lower hybridPhrases ->
   ContainsAny lower onsitePhrases -> detectRemoteType text = onsite) /\
  (~ ContainsAny lower remotePhrases -> ~ ContainsAny lower hybridPhrases ->
   ~ ContainsAny lower onsitePhrases -> detectRemoteType text = unknown) /\
  (forall ps, In ps [remotePhrases; hybridPhrases; onsitePhrases] ->
     ContainsAny text ps -> ContainsAny lower ps) /\
  detectRemoteType (u "sur site") = onsite /\
  detectRemoteType (u "100% télétravail") = unknown.
Proof.
  intros lower. rewrite detectRemoteType_cascade. fold lower. cbv zeta.
  repeat split.
  - intros H. apply existsb_includes in H. now rewrite H.
  - intros Hr Hh. apply existsb_includes_false in Hr. apply existsb_includes in Hh.
    now rewrite Hr, Hh.
  - intros Hr Hh Ho. apply existsb_includes_false in Hr, Hh. apply existsb_includes in Ho.
    now rewrite Hr, Hh, Ho.
  - intros Hr Hh Ho. apply existsb_includes_false in Hr, Hh, Ho. now rewrite Hr, Hh, Ho.
  - intros ps Hps [p [Hin Hc]]. exists p. split; [exact Hin|].
    apply Contains_toLowerCase; [|exact Hc].
    simpl in Hps. destruct Hps as [<- | [<- | [<- | []]]];
      simpl in Hin; repeat (destruct Hin as [<- | Hin]; [reflexivity|]); destruct Hin.
Qed.

(* ------------------------------------------------------------------ *)
(** ** Salary parsing (C6) *)

(** C6: on the range example the code answers as the claim says, and a text
    that matches neither pattern gives the absent result; but on a single
    value the period is not read from the text: whatever the suffix,
    the single-value branch answers [year], so "3000€/mois" is a yearly
    salary. *)
Theorem parseSalary_single_value_period :
  parseSalary (u "45k-55k€")
  = Some (mkSalary (VNum 45000) (VNum 55000) (VStr (u "EUR")) year) /\
  parseSalary (u "3000€/mois")
  = Some (mkSalary (VNum 3000) (VNum 3000) (VStr (u "EUR")) year) /\
  (forall text s,
     exec range_pattern (normalized text) = None ->
     parseSalary text = Some s -> period s = year /\ min s = max s) /\
  (forall text,
     exec range_pattern (normalized text) = None ->
     exec single_pattern (normalized text) = None ->
     parseSalary text = None).
Proof.
  split; [reflexivity|]. split; [reflexivity|]. split.
  - intros text s Hr. unfold parseSalary. fold (normalized text). rewrite Hr.
    destruct (nonempty text); [|discriminate]. cbn [negb].
    destruct (exec single_pattern (normalized text)); [|discriminate].
    intros H. injection H as <-. now split.
  - intros text Hr Hs. unfold parseSalary. fold (normalized text). rewrite Hr, Hs.
    now destruct (nonempty text).
Qed.

(* ------------------------------------------------------------------ *)
(** ** The Markdown renderer (C5) *)

(** What the pass collects below an element is what it collects in each
    child, in order. *)
Lemma collected_below {X} (field : Rendered -> list X) (found : Node -> list X) childNodes :
  Forall (fun c => field (render c) = found c) childNodes ->
  List.concat (map (fun k => field (snd k)) (map (fun c => (c, render c)) childNodes))
  = flat_map found childNodes.
Proof.
  induction 1 as [|c r Hc _ IH]; [reflexivity|].
  cbn [map List.concat snd flat_map]. now rewrite Hc, IH.
Qed.

Lemma cellsIn_descendants node :
  cellsIn (render node) = map processNode (filter is_cell (node :: descendants node)).
Proof.
  induction node as [data | | tagName attrs childNodes IH] using Node_induction;
    [reflexivity | reflexivity |].
  cbn [render cellsIn descendants filter]. rewrite (collected_below _ _ IH).
  change (is_cell (Elem tagName attrs childNodes))
    with (str_eqb (toLowerCase tagName) (u "td") || str_eqb (toLowerCase tagName) (u "th")).
  destruct (str_eqb (toLowerCase tagName) (u "td") || str_eqb (toLowerCase tagName) (u "th"));
    cbn [map]; rewrite filter_flat_map, map_flat_map; reflexivity.
Qed.

Lemma rowsIn_descendants node :
  rowsIn (render node)
  = map (fun row => map processNode (filter is_cell (descendants row)))
        (filter (is_tag "tr") (node :: descendants node)).
Proof.
  induction node as [data | | tagName attrs childNodes IH] using Node_induction;
    [reflexivity | reflexivity |].
  cbn [render rowsIn descendants filter]. rewrite (collected_below _ _ IH).
  rewrite (collected_below cellsIn
             (fun c => map processNode (filter is_cell (c :: descendants c))))
    by (apply Forall_forall; intros c _; apply cellsIn_descendants).
  change (is_tag "tr" (Elem tagName attrs childNodes))
    with (str_eqb (toLowerCase tagName) (u "tr")).
  destruct (str_eqb (toLowerCase tagName) (u "tr"));
    cbn [map descendants]; rewrite !filter_flat_map, !map_flat_map; reflexivity.
Qed.

(** [processNode] on an element, in the shape of the source: the [switch] on
    the rendered children, on the [:scope > li] children processed, and on
    the rows [querySelectorAll('tr')] finds below the element, each with the
    cells [querySelectorAll('td, th')] finds below the row, processed. *)
Lemma processNode_Elem tagName attrs childNodes :
  processNode (Elem tagName attrs childNodes)
  = wrap (toLowerCase tagName) attrs
      (List.concat (map processNode childNodes))
      (map processNode (filter (is_tag "li") childNodes))
      (map (fun row => map processNode (filter is_cell (descendants row)))
           (filter (is_tag "tr") (descendants (Elem tagName attrs childNodes)))).
Proof.
  unfold processNode at 1. cbn [render md]. f_equal.
  - now rewrite map_map.
  - induction childNodes as [|c r IH]; [reflexivity|].
    cbn [map filter fst]. destruct (is_tag "li" c); cbn [map snd]; now rewrite IH.
  - cbn [descendants]. rewrite filter_flat_map, map_flat_map.
    apply collected_below. apply Forall_forall. intros c _. apply rowsIn_descendants.
Qed.

(** C5: the three reference equations of the renderer. On a platform whose
    parser reads the three fragments as the trees they write, [htmlToMarkdown]
    gives "# Title" for the heading, "- a" and "- b" on two lines for the
    list, and "**x**" for the strong text. *)
Theorem htmlToMarkdown_reference_equations {P : Platform} :
  (DOMParser_body (u "<h1>Title</h1>") = body_of [plain "H1" [Text (u "Title")]] ->
   htmlToMarkdown (u "<h1>Title</h1>") = u "# Title") /\
  (DOMParser_body (u "<ul><li>a</li><li>b</li></ul>")
   = body_of [plain "UL" [plain "LI" [Text (u "a")]; plain "LI" [Text (u "b")]]] ->
   htmlToMarkdown (u "<ul><li>a</li><li>b</li></ul>") = u "- a" ++ nl ++ u "- b") /\
  (DOMParser_body (u "<strong>x</strong>") = body_of [plain "STRONG" [Text (u "x")]] ->
   htmlToMarkdown (u "<strong>x</strong>") = u "**x**").
Proof.
  unfold htmlToMarkdown.
  repeat split; intros H; cbn [nonempty u negb]; rewrite H; vm_compute; reflexivity.
Qed.

(** The parser of the reference platform reads the three fragments so. *)
Lemma htmlToMarkdown_reference_equations_witness :
  @htmlToMarkdown platform (u "<h1>Title</h1>") = u "# Title" /\
  @htmlToMarkdown platform (u "<ul><li>a</li><li>b</li></ul>") = u "- a" ++ nl ++ u "- b" /\
  @htmlToMarkdown platform (u "<strong>x</strong>") = u "**x**".
Proof.
  pose proof (@htmlToMarkdown_reference_equations platform) as [H1 [H2 H3]].
  split; [apply H1; reflexivity|]. split; [apply H2; reflexivity | apply H3; reflexivity].
Defined.

(* ------------------------------------------------------------------ *)
(** ** Which URLs a site strategy accepts (C8) *)

(** C8, as the code has it: the Indeed strategy accepts the host
    [fr.indeed.com], which is not in its list of domains. *)
Lemma Indeed_canHandle_outside_domains :
  @Indeed.canHandle platform (u "https://fr.indeed.com/viewjob?jk=1") = true /\
  @getDomain platform (u "https://fr.indeed.com/viewjob?jk=1") = u "fr.indeed.com" /\
  ~ In (u "fr.indeed.com") Indeed.domains.
Proof.
  split; [reflexivity|]. split; [reflexivity|].
  unfold Indeed.domains. simpl. intros [H | [H | [H | [H | []]]]]; discriminate.
Qed.

(** C8 (amended): the LinkedIn strategy accepts a URL exactly when its domain
    is in the strategy's list and the URL contains "/jobs/"; the Indeed and
    Welcome to the Jungle strategies accept a URL exactly when its domain
    contains "indeed", respectively "welcometothejungle", which holds of every
    domain of their lists and of other domains too. *)
Theorem canHandle_site_strategies {P : Platform} (url : jsstring) :
  (LinkedIn.canHandle url = true <->
   In (getDomain url) LinkedIn.domains /\ Contains url (u "/jobs/")) /\
  (Indeed.canHandle url = true <-> Contains (getDomain url) (u "indeed")) /\
  (WelcomeToTheJungle.canHandle url = true <->
   Contains (getDomain url) (u "welcometothejungle")) /\
  (In (getDomain url) Indeed.domains -> Indeed.canHandle url = true) /\
  (In (getDomain url) WelcomeToTheJungle.domains ->
   WelcomeToTheJungle.canHandle url = true).
Proof.
  unfold LinkedIn.canHandle, Indeed.canHandle, WelcomeToTheJungle.canHandle.
  cbv zeta.
  rewrite (existsb_const (includes (getDomain url) (u "indeed")))
    by (unfold Indeed.domains; discriminate).
  rewrite (existsb_const (includes (getDomain url) (u "welcometothejungle")))
    by (unfold WelcomeToTheJungle.domains; discriminate).
  split; [|split; [|split; [|split]]].
  - now rewrite andb_true_iff, existsb_str_eqb_In, includes_Contains.
  - apply includes_Contains.
  - apply includes_Contains.
  - generalize (getDomain url). intros d Hin. unfold Indeed.domains in Hin. simpl in Hin.
    destruct Hin as [<- | [<- | [<- | [<- | []]]]]; reflexivity.
  - generalize (getDomain url). intros d Hin.
    unfold WelcomeToTheJungle.domains in Hin. simpl in Hin.
    destruct Hin as [<- | [<- | []]]; reflexivity.
Qed.

(* ------------------------------------------------------------------ *)
(** ** The page classifier (C3, C10) *)

Section Classifier.
Context {P : Platform}.
Import Registry.

Lemma isKnownJobSite_spec url :
  isKnownJobSite url = true <-> ContainsAny (getDomain url) jobSiteDomains.
Proof.
  unfold isKnownJobSite. cbv zeta.
  rewrite (existsb_ext_in _ (fun d => includes (getDomain url) d)).
  - apply existsb_includes.
  - intros d Hd. f_equal. revert d Hd. apply Forall_forall.
    unfold jobSiteDomains. cbn [map]. repeat constructor.
Qed.

Lemma hasJobPath_spec url :
  hasJobPath url = true <-> ContainsAny (toLowerCase url) pathIndicators.
Proof. apply existsb_includes. Qed.


Lemma structuredData_fold scripts acc :
  fold_left (fun score script => if scriptHasPosting script then 5%Z else score) scripts acc
  = if existsb scriptHasPosting scripts then 5%Z else acc.
Proof.
  revert acc. induction scripts as [|s r IH]; intros acc; [reflexivity|].
  cbn [fold_left existsb]. rewrite IH.
  destruct (scriptHasPosting s); cbn [orb]; [now destruct (existsb _ r) | reflexivity].
Qed.












(** C10 (amended): on a known job site, a URL whose lower-cased text
    contains none of the job path segments and which none of the URL
    patterns matches is not a job page, whatever the page holds and whatever
    the scorer would say. *)
Theorem isJobPage_known_site_other_path (url : jsstring) (doc : Document) :
  ContainsAny (getDomain url) jobSiteDomains ->
  ~ ContainsAny (toLowerCase url) pathIndicators ->
  (forall p, In p urlPatterns -> test p url = false) ->
  isJobPage url doc = false /\
  forall scorer, isJobPage_with scorer url doc = false.
Proof.
  intros Hk Hpath Hurl.
  apply isKnownJobSite_spec in Hk.
  assert (H1 : hasJobPath url = false).
  { destruct (hasJobPath url) eqn:E; [|reflexivity]. now apply hasJobPath_spec in E. }
  assert (H2 : hasJobUrl url = false) by now apply existsb_false_forall.
  unfold isJobPage, isJobPage_with. rewrite Hk, H1, H2. now split.
Qed.

End Classifier.



(** C10, as the code has it: the path segments are looked for in the
    lower-cased URL. This URL of a known site contains none of them as it is
    written, none of the URL patterns matches it, and it is a job page. *)
Lemma isJobPage_upper_case_path :
  ContainsAny (getDomain (u "https://www.linkedin.com/JOBS/")) Registry.jobSiteDomains /\
  ~ ContainsAny (u "https://www.linkedin.com/JOBS/") Registry.pathIndicators /\
  existsb (fun p => test p (u "https://www.linkedin.com/JOBS/")) Registry.urlPatterns
  = false /\
  Registry.isJobPage (u "https://www.linkedin.com/JOBS/") engineer_page = true.
Proof.
  split; [apply ContainsAny_by_computation; reflexivity|].
  split; [apply not_ContainsAny_by_computation; reflexivity|].
  split; reflexivity.
Qed.

(** C10 on a concrete page: the LinkedIn feed is not a job page, although the
    scorer would accept the page it shows. *)
Lemma isJobPage_known_site_other_path_witness :
  Registry.isJobPage (u "https://www.linkedin.com/feed/") posting_page = false /\
  Registry.detectJobPageHeuristics (u "https://www.linkedin.com/feed/") posting_page = true.
Proof.
  split; [|reflexivity].
  apply (isJobPage_known_site_other_path (u "https://www.linkedin.com/feed/") posting_page).
  - apply ContainsAny_by_computation. reflexivity.
  - apply not_ContainsAny_by_computation. reflexivity.
  - apply existsb_false_forall. reflexivity.
Defined.

(* ------------------------------------------------------------------ *)
(** ** What a strategy returns *)

Lemma answer_of_well_formed n r : answer_of n r -> well_formed r.
Proof.
  intros [-> | [o [conf [-> [Ht [Hd [Hi Hp]]]]]]].
  - split; [split; reflexivity|]. split; [discriminate | reflexivity].
  - split; [exact Hi|]. split; [|discriminate]. intros _. now exists o.
Qed.

Lemma answer_of_name n r : answer_of n r -> extractorUsed r = n.
Proof. intros [-> | [o [conf [-> _]]]]; reflexivity. Qed.


Lemma same_success n o1 o2 conf1 conf2 :
  erase o1 = erase o2 -> conf1 = conf2 ->
  same_outcome (Normal (createSuccessResult n o1 conf1))
               (Normal (createSuccessResult n o2 conf2)).
Proof.
  intros Ho ->. unfold same_outcome, timeless, createSuccessResult.
  cbn [success offer confidence extractorUsed errors option_map]. now rewrite Ho.
Qed.

Lemma agree_tail c1 c2 : agree c1 c2 -> agree (fun n => c1 (S n)) (fun n => c2 (S n)).
Proof. intros H n. apply H. Qed.

Ltac split_conditions :=
  repeat match goal with
         | |- context [if ?b then _ else _] => destruct b
         end.

Ltac project_offer :=
  unfold erase;
  cbn [sourceUrl sourceDomain title company location remoteType description
       contractType experience salary skills publishedAt capturedAt].

Ltac failure_under_name := eexists; eexists; split; [reflexivity | now left].

Section Strategies.
Context {P : Platform}.

Lemma LinkedIn_confidence o :
  in_unit_interval (LinkedIn.calculateConfidence o) /\
  PrimFloat.ltb 0 (LinkedIn.calculateConfidence o) = true.
Proof.
  unfold LinkedIn.calculateConfidence, in_unit_interval. cbv zeta.
  split_conditions; vm_compute; auto.
Qed.

Lemma Indeed_confidence o :
  in_unit_interval (Indeed.calculateConfidence o) /\
  PrimFloat.ltb 0 (Indeed.calculateConfidence o) = true.
Proof.
  unfold Indeed.calculateConfidence, in_unit_interval. cbv zeta.
  split_conditions; vm_compute; auto.
Qed.

Lemma WelcomeToTheJungle_confidence o :
  in_unit_interval (WelcomeToTheJungle.calculateConfidence o) /\
  PrimFloat.ltb 0 (WelcomeToTheJungle.calculateConfidence o) = true.
Proof.
  unfold WelcomeToTheJungle.calculateConfidence, in_unit_interval. cbv zeta.
  split_conditions; vm_compute; auto.
Qed.

Ltac computed_date :=
  match goal with
  | |- context [match ?now with Some _ => _ | None => lift _ end] => destruct now
  end.

(** [extractPostedDate] reads the clock at most once; it returns, or throws
    a [RangeError]. *)
Lemma extractPostedDate_settles doc c :
  (exists published c', LinkedIn.extractPostedDate doc c = (Normal published, c')) \/
  (exists c', LinkedIn.extractPostedDate doc c = (Throw RangeError, c')).
Proof.
  unfold LinkedIn.extractPostedDate.
  destruct (firstOf _ _) as [text|]; [|left; now exists None, c].
  unfold LinkedIn.parseRelativeDate, bind, newDate. cbv zeta.
  computed_date; unfold ret, lift; [left | right]; eauto.
Qed.

Lemma extractPostedDate_reads doc c1 c2 :
  agree c1 c2 ->
  fst (LinkedIn.extractPostedDate doc c1) = fst (LinkedIn.extractPostedDate doc c2) /\
  agree (snd (LinkedIn.extractPostedDate doc c1)) (snd (LinkedIn.extractPostedDate doc c2)).
Proof.
  intros H. unfold LinkedIn.extractPostedDate.
  destruct (firstOf _ _) as [text|]; [|now split].
  unfold LinkedIn.parseRelativeDate, bind, newDate. cbv zeta.
  rewrite (H 0%nat).
  computed_date; unfold ret, lift; cbn [fst snd];
    (split; [reflexivity | now apply agree_tail]).
Qed.

(** The LinkedIn strategy answers under its name, or throws a
    [RangeError]. *)
Lemma LinkedIn_extract_answer url doc c :
  (exists r c', LinkedIn.extract url doc c = (Normal r, c') /\ answer_of LinkedIn.name r) \/
  (exists c', LinkedIn.extract url doc c = (Throw RangeError, c')).
Proof.
  unfold LinkedIn.extract, bind, newDate, ret.
  destruct (has (LinkedIn.extractTitle doc)) eqn:Ht; cbn [negb];
    [|left; failure_under_name].
  destruct (LinkedIn.extractDescription doc) as [d|]; [|left; failure_under_name].
  destruct (nonempty d) eqn:Hd; cbn [negb]; [|left; failure_under_name].
  destruct (extractPostedDate_settles doc (fun n => c (S n)))
    as [[pub [c' ->]] | [c' ->]]; [left | right; now exists c'].
  eexists; eexists; split; [reflexivity|]. right.
  eexists; eexists; split; [reflexivity|]. cbn [title description].
  split; [exact Ht|]. split; [exact Hd|]. apply LinkedIn_confidence.
Qed.

Lemma Indeed_extract_answer url doc c :
  exists r c', Indeed.extract url doc c = (Normal r, c') /\ answer_of Indeed.name r.
Proof.
  unfold Indeed.extract, bind, newDate, ret.
  destruct (has (Indeed.extractTitle doc)) eqn:Ht; cbn [negb]; [|failure_under_name].
  destruct (Indeed.extractDescription doc) as [d|]; [|failure_under_name].
  destruct (nonempty d) eqn:Hd; cbn [negb]; [|failure_under_name].
  eexists; eexists; split; [reflexivity|]. right.
  eexists; eexists; split; [reflexivity|]. cbn [title description].
  split; [exact Ht|]. split; [exact Hd|]. apply Indeed_confidence.
Qed.

Lemma WelcomeToTheJungle_extract_answer url doc c :
  exists r c', WelcomeToTheJungle.extract url doc c = (Normal r, c') /\
               answer_of WelcomeToTheJungle.name r.
Proof.
  unfold WelcomeToTheJungle.extract, bind, newDate, ret.
  destruct (has (WelcomeToTheJungle.extractTitle doc)) eqn:Ht; cbn [negb];
    [|failure_under_name].
  destruct (WelcomeToTheJungle.extractDescription doc) as [d|]; [|failure_under_name].
  destruct (nonempty d) eqn:Hd; cbn [negb]; [|failure_under_name].
  eexists; eexists; split; [reflexivity|]. right.
  eexists; eexists; split; [reflexivity|]. cbn [title description].
  split; [exact Ht|]. split; [exact Hd|]. apply WelcomeToTheJungle_confidence.
Qed.

(** The clock decides nothing in a site strategy but the two dates and, in
    the LinkedIn strategy, whether the date it computes is one that can be
    written. *)
Lemma LinkedIn_extract_clock url doc c1 c2 :
  thrown (LinkedIn.extract url doc c1) = thrown (LinkedIn.extract url doc c2) ->
  same_outcome (fst (LinkedIn.extract url doc c1)) (fst (LinkedIn.extract url doc c2)).
Proof.
  unfold thrown, LinkedIn.extract, bind, newDate, ret.
  destruct (has (LinkedIn.extractTitle doc)); cbn [negb]; [|reflexivity].
  destruct (LinkedIn.extractDescription doc) as [d|]; [|reflexivity].
  destruct (nonempty d); cbn [negb]; [|reflexivity].
  destruct (extractPostedDate_settles doc (fun n => c1 (S n)))
    as [[p1 [c1' ->]] | [c1' ->]];
    destruct (extractPostedDate_settles doc (fun n => c2 (S n)))
      as [[p2 [c2' ->]] | [c2' ->]];
    cbn [fst]; try discriminate; intros _; [|reflexivity].
  apply same_success; [project_offer; reflexivity|].
  unfold LinkedIn.calculateConfidence. project_offer. reflexivity.
Qed.

Lemma Indeed_extract_clock url doc c1 c2 :
  same_outcome (fst (Indeed.extract url doc c1)) (fst (Indeed.extract url doc c2)).
Proof.
  unfold Indeed.extract, bind, newDate, ret.
  destruct (has (Indeed.extractTitle doc)); cbn [negb]; [|reflexivity].
  destruct (Indeed.extractDescription doc) as [d|]; [|reflexivity].
  destruct (nonempty d); cbn [negb]; [|reflexivity].
  cbn [fst]. apply same_success; [project_offer; reflexivity|].
  unfold Indeed.calculateConfidence. project_offer. reflexivity.
Qed.

Lemma WelcomeToTheJungle_extract_clock url doc c1 c2 :
  same_outcome (fst (WelcomeToTheJungle.extract url doc c1))
               (fst (WelcomeToTheJungle.extract url doc c2)).
Proof.
  unfold WelcomeToTheJungle.extract, bind, newDate, ret.
  destruct (has (WelcomeToTheJungle.extractTitle doc)); cbn [negb]; [|reflexivity].
  destruct (WelcomeToTheJungle.extractDescription doc) as [d|]; [|reflexivity].
  destruct (nonempty d); cbn [negb]; [|reflexivity].
  cbn [fst]. apply same_success; [project_offer; reflexivity|].
  unfold WelcomeToTheJungle.calculateConfidence. project_offer. reflexivity.
Qed.

(** A site strategy reads nothing of the clock but its times. *)
Lemma LinkedIn_extract_reads url doc c1 c2 :
  agree c1 c2 ->
  fst (LinkedIn.extract url doc c1) = fst (LinkedIn.extract url doc c2) /\
  agree (snd (LinkedIn.extract url doc c1)) (snd (LinkedIn.extract url doc c2)).
Proof.
  intros H. unfold LinkedIn.extract, bind, newDate, ret. rewrite (H 0%nat).
  pose proof (agree_tail H) as Ht.
  destruct (has (LinkedIn.extractTitle doc)); cbn [negb]; [|now split].
  destruct (LinkedIn.extractDescription doc) as [d|]; [|now split].
  destruct (nonempty d); cbn [negb]; [|now split].
  destruct (extractPostedDate_reads doc Ht) as [Hp Hc].
  destruct (LinkedIn.extractPostedDate doc (fun n => c1 (S n))) as [[p1|x1] c1'],
           (LinkedIn.extractPostedDate doc (fun n => c2 (S n))) as [[p2|x2] c2'];
    cbn [fst snd] in *; try discriminate; injection Hp as <-; now split.
Qed.

Lemma Indeed_extract_reads url doc c1 c2 :
  agree c1 c2 ->
  fst (Indeed.extract url doc c1) = fst (Indeed.extract url doc c2) /\
  agree (snd (Indeed.extract url doc c1)) (snd (Indeed.extract url doc c2)).
Proof.
  intros H. unfold Indeed.extract, bind, newDate, ret. rewrite (H 0%nat).
  pose proof (agree_tail H) as Ht.
  destruct (has (Indeed.extractTitle doc)); cbn [negb]; [|now split].
  destruct (Indeed.extractDescription doc) as [d|]; [|now split].
  destruct (nonempty d); cbn [negb]; now split.
Qed.

Lemma WelcomeToTheJungle_extract_reads url doc c1 c2 :
  agree c1 c2 ->
  fst (WelcomeToTheJungle.extract url doc c1) = fst (WelcomeToTheJungle.extract url doc c2) /\
  agree (snd (WelcomeToTheJungle.extract url doc c1))
        (snd (WelcomeToTheJungle.extract url doc c2)).
Proof.
  intros H. unfold WelcomeToTheJungle.extract, bind, newDate, ret. rewrite (H 0%nat).
  pose proof (agree_tail H) as Ht.
  destruct (has (WelcomeToTheJungle.extractTitle doc)); cbn [negb]; [|now split].
  destruct (WelcomeToTheJungle.extractDescription doc) as [d|]; [|now split].
  destruct (nonempty d); cbn [negb]; now split.
Qed.

End Strategies.

(* ------------------------------------------------------------------ *)
(** ** The Generic strategy (C4) *)

Lemma cbind_indep {A B C} (f : B -> C) (x : completion A) k1 k2 :
  (forall a, k1 a = cmap f (k2 a)) -> cbind x k1 = cmap f (cbind x k2).
Proof. intros H. destruct x; [apply H | reflexivity]. Qed.

Lemma cbind_step {A B} (f : A -> A) (g : B -> B) (x1 x2 : completion A) k :
  x1 = cmap f x2 -> (forall a, k (f a) = cmap g (k a)) ->
  cbind x1 k = cmap g (cbind x2 k).
Proof. intros -> H. destruct x2; [apply H | reflexivity]. Qed.

Section GenericStrategy.
Context {P : Platform}.
Import Generic.

Lemma extractMetaTags_steps o doc :
  extractMetaTags o doc = meta_company doc (meta_description doc (meta_title doc o)).
Proof. reflexivity. Qed.

Lemma extract_steps url doc c :
  extract url doc c
  = (cmap (fun o => conclude (is_some (extractJsonLd doc)) (fillFromPage o doc))
          (structured (blank url (Date_toISOString (c 0%nat))) doc),
     fun n => c (S n)).
Proof.
  unfold extract, structured.
  destruct (extractJsonLd doc) as [data|].
  - unfold bind, newDate, lift, blank.
    destruct (applyJsonLdData _ data); [|reflexivity].
    cbv beta zeta iota
        delta [ret conclude fillFromPage cmap is_some page_title page_description
               page_company page_location derive_skills derive_remoteType].
    reflexivity.
  - cbv beta zeta iota
        delta [bind newDate lift ret blank conclude fillFromPage cmap is_some
               page_title page_description page_company page_location derive_skills
               derive_remoteType].
    reflexivity.
Qed.

Lemma calculateConfidence_weighted_sum o :
  calculateConfidence o = Math_min (weighted_sum (weights o)) 1.
Proof. reflexivity. Qed.

Lemma Generic_confidence o :
  has (title o) = true ->
  in_unit_interval (calculateConfidence o) /\
  PrimFloat.ltb 0 (calculateConfidence o) = true.
Proof.
  intros Ht. unfold calculateConfidence, in_unit_interval. rewrite Ht. cbv zeta.
  split_conditions; vm_compute; auto.
Qed.

Lemma conclude_answer b o : answer_of name (conclude b o).
Proof.
  unfold conclude. cbv zeta.
  destruct (has (title o)) eqn:Ht; [|now left].
  destruct (has (description o)) eqn:Hd; [|now left].
  right. cbn [negb orb]. eexists; eexists; split; [reflexivity|].
  split; [exact Ht|]. split; [exact Hd|].
  destruct b; [vm_compute; auto | now apply Generic_confidence].
Qed.

Lemma Generic_extract_answer url doc c r c' :
  extract url doc c = (Normal r, c') -> answer_of name r.
Proof.
  rewrite extract_steps. destruct (structured _ doc); [|discriminate].
  cbn [cmap]. intros H. injection H as <- _. apply conclude_answer.
Qed.

Lemma applyJsonLdData_recapture cap o data :
  applyJsonLdData (recapture cap o) data = cmap (recapture cap) (applyJsonLdData o data).
Proof.
  unfold applyJsonLdData. cbv zeta.
  apply cbind_indep; intros v1.
  apply (cbind_step (recapture cap)).
  { destruct (truthy v1); [destruct (cleanText_val v1)|]; reflexivity. }
  clear o; intros o.
  apply cbind_indep; intros v2.
  apply (cbind_step (recapture cap)).
  { destruct (truthy v2); [destruct (htmlToMarkdown_val v2)|]; reflexivity. }
  clear o; intros o.
  apply cbind_indep; intros org.
  apply (cbind_step (recapture cap)).
  { destruct (truthy _); [destruct (cleanText_val _)|]; reflexivity. }
  clear o; intros o.
  apply cbind_indep; intros loc.
  apply (cbind_step (recapture cap)).
  { destruct (truthy _); [destruct (Array_join _ _)|]; reflexivity. }
  clear o; intros o.
  apply cbind_indep; intros v5.
  apply (cbind_step (recapture cap)).
  { destruct (truthy v5); [destruct v5|]; reflexivity. }
  clear o; intros o.
  apply cbind_indep; intros bs.
  apply (cbind_step (recapture cap)).
  { destruct (truthy _); [destruct (normalizeSalaryPeriod _)|]; reflexivity. }
  clear o; intros o.
  apply cbind_indep; intros v7.
  apply cbind_indep; intros v8.
  destruct (truthy v7), (truthy v8); reflexivity.
Qed.

Ltac head_of t :=
  lazymatch t with
  | ?f _ => head_of f
  | _ => t
  end.

Ltac oblivious_step :=
  intros cap o; destruct o;
  match goal with |- ?lhs = _ => let step := head_of lhs in unfold step end;
  cbv zeta;
  unfold recapture, set_title, set_description, set_company, set_location, set_skills,
         set_remoteType;
  cbn [sourceUrl sourceDomain title company location remoteType
       description contractType experience salary skills publishedAt capturedAt];
  try match goal with
      | |- context [if ?b then _ else _] => destruct b
      | |- context [match ?r with Some _ => _ | None => _ end] => destruct r as [[]|]
      end;
  reflexivity.

Lemma meta_title_oblivious doc : oblivious (meta_title doc).
Proof. oblivious_step. Qed.

Lemma meta_description_oblivious doc : oblivious (meta_description doc).
Proof. oblivious_step. Qed.

Lemma meta_company_oblivious doc : oblivious (meta_company doc).
Proof. oblivious_step. Qed.

Lemma page_title_oblivious doc : oblivious (page_title doc).
Proof. oblivious_step. Qed.

Lemma page_description_oblivious doc : oblivious (page_description doc).
Proof. oblivious_step. Qed.

Lemma page_company_oblivious doc : oblivious (page_company doc).
Proof. oblivious_step. Qed.

Lemma page_location_oblivious doc : oblivious (page_location doc).
Proof. oblivious_step. Qed.

Lemma derive_skills_oblivious : oblivious derive_skills.
Proof. oblivious_step. Qed.

Lemma derive_remoteType_oblivious : oblivious derive_remoteType.
Proof. oblivious_step. Qed.

Lemma fillFromPage_recapture cap o doc :
  fillFromPage (recapture cap o) doc = recapture cap (fillFromPage o doc).
Proof.
  unfold fillFromPage. rewrite !extractMetaTags_steps.
  now rewrite meta_title_oblivious, meta_description_oblivious, meta_company_oblivious,
    page_title_oblivious, page_description_oblivious, page_company_oblivious,
    page_location_oblivious, derive_skills_oblivious, derive_remoteType_oblivious.
Qed.

Lemma conclude_recapture b cap o :
  timeless (conclude b (recapture cap o)) = timeless (conclude b o).
Proof.
  unfold conclude. cbv zeta. destruct o. unfold recapture, calculateConfidence.
  cbn [sourceUrl sourceDomain title company location remoteType
       description contractType experience salary skills publishedAt capturedAt].
  match goal with |- context [if ?c then createEmptyResult _ else _] => destruct c end;
    reflexivity.
Qed.

Lemma blank_recapture url cap : blank url cap = recapture cap (blank url []).
Proof. reflexivity. Qed.

Lemma structured_recapture cap o doc :
  structured (recapture cap o) doc = cmap (recapture cap) (structured o doc).
Proof.
  unfold structured. destruct (extractJsonLd doc); [|reflexivity].
  apply applyJsonLdData_recapture.
Qed.

(** The clock decides nothing in the Generic strategy but [capturedAt]. *)
Lemma Generic_extract_clock url doc c1 c2 :
  same_outcome (fst (extract url doc c1)) (fst (extract url doc c2)).
Proof.
  rewrite !extract_steps. cbn [fst].
  rewrite (blank_recapture url (Date_toISOString (c1 0%nat))).
  rewrite (blank_recapture url (Date_toISOString (c2 0%nat))).
  rewrite !structured_recapture.
  destruct (structured (blank url []) doc) as [o|e]; cbn [cmap same_outcome]; [|reflexivity].
  now rewrite !fillFromPage_recapture, !conclude_recapture.
Qed.

(** The Generic strategy reads nothing of the clock but its first time. *)
Lemma Generic_extract_reads url doc c1 c2 :
  agree c1 c2 ->
  fst (extract url doc c1) = fst (extract url doc c2) /\
  agree (snd (extract url doc c1)) (snd (extract url doc c2)).
Proof.
  intros H. rewrite !extract_steps. cbn [fst snd]. rewrite (H 0%nat).
  split; [reflexivity | now apply agree_tail].
Qed.

End GenericStrategy.

(** C4, as the code has it: on a page whose JSON-LD JobPosting has no
    description (and which offers none elsewhere), structured data is found
    and yet the outcome is the canonical failure, with confidence 0 and not
    0.9. *)
Lemma Generic_structured_data_without_description :
  is_some (Generic.extractJsonLd posting_page) = true /\
  answered (Generic.extract (u "https://example.org/team") posting_page (still 0%Z))
  = Some (createEmptyResult Generic.name) /\
  confidence (createEmptyResult Generic.name) = 0%float /\
  PrimFloat.eqb 0 0.9 = false.
Proof. repeat split; reflexivity. Qed.

(** C4 (amended): when the Generic strategy succeeds, its confidence is 0.9
    if a JSON-LD JobPosting was found, whatever the other fields, and
    otherwise the sum of the weights of the fields present (title 0.25,
    description of more than 200 units 0.25, company 0.15, location 0.10,
    salary 0.10, non-empty skills 0.10, contractType 0.05), at most 1; when
    the title or the description is missing it returns the canonical
    failure, whose confidence is 0. *)
Theorem Generic_extract_confidence {P : Platform} (url : jsstring) (doc : Document)
        (c : Clock) (r : ExtractionResult) (c' : Clock) :
  Generic.extract url doc c = (Normal r, c') ->
  (success r = true ->
   exists o, offer r = Some o /\
     has (title o) = true /\ has (description o) = true /\
     (Generic.extractJsonLd doc <> None -> confidence r = 0.9%float) /\
     (Generic.extractJsonLd doc = None ->
      confidence r = Math_min (weighted_sum (weights o)) 1)) /\
  (success r = false ->
   r = createEmptyResult Generic.name /\ confidence r = 0%float).
Proof.
  rewrite extract_steps. destruct (structured _ doc) as [o|e]; [|discriminate].
  cbn [cmap]. intros H. injection H as <- _.
  generalize (fillFromPage o doc). intros o'. unfold conclude. cbv zeta.
  destruct (negb (has (title o')) || negb (has (description o'))) eqn:E.
  - split; [discriminate | now split].
  - split; [|discriminate]. intros _. exists o'.
    apply orb_false_iff in E. destruct E as [Et Ed].
    apply negb_false_iff in Et, Ed.
    split; [reflexivity|]. split; [exact Et|]. split; [exact Ed|]. split.
    + intros Hld. destruct (Generic.extractJsonLd doc); [reflexivity | congruence].
    + intros ->. apply calculateConfidence_weighted_sum.
Qed.

(** C4 on concrete pages: with a JobPosting that has a title and a
    description the confidence is 0.9; with an OpenGraph title and a short
    description only, it is the weight of the title, 0.25. *)
Lemma Generic_extract_confidence_witness :
  option_map confidence
    (answered (Generic.extract (u "https://example.org/team") ld_page (still 0%Z)))
  = Some 0.9%float /\
  option_map confidence
    (answered (Generic.extract (u "https://example.org/team") meta_page (still 0%Z)))
  = Some 0.25%float.
Proof.
  split.
  - destruct (Generic.extract (u "https://example.org/team") ld_page (still 0%Z))
      as [[r|e] c'] eqn:E; [|vm_compute in E; discriminate].
    destruct (Generic_extract_confidence _ _ _ E) as [Hs _].
    assert (Hr : success r = true) by (vm_compute in E; now injection E as <- _).
    destruct (Hs Hr) as [o [_ [_ [_ [Hld _]]]]].
    unfold answered. cbn [fst option_map]. f_equal. apply Hld. vm_compute. discriminate.
  - destruct (Generic.extract (u "https://example.org/team") meta_page (still 0%Z))
      as [[r|e] c'] eqn:E; [|vm_compute in E; discriminate].
    destruct (Generic_extract_confidence _ _ _ E) as [Hs _].
    assert (Hr : success r = true) by (vm_compute in E; now injection E as <- _).
    destruct (Hs Hr) as [o [Ho [_ [_ [_ Hsum]]]]].
    unfold answered. cbn [fst option_map]. f_equal. rewrite Hsum by reflexivity.
    vm_compute in E. injection E as <- _. injection Ho as <-. reflexivity.
Defined.

(* ------------------------------------------------------------------ *)
(** ** The registry (C1, C2, C9) *)

Section RegistryFacts.
Context {P : Platform}.
Import Registry.

Variable url : jsstring.
Variable doc : Document.

Lemma tryEach_surfaced l c : Surfaced url doc l c (fst (tryEach l url doc c)).
Proof.
  revert c. induction l as [|e l IH]; intros c.
  - right. exists c. split; [constructor | reflexivity].
  - cbn [tryEach]. destruct (canHandle e url doc) eqn:Hc.
    + destruct (extract e url doc c) as [[r|x] c1] eqn:He.
      * destruct (success r && is_some (offer r)) eqn:Hs.
        -- left. exists [], e, l, c, c1. apply andb_true_iff in Hs. destruct Hs as [Hs Ho].
           cbn [fst]. split; [reflexivity|]. split; [constructor|]. split; [exact Hc|].
           split; [exact He|]. split; [exact Hs|]. now destruct (offer r).
        -- destruct (IH c1) as [[pre [e' [post [c2 [c' [-> [Hd H]]]]]]] | [c' [Hd ->]]].
           ++ left. exists (e :: pre), e', post, c2, c'. split; [reflexivity|].
              split; [|exact H]. eapply declined_fails; eauto.
           ++ right. exists c'. split; [|reflexivity]. eapply declined_fails; eauto.
      * destruct (IH c1) as [[pre [e' [post [c2 [c' [-> [Hd H]]]]]]] | [c' [Hd ->]]].
        -- left. exists (e :: pre), e', post, c2, c'. split; [reflexivity|].
           split; [|exact H]. eapply declined_throws; eauto.
        -- right. exists c'. split; [|reflexivity]. eapply declined_throws; eauto.
    + destruct (IH c) as [[pre [e' [post [c2 [c' [-> [Hd H]]]]]]] | [c' [Hd ->]]].
      * left. exists (e :: pre), e', post, c2, c'. split; [reflexivity|].
        split; [|exact H]. now apply declined_cannot.
      * right. exists c'. split; [|reflexivity]. now apply declined_cannot.
Qed.


Lemma extractors_order :
  extractors =
  [ LinkedIn.linkedInExtractor; Indeed.indeedExtractor;
    WelcomeToTheJungle.welcomeToTheJungleExtractor; Generic.genericExtractor ].
Proof. reflexivity. Qed.

Lemma extractors_answer_well : Forall (answers_well url doc) extractors.
Proof.
  rewrite extractors_order.
  apply Forall_cons; [|apply Forall_cons; [|apply Forall_cons;
    [|apply Forall_cons; [|apply Forall_nil]]]]; intros c r c' H.
  - cbn [extract LinkedIn.linkedInExtractor] in H.
    destruct (LinkedIn_extract_answer url doc c) as [[r0 [c0 [E A]]] | [c0 E]];
      rewrite E in H; [now injection H as <- _ | discriminate].
  - destruct (Indeed_extract_answer url doc c) as [r0 [c0 [E A]]].
    cbn [extract Indeed.indeedExtractor] in H. rewrite E in H. now injection H as <- _.
  - destruct (WelcomeToTheJungle_extract_answer url doc c) as [r0 [c0 [E A]]].
    cbn [extract WelcomeToTheJungle.welcomeToTheJungleExtractor] in H.
    rewrite E in H. now injection H as <- _.
  - now apply Generic_extract_answer in H.
Qed.

(** The run of [extractJobOffer]: who answered, under which name. *)
Lemma extractJobOffer_surfaced c :
  let r := fst (extractJobOffer url doc c) in
  (exists pre e post c1 c',
     extractors = pre ++ e :: post /\ Declined url doc pre c c1 /\
     canHandle e url doc = true /\ extract e url doc c1 = (Normal r, c') /\
     success r = true /\ offer r <> None /\ extractorUsed r = name e /\
     well_formed r) \/
  (exists c', Declined url doc extractors c c' /\ r = createEmptyResult (u "none")).
Proof.
  cbv zeta. unfold extractJobOffer.
  destruct (tryEach_surfaced extractors c)
    as [[pre [e [post [c1 [c' [Hl [Hd [Hc [He [Hs Ho]]]]]]]]]] | H]; [left | now right].
  exists pre, e, post, c1, c'.
  pose proof extractors_answer_well as Hall. rewrite Hl in Hall.
  apply Forall_middle in Hall. specialize (Hall _ _ _ He).
  split; [exact Hl|]. split; [exact Hd|]. split; [exact Hc|]. split; [exact He|].
  split; [exact Hs|]. split; [exact Ho|].
  split; [now apply answer_of_name | now apply answer_of_well_formed with (n := name e)].
Qed.




(** The strategies tried after the LinkedIn strategy. *)
Lemma extractors_clock_free :
  Forall (clock_free url doc)
    [ Indeed.indeedExtractor; WelcomeToTheJungle.welcomeToTheJungleExtractor;
      Generic.genericExtractor ].
Proof.
  apply Forall_cons; [|apply Forall_cons; [|apply Forall_cons; [|apply Forall_nil]]];
    intros c1 c2.
  - apply Indeed_extract_clock.
  - apply WelcomeToTheJungle_extract_clock.
  - apply Generic_extract_clock.
Qed.

Lemma timeless_candidate r1 r2 :
  timeless r1 = timeless r2 ->
  success r1 && is_some (offer r1) = success r2 && is_some (offer r2).
Proof.
  unfold timeless. intros H. injection H as Hs Ho _ _ _. rewrite Hs. f_equal.
  destruct (offer r1), (offer r2); try reflexivity; discriminate.
Qed.

Lemma tryEach_clock l :
  Forall (clock_free url doc) l ->
  forall c1 c2,
    timeless (fst (tryEach l url doc c1)) = timeless (fst (tryEach l url doc c2)).
Proof.
  induction 1 as [|e l He _ IH]; intros c1 c2; [reflexivity|].
  cbn [tryEach]. destruct (canHandle e url doc); [|apply IH].
  specialize (He c1 c2).
  destruct (extract e url doc c1) as [[r1|x1] c1'], (extract e url doc c2) as [[r2|x2] c2'];
    cbn [fst same_outcome] in He; try contradiction; [|apply IH].
  rewrite (timeless_candidate He).
  destruct (success r2 && is_some (offer r2)); [exact He | apply IH].
Qed.

(** The same for a list whose first extractor ends the same way at the two
    clocks it is run from. *)
Lemma tryEach_clock_from e l c1 c2 :
  (canHandle e url doc = true ->
   same_outcome (fst (extract e url doc c1)) (fst (extract e url doc c2))) ->
  Forall (clock_free url doc) l ->
  timeless (fst (tryEach (e :: l) url doc c1)) = timeless (fst (tryEach (e :: l) url doc c2)).
Proof.
  intros He Hl. cbn [tryEach]. destruct (canHandle e url doc); [|now apply tryEach_clock].
  specialize (He eq_refl).
  destruct (extract e url doc c1) as [[r1|x1] c1'], (extract e url doc c2) as [[r2|x2] c2'];
    cbn [fst same_outcome] in He; try contradiction; [|now apply tryEach_clock].
  rewrite (timeless_candidate He).
  destruct (success r2 && is_some (offer r2)); [exact He | now apply tryEach_clock].
Qed.

Lemma extractors_clock_readers : Forall (clock_reader url doc) extractors.
Proof.
  rewrite extractors_order.
  apply Forall_cons; [|apply Forall_cons; [|apply Forall_cons;
    [|apply Forall_cons; [|apply Forall_nil]]]]; intros c1 c2 H.
  - now apply LinkedIn_extract_reads.
  - now apply Indeed_extract_reads.
  - now apply WelcomeToTheJungle_extract_reads.
  - now apply Generic_extract_reads.
Qed.

(** The loop reads nothing of the clock but its times. *)
Lemma tryEach_reads l :
  Forall (clock_reader url doc) l ->
  forall c1 c2, agree c1 c2 ->
    fst (tryEach l url doc c1) = fst (tryEach l url doc c2).
Proof.
  induction 1 as [|e l He _ IH]; intros c1 c2 Hc; [reflexivity|].
  cbn [tryEach]. destruct (canHandle e url doc); [|now apply IH].
  destruct (He c1 c2 Hc) as [Hr Hn].
  destruct (extract e url doc c1) as [x1 c1'], (extract e url doc c2) as [x2 c2'].
  cbn [fst snd] in Hr, Hn. subst x2.
  destruct x1 as [r|x]; [|now apply IH].
  destruct (success r && is_some (offer r)); [reflexivity | now apply IH].
Qed.

End RegistryFacts.



(** C2: whatever the URL, the page and the clock, the outcome of
    [extractJobOffer] has a confidence between 0 and 1; it is a success
    exactly when it carries a record whose title and description are both
    present and non-empty; a success carries a record and a positive
    confidence; a failure carries no record. *)
Theorem extractJobOffer_outcome_invariant {P : Platform} (url : jsstring)
        (doc : Document) (c : Clock) :
  let r := fst (Registry.extractJobOffer url doc c) in
  (PrimFloat.leb 0 (confidence r) = true /\ PrimFloat.leb (confidence r) 1 = true) /\
  (success r = true <->
   exists o, offer r = Some o /\ has (title o) = true /\ has (description o) = true) /\
  (success r = true -> offer r <> None /\ PrimFloat.ltb 0 (confidence r) = true) /\
  (success r = false -> offer r = None).
Proof.
  cbv zeta.
  assert (Hwf : well_formed (fst (Registry.extractJobOffer url doc c))).
  { destruct (extractJobOffer_surfaced url doc c)
      as [[pre [e [post [c1 [c' [_ [_ [_ [_ [_ [_ [_ Hw]]]]]]]]]]]] | [c' [_ ->]]].
    - exact Hw.
    - apply answer_of_well_formed with (n := u "none"). now left. }
  destruct Hwf as [Hi [Hs Hf]]. split; [exact Hi|]. split; [|split].
  - split.
    + intros H. destruct (Hs H) as [o [Ho [Ht [Hd _]]]]. now exists o.
    + intros [o [Ho _]]. destruct (success _); [reflexivity|].
      rewrite Hf in Ho by reflexivity. discriminate.
  - intros H. destruct (Hs H) as [o [Ho [_ [_ Hp]]]]. split; [congruence | exact Hp].
  - exact Hf.
Qed.

(** C9, as the code has it: the same URL and the same page, read at two
    different times, give two different outcomes. The record says when it
    was captured; and a LinkedIn posting that is one hour old is read by the
    LinkedIn strategy at the epoch, and by none at the earliest time a
    [Date] can hold, where the date of the posting cannot be written. *)
Lemma extractJobOffer_depends_on_clock :
  let run t := fst (Registry.extractJobOffer (u "https://example.org/team") meta_page
                      (still t)) in
  let read t := fst (Registry.extractJobOffer (u "https://www.linkedin.com/jobs/view/42")
                       linkedin_page (still t)) in
  (option_map capturedAt (offer (run 0%Z)) = Some (u "1970-01-01T00:00:00.000Z") /\
   option_map capturedAt (offer (run 86400000%Z)) = Some (u "1970-01-02T00:00:00.000Z") /\
   run 0%Z <> run 86400000%Z) /\
  (success (read 0%Z) = true /\ extractorUsed (read 0%Z) = u "linkedin" /\
   option_map publishedAt (offer (read 0%Z)) = Some (Some (VStr (u "1969-12-31"))) /\
   read (-8640000000000000)%Z = createEmptyResult (u "none")).
Proof.
  cbv zeta. split.
  - split; [reflexivity|]. split; [reflexivity|].
    intros H. apply (f_equal (fun r => option_map capturedAt (offer r))) in H.
    vm_compute in H. discriminate.
  - split; [reflexivity|]. split; [reflexivity|]. split; reflexivity.
Qed.

(** C9 (amended): two runs of [extractJobOffer] on a URL and a page during
    which the clock reads the same times give the same outcome. Two runs at
    different times give outcomes that agree on the success flag, the
    confidence, the strategy name, the errors and every field of the record
    except [capturedAt] and [publishedAt], provided the LinkedIn strategy,
    where it handles the URL, throws in both runs or in neither (it throws
    when the date it computes for the posting is one a [Date] cannot
    hold). *)
Theorem extractJobOffer_deterministic_up_to_clock {P : Platform} (url : jsstring)
        (doc : Document) (c1 c2 : Clock) :
  (agree c1 c2 ->
   fst (Registry.extractJobOffer url doc c1) = fst (Registry.extractJobOffer url doc c2)) /\
  ((LinkedIn.canHandle url = true ->
    thrown (LinkedIn.extract url doc c1) = thrown (LinkedIn.extract url doc c2)) ->
   timeless (fst (Registry.extractJobOffer url doc c1))
   = timeless (fst (Registry.extractJobOffer url doc c2))).
Proof.
  unfold Registry.extractJobOffer. split.
  - apply tryEach_reads. apply extractors_clock_readers.
  - intros H. rewrite extractors_order.
    apply tryEach_clock_from; [|apply extractors_clock_free].
    intros Hc. apply LinkedIn_extract_clock. now apply H.
Qed.

(** C9 on concrete pages: [meta_page] read twice at the same time; the
    LinkedIn posting read at two times at which its date can be written. *)
Lemma extractJobOffer_deterministic_up_to_clock_witness :
  let run t := fst (Registry.extractJobOffer (u "https://example.org/team") meta_page
                      (still t)) in
  let read t := fst (Registry.extractJobOffer (u "https://www.linkedin.com/jobs/view/42")
                       linkedin_page (still t)) in
  run 0%Z = run 0%Z /\ timeless (read 0%Z) = timeless (read 86400000%Z).
Proof.
  cbv zeta. split.
  - apply (proj1 (@extractJobOffer_deterministic_up_to_clock platform
                    (u "https://example.org/team") meta_page
                    (still 0%Z) (still 0%Z))).
    intros n. reflexivity.
  - apply (proj2 (@extractJobOffer_deterministic_up_to_clock platform
                    (u "https://www.linkedin.com/jobs/view/42") linkedin_page
                    (still 0%Z) (still 86400000%Z))).
    intros _. reflexivity.
Defined.

(* ================================================================== *)
(** * Further properties of the code *)

(* ------------------------------------------------------------------ *)
(** ** Replacements by a regular expression *)

Lemma rest_past f bef s cs : rest (past f bef s cs) = dropWhile f s.
Proof.
  revert bef. induction s as [|c s IH]; intros bef; cbn; [reflexivity|].
  destruct (f c); [apply IH | reflexivity].
Qed.

Lemma length_dropWhile f s : (List.length (dropWhile f s) <= List.length s)%nat.
Proof. induction s as [|c s IH]; cbn; [lia|]. destruct (f c); cbn; lia. Qed.

Lemma run_Star_Cls R f (k : pos -> option R) :
  (forall q, k q <> None) ->
  forall p, run (Star (Cls f)) p k = k (past f (before p) (rest p) (caps p)).
Proof.
  intros Hk p. cbn [run].
  match goal with |- ?F _ _ = _ => set (loop := F) end.
  assert (E0 : forall q, loop O q = k q) by reflexivity.
  assert (ES : forall n q,
             loop (S n) q
             = orelse (run (Cls f) q (fun q' =>
                         if (List.length (rest q') <? List.length (rest q))%nat
                         then loop n q' else None)) (k q)) by reflexivity.
  clearbody loop.
  assert (H : forall n bef s cs, (List.length s <= n)%nat ->
                loop n (mkpos bef s cs) = k (past f bef s cs)).
  { induction n as [|n IH]; intros bef s cs Hn.
    - rewrite E0. destruct s; [reflexivity | cbn in Hn; lia].
    - rewrite ES. cbn [run rest].
      destruct s as [|c s]; [reflexivity|]. cbn [past].
      destruct (f c); [|reflexivity].
      cbn [advance_to rest caps List.length].
      replace (List.length s <? S (List.length s))%nat with true
        by (symmetry; apply Nat.ltb_lt; lia).
      unfold advance_to. cbn [caps]. rewrite IH by (cbn in Hn; lia).
      destruct (k (past f (Some c) s cs)) eqn:E; [reflexivity | now apply Hk in E]. }
  destruct p as [bef s cs]. cbn [rest before caps]. now apply H.
Qed.

Lemma run_Seq R r1 r2 p (k : pos -> option R) :
  run (Seq r1 r2) p k = run r1 p (fun q => run r2 q k).
Proof. reflexivity. Qed.

Lemma run_Cls R f p (k : pos -> option R) :
  run (Cls f) p k
  = match rest p with
    | c :: s => if f c then k (advance_to p c s) else None
    | [] => None
    end.
Proof. reflexivity. Qed.

Lemma run_Grp R r p (k : pos -> option R) :
  run (Grp r) p k
  = run r p (fun q => k (mkpos (before q) (rest q) (consumed p q :: caps q))).
Proof. reflexivity. Qed.

Lemma run_Alt R r1 r2 p (k : pos -> option R) :
  run (Alt r1 r2) p k = orelse (run r1 p k) (run r2 p k).
Proof. reflexivity. Qed.

Lemma match_here_plus_Cls f bef s :
  match_here (plus (Cls f)) bef s
  = match s with
    | c :: s' => if f c then Some (past f (Some c) s' []) else None
    | [] => None
    end.
Proof.
  unfold match_here, plus. rewrite run_Seq, run_Cls. cbn [rest].
  destruct s as [|c s']; [reflexivity|]. destruct (f c); [|reflexivity].
  rewrite run_Star_Cls by discriminate. reflexivity.
Qed.

Lemma collapse_true_dropWhile f by_ s :
  collapse f by_ true s = collapse f by_ false (dropWhile f s).
Proof.
  induction s as [|c s IH]; [reflexivity|]. cbn [collapse dropWhile].
  destruct (f c) eqn:E; [exact IH|]. cbn [collapse]. now rewrite E.
Qed.

(** Dropping the [k] units of a run that are left, then going on. *)
Lemma replaceAll_from_skip r by_ bef k s :
  replaceAll_from r by_ bef (S k) s
  = match s with
    | c :: s' => replaceAll_from r by_ (Some c) k s'
    | [] => []
    end.
Proof. destruct s; reflexivity. Qed.

Lemma replaceAll_plus_Cls_from (f : N -> bool) (by_ s : jsstring) :
  (forall bef, replaceAll_from (plus (Cls f)) by_ bef 0 s = collapse f by_ false s) /\
  (forall bef k, Nat.sub (List.length s) (List.length (dropWhile f s)) = k ->
     replaceAll_from (plus (Cls f)) by_ bef k s = collapse f by_ false (dropWhile f s)).
Proof.
  induction s as [|c s [IH0 IHk]].
  - split; [reflexivity|]. intros bef k Hk. cbn in Hk. subst k. reflexivity.
  - assert (H0 : forall bef,
               replaceAll_from (plus (Cls f)) by_ bef 0 (c :: s)
               = collapse f by_ false (c :: s)).
    { intros bef. cbn [replaceAll_from]. rewrite match_here_plus_Cls. cbn [collapse].
      destruct (f c) eqn:E.
      - rewrite rest_past. cbn [List.length].
        pose proof (length_dropWhile f s) as Hl.
        replace (S (List.length s) - List.length (dropWhile f s))%nat
          with (S (List.length s - List.length (dropWhile f s))) by lia.
        rewrite (IHk (Some c) _ eq_refl). now rewrite collapse_true_dropWhile.
      - now rewrite IH0. }
    split; [exact H0|].
    intros bef k Hk. cbn [dropWhile] in *. destruct (f c) eqn:E.
    + pose proof (length_dropWhile f s) as Hl. cbn [List.length] in Hk.
      destruct k as [|k]; [lia|]. rewrite replaceAll_from_skip.
      apply IHk. lia.
    + cbn [List.length] in Hk. replace k with O by lia. apply H0.
Qed.

Lemma replaceAll_plus_Cls f by_ s :
  replaceAll (plus (Cls f)) by_ s = collapse f by_ false s.
Proof. apply replaceAll_plus_Cls_from. Qed.

Lemma match_here_Cls f bef s :
  match_here (Cls f) bef s
  = match s with
    | c :: s' => if f c then Some (mkpos (Some c) s' []) else None
    | [] => None
    end.
Proof. unfold match_here. cbn [run rest]. destruct s; reflexivity. Qed.

Lemma replaceAll_Cls f by_ s :
  replaceAll (Cls f) by_ s = flat_map (fun c => if f c then by_ else [c]) s.
Proof.
  unfold replaceAll. generalize (@None N).
  induction s as [|c s IH]; intros bef; [reflexivity|].
  cbn [replaceAll_from flat_map]. rewrite match_here_Cls.
  destruct (f c).
  - cbn [rest List.length]. replace (S (List.length s) - List.length s)%nat with 1%nat by lia.
    now rewrite IH.
  - now rewrite IH.
Qed.

(* ------------------------------------------------------------------ *)
(** ** White space *)

Lemma collapse_true_head f by_ s :
  match collapse f by_ true s with
  | c :: _ => f c = false
  | [] => True
  end.
Proof.
  induction s as [|c s IH]; [exact I|]. cbn [collapse].
  destruct (f c) eqn:E; [exact IH | exact E].
Qed.

Lemma collapse_isolated f b inrun s :
  isolated f b (collapse f [b] inrun s) = true.
Proof.
  revert inrun. induction s as [|c s IH]; intros inrun; [reflexivity|].
  cbn [collapse]. destruct (f c) eqn:E.
  - destruct inrun; cbn [app]; [apply IH|].
    cbn [isolated]. rewrite IH, N.eqb_refl.
    pose proof (collapse_true_head f [b] s) as H.
    destruct (collapse f [b] true s) as [|d r]; [now destruct (f b)|].
    cbn [starts_in]. rewrite H. now destruct (f b).
  - cbn [isolated]. now rewrite E, IH.
Qed.

Lemma collapse_no_unit f by_ inrun s :
  (forall c, In c s -> f c = false) -> collapse f by_ inrun s = s.
Proof.
  revert inrun. induction s as [|c s IH]; intros inrun H; [reflexivity|].
  cbn [collapse]. rewrite (H c) by now left.
  f_equal. apply IH. intros d Hd. apply H. now right.
Qed.

Lemma collapse_fixed f b s :
  isolated f b s = true -> collapse f [b] false s = s.
Proof.
  induction s as [|c s IH]; [reflexivity|]. cbn [isolated collapse].
  intros H. apply andb_true_iff in H. destruct H as [Hc Hs].
  destruct (f c) eqn:E; [|now rewrite IH].
  apply andb_true_iff in Hc. destruct Hc as [Hc Hn]. apply N.eqb_eq in Hc. subst c.
  cbn [app]. f_equal. rewrite <- (IH Hs) at 2.
  destruct s as [|d r]; [reflexivity|]. cbn [starts_in] in Hn.
  apply negb_true_iff in Hn. cbn [collapse]. now rewrite Hn.
Qed.

Lemma collapse_visible f by_ inrun s :
  (forall c, In c by_ -> f c = true) ->
  filter (fun c => negb (f c)) (collapse f by_ inrun s) = filter (fun c => negb (f c)) s.
Proof.
  intros Hby.
  assert (Hnone : filter (fun c => negb (f c)) by_ = []).
  { induction by_ as [|b r IHr]; [reflexivity|]. cbn [filter].
    rewrite (Hby b) by now left. apply IHr. intros c Hc. apply Hby. now right. }
  revert inrun. induction s as [|c s IH]; intros inrun; [reflexivity|].
  cbn [collapse filter]. destruct (f c) eqn:E; cbn [negb].
  - rewrite filter_app, IH. destruct inrun; [reflexivity | now rewrite Hnone].
  - cbn [filter]. now rewrite E, IH.
Qed.

Lemma isolated_units f b s c :
  isolated f b s = true -> In c s -> f c = true -> c = b.
Proof.
  induction s as [|d s IH]; [intros _ []|]. cbn [isolated].
  intros H [<- | Hin] Hc; apply andb_true_iff in H; destruct H as [Hd Hs].
  - rewrite Hc in Hd. apply andb_true_iff in Hd. now apply N.eqb_eq.
  - now apply IH.
Qed.

Lemma isolated_app f b x y :
  isolated f b (x ++ y) = true -> isolated f b x = true /\ isolated f b y = true.
Proof.
  induction x as [|c x IH]; [now split|]. cbn [app isolated].
  intros H. apply andb_true_iff in H. destruct H as [Hc Hs].
  destruct (IH Hs) as [Ha Hb]. split; [|exact Hb].
  rewrite Ha, andb_true_r. destruct (f c); [|reflexivity].
  apply andb_true_iff in Hc. destruct Hc as [-> Hn]. cbn [andb].
  destruct x as [|d x]; [reflexivity | exact Hn].
Qed.

Lemma isolated_no_double f b s :
  f b = true -> isolated f b s = true -> ~ Contains s [b; b].
Proof.
  intros Hb H [x [y E]]. subst s. apply isolated_app in H. destruct H as [_ H].
  cbn [app isolated starts_in] in H. rewrite Hb, N.eqb_refl in H. discriminate.
Qed.

Lemma trimStart_suffix s : exists a, s = a ++ trimStart s /\ visible a = [].
Proof.
  induction s as [|c s [a [Ha Hv]]]; [now exists []|]. cbn [trimStart].
  destruct (is_space c) eqn:E.
  - exists (c :: a). cbn [app]. split; [now f_equal|]. unfold visible in *. cbn [filter].
    now rewrite E.
  - now exists [].
Qed.

Lemma visible_rev s : visible (rev s) = rev (visible s).
Proof.
  unfold visible. induction s as [|c s IH]; [reflexivity|]. cbn [rev filter].
  rewrite filter_app, IH. cbn [filter]. destruct (negb (is_space c)); [reflexivity|].
  now rewrite app_nil_r.
Qed.

Lemma trimEnd_prefix s : exists b, s = trimEnd s ++ b /\ visible b = [].
Proof.
  unfold trimEnd. destruct (trimStart_suffix (rev s)) as [a [Ha Hv]].
  exists (rev a). split.
  - rewrite <- rev_app_distr, <- Ha. now rewrite rev_involutive.
  - rewrite visible_rev, Hv. reflexivity.
Qed.

Lemma trimStart_head s : starts_with_space (trimStart s) = false.
Proof.
  induction s as [|c s IH]; [reflexivity|]. cbn [trimStart].
  destruct (is_space c) eqn:E; [exact IH | exact E].
Qed.

Lemma trimEnd_last s : starts_with_space (rev (trimEnd s)) = false.
Proof. unfold trimEnd. rewrite rev_involutive. apply trimStart_head. Qed.

Lemma trim_sandwich s :
  exists a b, s = a ++ trim s ++ b /\ visible a = [] /\ visible b = [].
Proof.
  destruct (trimStart_suffix s) as [a [Ha Hva]].
  destruct (trimEnd_prefix (trimStart s)) as [b [Hb Hvb]].
  exists a, b. unfold trim. now rewrite <- Hb.
Qed.

Lemma trim_head s : starts_with_space (trim s) = false.
Proof.
  unfold trim. destruct (trimEnd_prefix (trimStart s)) as [b [Hb _]].
  pose proof (trimStart_head s) as H. rewrite Hb in H.
  destruct (trimEnd (trimStart s)); [reflexivity | exact H].
Qed.

Lemma trim_last s : starts_with_space (rev (trim s)) = false.
Proof. apply trimEnd_last. Qed.

Lemma trimStart_fixed s : starts_with_space s = false -> trimStart s = s.
Proof. destruct s as [|c s]; [reflexivity|]. cbn. now intros ->. Qed.

Lemma trim_fixed s :
  starts_with_space s = false -> starts_with_space (rev s) = false -> trim s = s.
Proof.
  intros H1 H2. unfold trim, trimEnd. rewrite (trimStart_fixed _ H1), (trimStart_fixed _ H2).
  apply rev_involutive.
Qed.

Lemma visible_app a b : visible (a ++ b) = visible a ++ visible b.
Proof. apply filter_app. Qed.

Lemma visible_trim s : visible (trim s) = visible s.
Proof.
  destruct (trim_sandwich s) as [a [b [E [Ha Hb]]]]. rewrite E at 2.
  now rewrite !visible_app, Ha, Hb, app_nil_r.
Qed.

Lemma isolated_trim f b s : isolated f b s = true -> isolated f b (trim s) = true.
Proof.
  destruct (trim_sandwich s) as [x [y [E _]]]. rewrite E at 1. intros H.
  apply isolated_app in H. destruct H as [_ H].
  now apply isolated_app in H.
Qed.

(* ------------------------------------------------------------------ *)
(** ** Cleaning a text *)

(** What [cleanText] does to a non-empty text. *)
Lemma cleanText_collapse text :
  cleanText text = trim (collapse is_space [32] false text).
Proof.
  unfold cleanText. destruct text as [|c r]; [reflexivity|]. cbn [nonempty negb].
  unfold space. rewrite replaceAll_plus_Cls. change (u " ") with [32].
  unfold oneof. rewrite replaceAll_plus_Cls. f_equal.
  apply collapse_no_unit. intros d Hd.
  destruct (existsb (N.eqb d) [10; 13; 9]) eqn:E; [|reflexivity].
  assert (Hs : is_space d = true).
  { cbn in E. repeat (apply orb_true_iff in E; destruct E as [E | E]);
      try discriminate; apply N.eqb_eq in E; subst d; reflexivity. }
  rewrite (isolated_units _ _ _ d (collapse_isolated is_space 32 false (c :: r)) Hd Hs) in E.
  discriminate.
Qed.

(** X1: [cleanText] returns a text whose only white space is single U+0020
    units: no other white-space unit, no two spaces in a row, none at either
    end; its visible units are those of the input, in their order. *)
Theorem cleanText_normal_form (text : jsstring) :
  let t := cleanText text in
  (forall c, In c t -> is_space c = true -> c = 32) /\
  ~ Contains t [32; 32] /\
  starts_with_space t = false /\
  ends_with_space t = false /\
  visible t = visible text.
Proof.
  cbv zeta. rewrite cleanText_collapse.
  pose proof (isolated_trim _ _ _ (collapse_isolated is_space 32 false text)) as H.
  split; [intros c; now apply (@isolated_units is_space 32 _ c H)|].
  split; [now apply isolated_no_double with (f := is_space)|].
  split; [apply trim_head|]. split; [apply trim_last|].
  rewrite visible_trim. apply collapse_visible.
  intros c [<- | []]. reflexivity.
Qed.

(** X2: cleaning a cleaned text changes nothing; the texts that cleaning leaves
    as they are are the single-spaced texts that neither start nor end with
    white space. *)
Theorem cleanText_idempotent (text : jsstring) :
  cleanText (cleanText text) = cleanText text /\
  (cleanText text = text <->
   single_spaced text = true /\ starts_with_space text = false /\
   ends_with_space text = false).
Proof.
  assert (Hfix : forall s, single_spaced s = true -> starts_with_space s = false ->
                           ends_with_space s = false -> cleanText s = s).
  { intros s H1 H2 H3. rewrite cleanText_collapse, (collapse_fixed _ _ _ H1).
    now apply trim_fixed. }
  assert (Hnf : forall s, single_spaced (cleanText s) = true /\
                          starts_with_space (cleanText s) = false /\
                          ends_with_space (cleanText s) = false).
  { intros s. rewrite cleanText_collapse.
    split; [apply isolated_trim, collapse_isolated|].
    split; [apply trim_head | apply trim_last]. }
  split.
  - destruct (Hnf text) as [H1 [H2 H3]]. now apply Hfix.
  - split.
    + intros E. rewrite <- E. apply Hnf.
    + intros [H1 [H2 H3]]. now apply Hfix.
Qed.

(* ------------------------------------------------------------------ *)
(** ** Salary texts without a digit *)

Lemma match_here_leading_run f r2 bef s :
  match s with c :: _ => f c = false | [] => True end ->
  match_here (Seq (Grp (plus (Cls f))) r2) bef s = None.
Proof.
  intros H. unfold match_here, plus. rewrite run_Seq, run_Grp, run_Seq, run_Cls. cbn [rest].
  destruct s as [|c s']; [reflexivity|]. now rewrite H.
Qed.

Lemma exec_from_leading_run f r2 s :
  (forall c, In c s -> f c = false) ->
  forall bef pre, exec_from (Seq (Grp (plus (Cls f))) r2) bef pre s = None.
Proof.
  induction s as [|c s IH]; intros H bef pre; cbn [exec_from].
  - now rewrite match_here_leading_run.
  - rewrite match_here_leading_run by (apply H; now left).
    apply IH. intros d Hd. apply H. now right.
Qed.

Lemma normalized_visible text : normalized text = visible (toLowerCase text).
Proof.
  unfold normalized, space, visible. rewrite replaceAll_Cls.
  induction (toLowerCase text) as [|c s IH]; [reflexivity|].
  cbn [flat_map filter]. destruct (is_space c); cbn [negb app]; now rewrite IH.
Qed.

Lemma lower_unit_digit c : decimal_digit (lower_unit c) = true -> decimal_digit c = true.
Proof.
  unfold decimal_digit, lower_unit.
  destruct ((65 <=? c) && (c <=? 90))%N eqn:E1.
  - apply andb_true_iff in E1. destruct E1 as [H1 H2].
    apply N.leb_le in H1, H2. intros H. apply andb_true_iff in H. destruct H as [_ H].
    apply N.leb_le in H. lia.
  - destruct ((192 <=? c) && (c <=? 222) && negb (c =? 215))%N eqn:E2; [|trivial].
    apply andb_true_iff in E2. destruct E2 as [E2 _].
    apply andb_true_iff in E2. destruct E2 as [H1 H2].
    apply N.leb_le in H1, H2. intros H. apply andb_true_iff in H. destruct H as [_ H].
    apply N.leb_le in H. lia.
Qed.

Lemma lower_units_digit d c :
  In c (lower_units d) -> decimal_digit c = true -> decimal_digit d = true.
Proof.
  unfold lower_units.
  repeat match goal with
         | |- context [if ?b then _ else _] => destruct b
         end;
    cbn [In]; intros Hc E;
    repeat (destruct Hc as [<- | Hc]; [try discriminate|]); try contradiction.
  now apply lower_unit_digit.
Qed.

Lemma normalized_digits text :
  (forall c, In c text -> decimal_digit c = false) ->
  forall c, In c (normalized text) -> decimal_digit c = false.
Proof.
  intros H c Hc. rewrite normalized_visible in Hc. unfold visible in Hc.
  apply filter_In in Hc. destruct Hc as [Hc _]. unfold toLowerCase in Hc.
  apply in_flat_map in Hc. destruct Hc as [d [Hd Hc]].
  destruct (decimal_digit c) eqn:E; [|reflexivity].
  apply (lower_units_digit _ _ Hc) in E. now rewrite (H d Hd) in E.
Qed.

(** X3: [parseSalary] answers only for a text that contains a decimal digit; its
    answer then carries two numbers and one of four currency codes. *)
Theorem parseSalary_needs_a_digit (text : jsstring) :
  ((forall c, In c text -> decimal_digit c = false) -> parseSalary text = None) /\
  (forall s, parseSalary text = Some s ->
     (exists a b, min s = VNum a /\ max s = VNum b) /\
     (exists code, currency s = VStr code /\ In code currencies)).
Proof.
  split.
  - intros H. unfold parseSalary. fold (normalized text).
    destruct (nonempty text); [|reflexivity]. cbn [negb].
    pose proof (normalized_digits _ H) as Hn.
    assert (Hr : exec range_pattern (normalized text) = None)
      by exact (@exec_from_leading_run decimal_digit
                  (seqs [opt (chr 107); oneof (u "-–à"); Grp (plus digit); opt (chr 107)])
                  _ Hn None []).
    assert (Hs : exec single_pattern (normalized text) = None)
      by exact (@exec_from_leading_run decimal_digit
                  (seqs [opt (chr 107); oneof (u "€$£")]) _ Hn None []).
    now rewrite Hr, Hs.
  - intros s. unfold parseSalary. fold (normalized text).
    destruct (nonempty text); [|discriminate]. cbn [negb]. cbv zeta.
    destruct (exec range_pattern (normalized text)) as [m|].
    + intros E. injection E as <-. cbn [min max currency].
      split; [eauto|].
      destruct (includes (normalized text) (u "chf")),
               (includes (normalized text) (u "£")),
               (includes (normalized text) (u "$"));
        eexists; (split; [reflexivity|]); unfold currencies; cbn [In]; tauto.
    + destruct (exec single_pattern (normalized text)) as [m|]; [|discriminate].
      intros E. injection E as <-. cbn [min max currency].
      split; [eauto|].
      destruct (includes (normalized text) (u "£")),
               (includes (normalized text) (u "$"));
        eexists; (split; [reflexivity|]); unfold currencies; cbn [In]; tauto.
Qed.

(* ------------------------------------------------------------------ *)
(** ** Skills found in a text *)

Lemma distinct_NoDup l : distinct l = true -> NoDup l.
Proof.
  induction l as [|x l IH]; [constructor|]. cbn [distinct].
  intros H. apply andb_true_iff in H. destruct H as [Hx Hl].
  constructor; [|now apply IH].
  intros Hin. apply existsb_str_eqb_In in Hin. now rewrite Hin in Hx.
Qed.

Lemma unique_NoDup seen l :
  NoDup l -> (forall x, In x l -> ~ In x seen) -> unique seen l = l.
Proof.
  intros Hl. revert seen. induction Hl as [|x l Hx _ IH]; intros seen Hs; [reflexivity|].
  cbn [unique].
  destruct (existsb (str_eqb x) seen) eqn:E.
  - apply existsb_str_eqb_In in E. exfalso. apply (Hs x); [now left | exact E].
  - f_equal. apply IH. intros y Hy [<- | Hin]; [contradiction|].
    apply (Hs y); [now right | exact Hin].
Qed.

Lemma knownSkills_distinct : NoDup knownSkills.
Proof. apply distinct_NoDup. vm_compute. reflexivity. Qed.

Lemma Contains_trans s p q : Contains s p -> Contains p q -> Contains s q.
Proof.
  intros [a [b ->]] [c [d ->]]. exists (a ++ c), (d ++ b). now rewrite <- !app_assoc.
Qed.

Lemma extractSkillsFromText_filter text :
  extractSkillsFromText text
  = filter (fun skill => includes (toLowerCase text) (toLowerCase skill)) knownSkills.
Proof.
  unfold extractSkillsFromText. cbv zeta. apply unique_NoDup.
  - apply NoDup_filter, knownSkills_distinct.
  - intros x _ [].
Qed.

Lemma In_extractSkillsFromText text skill :
  In skill (extractSkillsFromText text) <->
  In skill knownSkills /\ Contains (toLowerCase text) (toLowerCase skill).
Proof. now rewrite extractSkillsFromText_filter, filter_In, includes_Contains. Qed.

(** X4: [extractSkillsFromText] reports the known skills whose lower-cased name
    occurs in the lower-cased text, each once, in the order of the list of
    known skills. *)
Theorem extractSkillsFromText_spec (text : jsstring) :
  extractSkillsFromText text
  = filter (fun skill => includes (toLowerCase text) (toLowerCase skill)) knownSkills /\
  NoDup (extractSkillsFromText text) /\
  (forall skill,
     In skill (extractSkillsFromText text) <->
     In skill knownSkills /\ Contains (toLowerCase text) (toLowerCase skill)).
Proof.
  split; [apply extractSkillsFromText_filter|]. split.
  - rewrite extractSkillsFromText_filter. apply NoDup_filter, knownSkills_distinct.
  - apply In_extractSkillsFromText.
Qed.

(** X5: a skill is searched as a substring: a text in which "JavaScript" is found
    is also reported to mention "Java", and one in which "Django" or "MongoDB"
    is found to mention "Go". *)
Theorem extractSkillsFromText_substrings (text : jsstring) :
  (In (u "JavaScript") (extractSkillsFromText text) ->
   In (u "Java") (extractSkillsFromText text)) /\
  (In (u "Django") (extractSkillsFromText text) \/
   In (u "MongoDB") (extractSkillsFromText text) ->
   In (u "Go") (extractSkillsFromText text)).
Proof.
  assert (H : forall long short,
             In short knownSkills ->
             includes (toLowerCase long) (toLowerCase short) = true ->
             In long (extractSkillsFromText text) ->
             In short (extractSkillsFromText text)).
  { intros long short Hs Hi Hl. apply In_extractSkillsFromText in Hl.
    apply In_extractSkillsFromText.
    split; [exact Hs|]. apply Contains_trans with (p := toLowerCase long); [tauto|].
    now apply includes_Contains. }
  assert (Hin : forall s, existsb (str_eqb s) knownSkills = true -> In s knownSkills)
    by (intros s; apply existsb_str_eqb_In).
  split.
  - apply H; [apply Hin|]; reflexivity.
  - intros [Hd | Hm]; [apply (H (u "Django")) | apply (H (u "MongoDB"))];
      try exact Hd; try exact Hm; try apply Hin; reflexivity.
Qed.

(* ------------------------------------------------------------------ *)
(** ** Contract types *)

Lemma normalizeContractType_range type :
  In (Generic.normalizeContractType type) contractLabels \/
  (Generic.normalizeContractType type = type /\
   forall other, toLowerCase other = toLowerCase type ->
                 Generic.normalizeContractType other = other).
Proof.
  unfold Generic.normalizeContractType at 1 2. cbv zeta.
  repeat match goal with
         | |- context [if ?b then _ else _] =>
             destruct b eqn:?; [left; unfold contractLabels; cbn [In]; tauto|]
         end.
  right. split; [reflexivity|]. intros other E.
  unfold Generic.normalizeContractType. cbv zeta. rewrite E.
  repeat match goal with
         | H : ?b = false |- context [if ?b then _ else _] => rewrite H
         end.
  reflexivity.
Qed.

(** X6: normalising a contract type twice is normalising it once. *)
Theorem normalizeContractType_idempotent (type : jsstring) :
  Generic.normalizeContractType (Generic.normalizeContractType type)
  = Generic.normalizeContractType type.
Proof.
  destruct (normalizeContractType_range type) as [H | [H _]]; [|now rewrite H].
  unfold contractLabels in H. cbn [In] in H.
  destruct H as [<- | [<- | [<- | [<- | [<- | [<- | []]]]]]]; reflexivity.
Qed.

(** X7: a type that mentions a contractor is filed under CDI or CDD, by the
    rules on "full", "permanent" and "contract": the rule that would file
    it under Freelance is never reached. *)
Theorem normalizeContractType_contractor (type : jsstring) :
  Contains (toLowerCase type) (u "contractor") ->
  Generic.normalizeContractType type = u "CDI" \/
  Generic.normalizeContractType type = u "CDD".
Proof.
  intros H.
  assert (Hc : includes (toLowerCase type) (u "contract") = true).
  { apply includes_Contains. apply Contains_trans with (p := u "contractor"); [exact H|].
    now apply includes_Contains. }
  unfold Generic.normalizeContractType. cbv zeta. rewrite Hc, orb_true_r. cbn [orb].
  destruct (_ || _ || _); [now left | now right].
Qed.

Lemma normalizeContractType_contractor_witness :
  Contains (toLowerCase (u "Independent Contractor")) (u "contractor") /\
  (Generic.normalizeContractType (u "Independent Contractor") = u "CDI" \/
   Generic.normalizeContractType (u "Independent Contractor") = u "CDD").
Proof.
  assert (H : Contains (toLowerCase (u "Independent Contractor")) (u "contractor"))
    by (apply includes_Contains; reflexivity).
  split; [exact H | exact (normalizeContractType_contractor _ H)].
Defined.

(* ------------------------------------------------------------------ *)
(** ** The domain of a URL *)

Lemma exec_from_Bol r c pre s :
  exec_from (Seq (Bol false) r) (Some c) pre s = None.
Proof.
  revert c pre. induction s as [|d s IH]; intros c pre; [reflexivity|].
  cbn [exec_from]. unfold match_here. rewrite run_Seq. cbn [run before andb]. apply IH.
Qed.

Lemma replaceFirst_www h :
  replaceFirst (Seq (Bol false) (lit "www.")) [] h
  = if startsWith h (u "www.") then skipn 4 h else h.
Proof.
  change (lit "www.") with (Seq (chr 119) (Seq (chr 119) (Seq (chr 119) (chr 46)))).
  change (u "www.") with [119; 119; 119; 46]%N.
  unfold replaceFirst, exec.
  destruct h as [|c1 h]; [reflexivity|].
  cbn [exec_from]. rewrite exec_from_Bol.
  unfold match_here, chr. rewrite run_Seq. cbn [run before rest startsWith].
  destruct (119 =? c1)%N; [|reflexivity]. cbn [advance_to rest andb].
  destruct h as [|c2 h]; [reflexivity|]. cbn [startsWith].
  destruct (119 =? c2)%N; [|reflexivity]. cbn [advance_to rest andb].
  destruct h as [|c3 h]; [reflexivity|]. cbn [startsWith].
  destruct (119 =? c3)%N; [|reflexivity]. cbn [advance_to rest andb].
  destruct h as [|c4 h]; [reflexivity|]. cbn [startsWith].
  destruct (46 =? c4)%N; [|reflexivity]. now destruct h.
Qed.

(** X8: [getDomain] answers the empty string for a URL that does not parse, and
    otherwise the host name without one leading "www.". *)
Theorem getDomain_spec {P : Platform} (url : jsstring) :
  match URL_hostname url with
  | None => getDomain url = []
  | Some hostname =>
      getDomain url = (if startsWith hostname (u "www.") then skipn 4 hostname else hostname)
      /\ forall d, hostname = u "www." ++ d -> getDomain url = d
  end.
Proof.
  unfold getDomain. destruct (URL_hostname url) as [h|]; [|reflexivity].
  rewrite replaceFirst_www. split; [reflexivity|].
  intros d ->. change (u "www.") with [119; 119; 119; 46]%N.
  cbn [app startsWith]. rewrite !N.eqb_refl. now destruct d.
Qed.

(* ------------------------------------------------------------------ *)
(** ** The order of the registry *)

Lemma insert_Permutation e l : Permutation (e :: l) (Registry.insert e l).
Proof.
  induction l as [|x l IH]; [reflexivity|]. cbn [Registry.insert].
  destruct (priority x <=? priority e)%Z; [reflexivity|].
  rewrite perm_swap. now constructor.
Qed.

Lemma insert_sorted e l :
  StronglySorted before_or_tied l -> StronglySorted before_or_tied (Registry.insert e l).
Proof.
  induction 1 as [|x l Hl IH Hx]; [repeat constructor|]. cbn [Registry.insert].
  destruct (priority x <=? priority e)%Z eqn:E.
  - apply Z.leb_le in E. constructor; [now constructor|].
    constructor; [exact E|]. eapply Forall_impl; [|exact Hx].
    unfold before_or_tied. intros y Hy. lia.
  - apply Z.leb_gt in E. constructor; [exact IH|].
    apply (Permutation_Forall (insert_Permutation e l)).
    constructor; [unfold before_or_tied; lia | exact Hx].
Qed.

Lemma insert_of_priority p e l :
  filter (of_priority p) (Registry.insert e l)
  = if of_priority p e then e :: filter (of_priority p) l else filter (of_priority p) l.
Proof.
  induction l as [|x l IH]; [reflexivity|]. cbn [Registry.insert].
  destruct (priority x <=? priority e)%Z eqn:E; [reflexivity|].
  cbn [filter]. rewrite IH. apply Z.leb_gt in E.
  unfold of_priority in *.
  destruct (priority e =? p)%Z eqn:Ee; [|reflexivity].
  apply Z.eqb_eq in Ee.
  replace (priority x =? p)%Z with false by (symmetry; apply Z.eqb_neq; lia).
  reflexivity.
Qed.

Lemma sort_Permutation l : Permutation l (Registry.sort l).
Proof.
  induction l as [|e l IH]; [reflexivity|]. cbn [Registry.sort fold_right].
  rewrite <- insert_Permutation. now constructor.
Qed.

Lemma sort_sorted l : StronglySorted before_or_tied (Registry.sort l).
Proof.
  induction l as [|e l IH]; [constructor|]. now apply insert_sorted.
Qed.

Lemma sort_of_priority p l :
  filter (of_priority p) (Registry.sort l) = filter (of_priority p) l.
Proof.
  induction l as [|e l IH]; [reflexivity|]. cbn [Registry.sort fold_right filter].
  fold (Registry.sort l). rewrite insert_of_priority, IH. reflexivity.
Qed.

(** X9: the order of the registry is a stable sort of the registered
    strategies, the higher priority first: the same strategies, none placed
    before one of higher priority, and those of equal priority in the order
    of their registration. *)
Theorem sort_by_priority_stable (l : list Extractor) :
  Permutation l (Registry.sort l) /\
  StronglySorted before_or_tied (Registry.sort l) /\
  (forall p, filter (of_priority p) (Registry.sort l) = filter (of_priority p) l).
Proof.
  split; [apply sort_Permutation|]. split; [apply sort_sorted|].
  intros p. apply sort_of_priority.
Qed.

Lemma filter_Permutation {A} (f : A -> bool) l l' :
  Permutation l l' -> Permutation (filter f l) (filter f l').
Proof.
  induction 1 as [|x l l' _ IH|x y l|l l' l'' _ IH1 _ IH2]; cbn [filter].
  - constructor.
  - destruct (f x); [now constructor | exact IH].
  - destruct (f x), (f y); try reflexivity. apply perm_swap.
  - now transitivity (filter f l').
Qed.

Lemma StronglySorted_tail {A} (R : A -> A -> Prop) a b :
  StronglySorted R (a ++ b) -> StronglySorted R b.
Proof.
  induction a as [|x a IH]; [trivial|]. cbn [app]. intros H.
  apply StronglySorted_inv in H. now apply IH.
Qed.

Section FallbackLast.
Context {P : Platform}.

Lemma registered_priorities e :
  In e Registry.registered -> priority e = 10%Z \/ e = Generic.genericExtractor.
Proof.
  unfold Registry.registered. cbn [In].
  intros [<- | [<- | [<- | [<- | []]]]]; auto.
Qed.

(** X10: in whatever order the four strategies are registered, the Generic
    strategy is tried last. *)
Theorem generic_is_tried_last (l : list Extractor) :
  Permutation l Registry.registered ->
  exists pre, Registry.sort l = pre ++ [Generic.genericExtractor] /\
              Forall (fun e => priority e = 10%Z) pre.
Proof.
  intros Hl.
  assert (Hs : Permutation (Registry.sort l) Registry.registered)
    by (rewrite <- Hl; symmetry; apply sort_Permutation).
  assert (Hg : In Generic.genericExtractor (Registry.sort l)).
  { apply (Permutation_in _ (Permutation_sym Hs)). unfold Registry.registered.
    cbn [In]. tauto. }
  apply in_split in Hg. destruct Hg as [pre [post E]].
  assert (Hzero : filter (of_priority 0) (Registry.sort l) = [Generic.genericExtractor]).
  { rewrite sort_of_priority.
    apply Permutation_length_1_inv.
    change [Generic.genericExtractor] with (filter (of_priority 0) Registry.registered).
    apply Permutation_sym. now apply filter_Permutation. }
  pose proof (sort_sorted l) as Hsorted. rewrite E in Hsorted, Hzero.
  assert (Hin : forall e, In e (pre ++ Generic.genericExtractor :: post) ->
                          priority e = 10%Z \/ e = Generic.genericExtractor).
  { intros e He. apply registered_priorities. apply (Permutation_in _ Hs). now rewrite E. }
  rewrite filter_app in Hzero. cbn [filter] in Hzero.
  change (of_priority 0 Generic.genericExtractor) with true in Hzero.
  assert (Hpre : filter (of_priority 0) pre = [] /\ filter (of_priority 0) post = []).
  { destruct (filter (of_priority 0) pre) as [|a r].
    - cbn [app] in Hzero. injection Hzero as Hp. now split.
    - cbn [app] in Hzero. injection Hzero as _ Hr. now destruct r. }
  destruct Hpre as [Hpre Hpost].
  apply StronglySorted_tail in Hsorted.
  apply StronglySorted_inv in Hsorted. destruct Hsorted as [_ Hafter].
  assert (post = []).
  { destruct post as [|y post]; [reflexivity|]. exfalso.
    assert (Hy : of_priority 0 y = true).
    { inversion Hafter as [|? ? Hy' _]; subst. unfold before_or_tied in Hy'.
      change (priority Generic.genericExtractor) with 0%Z in Hy'.
      destruct (Hin y) as [H10 | ->]; [apply in_or_app; right; right; now left | lia |].
      reflexivity. }
    cbn [filter] in Hpost. rewrite Hy in Hpost. discriminate. }
  subst post. exists pre. split; [exact E|].
  apply Forall_forall. intros e He.
  destruct (Hin e) as [H10 | ->]; [apply in_or_app; now left | exact H10 |].
  exfalso. assert (Hf : In Generic.genericExtractor (filter (of_priority 0) pre))
    by (apply filter_In; split; [exact He | reflexivity]).
  now rewrite Hpre in Hf.
Qed.

End FallbackLast.

(** The four strategies registered in the reverse order. *)
Lemma generic_is_tried_last_witness :
  exists pre,
    Registry.sort [ Generic.genericExtractor;
                    WelcomeToTheJungle.welcomeToTheJungleExtractor;
                    Indeed.indeedExtractor; LinkedIn.linkedInExtractor ]
    = pre ++ [Generic.genericExtractor] /\
    Forall (fun e => priority e = 10%Z) pre.
Proof.
  apply (@generic_is_tried_last platform).
  exact (Permutation_rev [ Generic.genericExtractor;
                           WelcomeToTheJungle.welcomeToTheJungleExtractor;
                           Indeed.indeedExtractor; LinkedIn.linkedInExtractor ]).
Defined.

(* ------------------------------------------------------------------ *)
(** ** Structured data: the classifier and the Generic strategy *)

Lemma is_str_eq v s : is_str v s = true -> v = VStr s.
Proof.
  destruct v; try discriminate. cbn [is_str]. intros H. apply str_eqb_eq in H. now subst.
Qed.

Lemma posting_truthy g ty :
  get g (u "@type") = Normal ty -> is_str ty (u "JobPosting") = true ->
  is_posting g /\ truthy g = true.
Proof.
  intros Hg Hs. apply is_str_eq in Hs. subst ty. split; [exact Hg|].
  destruct g; try reflexivity; cbn in Hg; discriminate.
Qed.

Lemma firstOf_Some {A B} (body : A -> option B) l y :
  firstOf body l = Some y -> exists x, In x l /\ body x = Some y.
Proof.
  induction l as [|x l IH]; [discriminate|]. cbn [firstOf].
  destruct (body x) as [z|] eqn:E.
  - intros H. injection H as <-. exists x. split; [now left | exact E].
  - intros H. destruct (IH H) as [x' [Hin Hx]]. exists x'. split; [now right | exact Hx].
Qed.

Lemma firstOf_None {A B} (body : A -> option B) l :
  firstOf body l = None <-> forall x, In x l -> body x = None.
Proof.
  induction l as [|x l IH]; cbn [firstOf].
  - split; [intros _ x [] | reflexivity].
  - destruct (body x) as [z|] eqn:E.
    + split; [discriminate|]. intros H. rewrite <- E. apply H. now left.
    + rewrite IH. split.
      * intros H y [<- | Hy]; [exact E | now apply H].
      * intros H y Hy. apply H. now right.
Qed.

Section StructuredData.
Context {P : Platform}.
Import Registry Generic.

Lemma somePosting_findPosting l :
  match somePosting l with
  | Normal true => exists g, findPosting l = Normal (Some g) /\ is_posting g /\ truthy g = true
  | Normal false => findPosting l = Normal None
  | Throw e => findPosting l = Throw e
  end.
Proof.
  induction l as [|g l IH]; [reflexivity|]. cbn [somePosting findPosting].
  destruct (get g (u "@type")) as [ty|e] eqn:Hg; cbn [cbind]; [|reflexivity].
  destruct (is_str ty (u "JobPosting")) eqn:Hs; [|exact IH].
  exists g. split; [reflexivity|]. now apply posting_truthy with (ty := ty).
Qed.

Lemma findPosting_posting l g : findPosting l = Normal (Some g) -> is_posting g.
Proof.
  induction l as [|x l IH]; [discriminate|]. cbn [findPosting].
  destruct (get x (u "@type")) as [ty|e] eqn:Hg; cbn [cbind]; [|discriminate].
  destruct (is_str ty (u "JobPosting")) eqn:Hs; [|exact IH].
  intros H. injection H as <-. now apply posting_truthy with (ty := ty).
Qed.

Lemma scanItems_posting items g : scanItems items = Normal (Some g) -> is_posting g.
Proof.
  induction items as [|item r IH]; [discriminate|]. cbn [scanItems].
  destruct (get item (u "@type")) as [ty|e] eqn:Hg; cbn [cbind]; [|discriminate].
  destruct (is_str ty (u "JobPosting")) eqn:Hs.
  - intros H. injection H as <-. now apply posting_truthy with (ty := ty).
  - destruct (get item (u "@graph")) as [graph|e]; cbn [cbind]; [|discriminate].
    destruct (truthy graph); [|exact IH].
    destruct graph as [| | | | |l|]; cbn [cbind]; try discriminate.
    destruct (findPosting l) as [[x|]|e] eqn:Hf; cbn [cbind]; try discriminate; [|exact IH].
    destruct (truthy x); [|exact IH].
    intros H. injection H as <-. now apply findPosting_posting with (l := l).
Qed.

Lemma hasPosting_scanItems items :
  hasPosting items = Normal true ->
  exists g, scanItems items = Normal (Some g).
Proof.
  induction items as [|item r IH]; [discriminate|]. cbn [hasPosting scanItems].
  destruct (get item (u "@type")) as [ty|e] eqn:Hg; cbn [cbind]; [|discriminate].
  destruct (is_str ty (u "JobPosting")) eqn:Hs; [eauto|].
  destruct (get item (u "@graph")) as [graph|e]; cbn [cbind]; [|discriminate].
  destruct graph as [| | | | |l|]; cbn [cbind truthy]; try discriminate; try exact IH.
  pose proof (somePosting_findPosting l) as Hl.
  destruct (somePosting l) as [[|]|e]; cbn [cbind]; [| |discriminate].
  - destruct Hl as [g [-> [_ Ht]]]. cbn [cbind]. rewrite Ht. eauto.
  - rewrite Hl. cbn [cbind]. exact IH.
Qed.

Lemma scriptHasPosting_scanScript script :
  scriptHasPosting script = true -> exists g, scanScript script = Normal (Some g).
Proof.
  unfold scriptHasPosting, scanScript.
  destruct (JSON_parse (textContent script)) as [data|]; [|discriminate].
  destruct (hasPosting _) as [[|]|e] eqn:E; try discriminate.
  intros _. now apply hasPosting_scanItems.
Qed.

Lemma extractJsonLd_posting doc data : extractJsonLd doc = Some data -> is_posting data.
Proof.
  unfold extractJsonLd. intros H. apply firstOf_Some in H. destruct H as [script [_ H]].
  unfold scanScript in H.
  destruct (JSON_parse (textContent script)) as [v|]; [|discriminate].
  destruct (scanItems _) as [found|e] eqn:E; [|discriminate]. subst found.
  now apply scanItems_posting in E.
Qed.

Lemma structuredDataScore_found doc :
  structuredDataScore doc = 5%Z -> exists data, extractJsonLd doc = Some data.
Proof.
  unfold structuredDataScore. rewrite structuredData_fold.
  destruct (existsb scriptHasPosting _) eqn:E; [|discriminate]. intros _.
  apply existsb_exists in E. destruct E as [script [Hin Hs]].
  apply scriptHasPosting_scanScript in Hs. destruct Hs as [g Hg].
  destruct (extractJsonLd doc) as [data|] eqn:Hd; [eauto|].
  unfold extractJsonLd in Hd. rewrite firstOf_None in Hd.
  specialize (Hd script Hin). now rewrite Hg in Hd.
Qed.

(** X11: when the classifier credits a page with structured data, the Generic
    strategy finds a JobPosting in it; and what the Generic strategy finds is
    always a value whose [@type] is "JobPosting". *)
Theorem structured_data_is_found (doc : Document) :
  (structuredDataScore doc = 5%Z -> exists data, extractJsonLd doc = Some data) /\
  (forall data, extractJsonLd doc = Some data ->
                get data (u "@type") = Normal (VStr (u "JobPosting"))).
Proof.
  split; [apply structuredDataScore_found | apply extractJsonLd_posting].
Qed.

End StructuredData.

(* ------------------------------------------------------------------ *)
(** ** The Generic strategy and its structured data *)

Ltac head_symbol t :=
  lazymatch t with
  | ?f _ => head_symbol f
  | _ => t
  end.

Ltac offer_fields :=
  unfold Generic.set_title, Generic.set_company, Generic.set_location,
         Generic.set_remoteType, Generic.set_description, Generic.set_contractType,
         Generic.set_salary, Generic.set_skills, Generic.set_publishedAt;
  cbn [sourceUrl sourceDomain title company location remoteType description
       contractType experience salary skills publishedAt capturedAt].

Section GenericSources.
Context {P : Platform}.

(** A step of [Generic.applyJsonLdData] that leaves the title alone. *)
Ltac keeps_title H :=
  repeat match type of H with
         | (if ?b then _ else _) = _ => destruct b
         | cbind ?x _ = _ => destruct x; cbn [cbind] in H
         | match ?x with _ => _ end = _ => destruct x
         end;
  try discriminate; injection H as <-; offer_fields; reflexivity.

Lemma applyJsonLdData_title o data o' v :
  Generic.applyJsonLdData o data = Normal o' ->
  get data (u "title") = Normal v ->
  title o' = if truthy v
             then match v with VStr s => Some (cleanText s) | _ => title o' end
             else title o.
Proof.
  unfold Generic.applyJsonLdData. intros H Hv. rewrite Hv in H. cbn [cbind] in H.
  destruct (if truthy v then _ else _) as [o1|e] eqn:E1; cbn [cbind] in H; [|discriminate].
  assert (H1 : title o1 = if truthy v
                          then match v with VStr s => Some (cleanText s) | _ => title o1 end
                          else title o).
  { destruct (truthy v) eqn:Ht.
    - unfold cleanText_val in E1. rewrite Ht in E1. cbn [negb] in E1.
      destruct v; try reflexivity. cbn [cbind] in E1. injection E1 as <-. reflexivity.
    - now injection E1 as <-. }
  assert (Hsame : title o' = title o1).
  { clear E1 H1 Hv.
    destruct (get data (u "description")) as [v2|]; cbn [cbind] in H; [|discriminate].
    destruct (if truthy v2 then _ else _) as [o2|] eqn:E2; cbn [cbind] in H; [|discriminate].
    assert (T2 : title o2 = title o1) by keeps_title E2.
    destruct (get data (u "hiringOrganization")) as [org|]; cbn [cbind] in H; [|discriminate].
    destruct (if truthy (get_opt org _) then _ else _) as [o3|] eqn:E3;
      cbn [cbind] in H; [|discriminate].
    assert (T3 : title o3 = title o2) by keeps_title E3.
    destruct (get data (u "jobLocation")) as [loc|]; cbn [cbind] in H; [|discriminate].
    destruct (if truthy (get_opt loc _) then _ else _) as [o4|] eqn:E4;
      cbn [cbind] in H; [|discriminate].
    assert (T4 : title o4 = title o3) by keeps_title E4.
    destruct (get data (u "employmentType")) as [v5|]; cbn [cbind] in H; [|discriminate].
    destruct (if truthy v5 then _ else _) as [o5|] eqn:E5; cbn [cbind] in H; [|discriminate].
    assert (T5 : title o5 = title o4) by keeps_title E5.
    destruct (get data (u "baseSalary")) as [bs|]; cbn [cbind] in H; [|discriminate].
    destruct (if truthy (get_opt bs _) then _ else _) as [o6|] eqn:E6;
      cbn [cbind] in H; [|discriminate].
    assert (T6 : title o6 = title o5) by keeps_title E6.
    destruct (get data (u "datePosted")) as [v7|]; cbn [cbind] in H; [|discriminate].
    destruct (get data (u "skills")) as [v8|]; cbn [cbind] in H; [|discriminate].
    injection H as <-.
    destruct (truthy v7), (truthy v8); offer_fields; congruence. }
  now rewrite Hsame.
Qed.

(** The steps after the structured data leave a title that is there alone. *)
Ltac step_keeps_title :=
  intros;
  match goal with |- title (?lhs) = _ => let step := head_symbol lhs in unfold step end;
  cbv zeta;
  repeat match goal with
         | H : has _ = true |- _ => rewrite H
         end;
  cbn [negb andb];
  try match goal with
      | |- context [if ?b then _ else _] => destruct b
      | |- context [match remoteType ?x with _ => _ end] => destruct (remoteType x) as [[]|]
      end;
  offer_fields; reflexivity.

Lemma meta_title_title doc o : has (title o) = true -> title (meta_title doc o) = title o.
Proof. step_keeps_title. Qed.

Lemma meta_description_title doc o : title (meta_description doc o) = title o.
Proof. step_keeps_title. Qed.

Lemma meta_company_title doc o : title (meta_company doc o) = title o.
Proof. step_keeps_title. Qed.

Lemma page_title_title doc o : has (title o) = true -> title (page_title doc o) = title o.
Proof. step_keeps_title. Qed.

Lemma page_description_title doc o : title (page_description doc o) = title o.
Proof. step_keeps_title. Qed.

Lemma page_company_title doc o : title (page_company doc o) = title o.
Proof. step_keeps_title. Qed.

Lemma page_location_title doc o : title (page_location doc o) = title o.
Proof. step_keeps_title. Qed.

Lemma derive_skills_title o : title (derive_skills o) = title o.
Proof. step_keeps_title. Qed.

Lemma derive_remoteType_title o : title (derive_remoteType o) = title o.
Proof. step_keeps_title. Qed.

Lemma fillFromPage_title o doc :
  has (title o) = true -> title (fillFromPage o doc) = title o.
Proof.
  intros H. unfold fillFromPage. rewrite extractMetaTags_steps.
  rewrite derive_remoteType_title, derive_skills_title, page_location_title,
    page_company_title, page_description_title.
  rewrite page_title_title; rewrite meta_company_title, meta_description_title;
    rewrite meta_title_title; auto.
Qed.

Lemma applyJsonLdData_malformed_title o data v :
  get data (u "title") = Normal v -> truthy v = true -> (forall s, v <> VStr s) ->
  Generic.applyJsonLdData o data = Throw TypeError.
Proof.
  intros Hv Ht Hs. unfold Generic.applyJsonLdData. rewrite Hv. cbn [cbind]. rewrite Ht.
  unfold cleanText_val. rewrite Ht. cbn [negb].
  destruct v; try reflexivity. now destruct (Hs s).
Qed.

(** X12: what a JobPosting says of the title is kept: when its title is a string
    that cleaning does not empty, a success of the Generic strategy carries
    that title, cleaned, whatever the meta tags and the headings of the page
    say; its confidence is 0.9. *)
Theorem Generic_structured_title_is_kept (url : jsstring) (doc : Document) (c : Clock)
        (data : jsval) (t : jsstring) (r : ExtractionResult) (c' : Clock) :
  Generic.extractJsonLd doc = Some data ->
  get data (u "title") = Normal (VStr t) ->
  nonempty (cleanText t) = true ->
  Generic.extract url doc c = (Normal r, c') ->
  success r = true ->
  exists o, offer r = Some o /\ title o = Some (cleanText t) /\
            confidence r = 0.9%float.
Proof.
  intros Hd Ht Hn He Hs. rewrite extract_steps in He. unfold structured in He.
  rewrite Hd in He.
  destruct (Generic.applyJsonLdData _ data) as [o1|e] eqn:Ha; cbn [cmap] in He; [|discriminate].
  injection He as <- _.
  pose proof (applyJsonLdData_title _ _ Ha Ht) as H1.
  assert (Htruthy : truthy (VStr t) = true).
  { cbn [truthy]. destruct t; [discriminate | reflexivity]. }
  rewrite Htruthy in H1.
  assert (H2 : title (fillFromPage o1 doc) = Some (cleanText t)).
  { rewrite fillFromPage_title; [exact H1|]. rewrite H1. exact Hn. }
  unfold conclude in *. cbv zeta in *. cbn [is_some] in *.
  destruct (negb (has (title (fillFromPage o1 doc)))
            || negb (has (description (fillFromPage o1 doc)))); [discriminate|].
  eexists. split; [reflexivity|]. split; [exact H2 | reflexivity].
Qed.

(** X13: the Generic strategy throws only because of structured data. On a page
    without a JobPosting it always answers. On a page with a JobPosting whose
    title is truthy and is not a string it throws a [TypeError], whatever
    else the page offers; when no site strategy accepts the URL, the registry
    then answers its failure "none". *)
Theorem Generic_throws_only_on_structured_data (url : jsstring) (doc : Document)
        (c : Clock) :
  (Generic.extractJsonLd doc = None -> exists r, fst (Generic.extract url doc c) = Normal r) /\
  (forall data v,
     Generic.extractJsonLd doc = Some data ->
     get data (u "title") = Normal v -> truthy v = true -> (forall s, v <> VStr s) ->
     fst (Generic.extract url doc c) = Throw TypeError /\
     (LinkedIn.canHandle url = false -> Indeed.canHandle url = false ->
      WelcomeToTheJungle.canHandle url = false ->
      fst (Registry.extractJobOffer url doc c) = createEmptyResult (u "none"))).
Proof.
  split.
  - intros Hd. rewrite extract_steps. unfold structured. rewrite Hd. cbn [cmap fst]. eauto.
  - intros data v Hd Hv Ht Hs.
    assert (He : fst (Generic.extract url doc c) = Throw TypeError).
    { rewrite extract_steps. unfold structured. rewrite Hd.
      now rewrite (applyJsonLdData_malformed_title _ _ Hv Ht Hs). }
    split; [exact He|]. intros Hl Hi Hw.
    unfold Registry.extractJobOffer. rewrite extractors_order.
    cbn [Registry.tryEach canHandle LinkedIn.linkedInExtractor Indeed.indeedExtractor
         WelcomeToTheJungle.welcomeToTheJungleExtractor Generic.genericExtractor].
    rewrite Hl, Hi, Hw. unfold Generic.canHandle.
    change (extract Generic.genericExtractor url doc c) with (Generic.extract url doc c).
    destruct (Generic.extract url doc c) as [[r|e] c1]; cbn [fst] in He; [discriminate|].
    reflexivity.
Qed.

End GenericSources.

(** On [ld_meta_page] the title of the JobPosting is kept, not the
    OpenGraph title. *)
Lemma Generic_structured_title_is_kept_witness :
  option_map (fun r => option_map title (offer r))
    (answered (Generic.extract (u "https://example.org/team") ld_meta_page (still 0%Z)))
  = Some (Some (Some (u "Engineer"))).
Proof.
  destruct (Generic.extract (u "https://example.org/team") ld_meta_page (still 0%Z))
    as [[r|e] c'] eqn:E; [|vm_compute in E; discriminate].
  assert (Hr : success r = true) by (vm_compute in E; now injection E as <- _).
  destruct (@Generic_structured_title_is_kept platform
              (u "https://example.org/team") ld_meta_page (still 0%Z)
              (VObj [ (u "@type", VStr (u "JobPosting")); (u "title", VStr (u "Engineer"));
                      (u "description", VStr (u "<p>Build things</p>")) ])
              (u "Engineer") _ _ eq_refl eq_refl eq_refl E Hr) as [o [Ho [Ht _]]].
  unfold answered. cbn [fst option_map]. rewrite Ho. cbn [option_map]. rewrite Ht.
  reflexivity.
Defined.

(** On [odd_page], whose JobPosting has the number 5 for a title. *)
Lemma Generic_throws_only_on_structured_data_witness :
  fst (Generic.extract (u "https://example.org/team") odd_page (still 0%Z)) = Throw TypeError /\
  fst (Registry.extractJobOffer (u "https://example.org/team") odd_page (still 0%Z))
  = createEmptyResult (u "none").
Proof.
  destruct (proj2 (@Generic_throws_only_on_structured_data platform
                     (u "https://example.org/team") odd_page (still 0%Z))
              (VObj [(u "@type", VStr (u "JobPosting")); (u "title", VNum 5)]) (VNum 5)
              eq_refl eq_refl eq_refl) as [Ht Hn].
  - intros s. discriminate.
  - split; [exact Ht | apply Hn; reflexivity].
Defined.

(* ------------------------------------------------------------------ *)
(** ** What a success of a site strategy guarantees *)

Section SiteStrategies.
Context {P : Platform}.

(** The candidates of the description cascades all pass the same test. *)
Lemma long_markdown_Some (markdown d : jsstring) :
  (if nonempty markdown && (100 <? len markdown)%nat then Some markdown else None) = Some d ->
  (100 < len d)%nat.
Proof.
  destruct (nonempty markdown && (100 <? len markdown)%nat) eqn:E; [|discriminate].
  intros H. injection H as <-. apply andb_true_iff in E. now apply Nat.ltb_lt.
Qed.

Lemma description_cascade_long selectors doc d :
  firstOf (fun selector =>
    match querySelector doc selector with
    | Some element =>
        let markdown := htmlToMarkdown (innerHTML element) in
        if nonempty markdown && (100 <? len markdown)%nat then Some markdown else None
    | None => None
    end) selectors = Some d ->
  (100 < len d)%nat.
Proof.
  intros H. apply firstOf_Some in H. destruct H as [selector [_ H]].
  destruct (querySelector doc selector); [|discriminate].
  now apply long_markdown_Some in H.
Qed.

Lemma LinkedIn_description_long doc d :
  LinkedIn.extractDescription doc = Some d -> (100 < len d)%nat.
Proof. apply description_cascade_long. Qed.

Lemma Indeed_description_long doc d :
  Indeed.extractDescription doc = Some d -> (100 < len d)%nat.
Proof. apply description_cascade_long. Qed.

Lemma WelcomeToTheJungle_description_long doc d :
  WelcomeToTheJungle.extractDescription doc = Some d -> (100 < len d)%nat.
Proof.
  unfold WelcomeToTheJungle.extractDescription.
  destruct (firstOf _ _) as [markdown|] eqn:E.
  - intros H. injection H as <-. now apply description_cascade_long in E.
  - destruct (querySelectorAll doc _); [discriminate|]. cbv zeta.
    destruct (100 <? len _)%nat eqn:El; [|discriminate].
    intros H. injection H as <-. now apply Nat.ltb_lt.
Qed.

Lemma LinkedIn_confidence_floor o :
  has (title o) = true -> PrimFloat.leb 0.65 (LinkedIn.calculateConfidence o) = true.
Proof.
  intros Ht. unfold LinkedIn.calculateConfidence. rewrite Ht. cbv zeta.
  split_conditions; vm_compute; reflexivity.
Qed.

Lemma Indeed_confidence_floor o :
  has (title o) = true -> PrimFloat.leb 0.65 (Indeed.calculateConfidence o) = true.
Proof.
  intros Ht. unfold Indeed.calculateConfidence. rewrite Ht. cbv zeta.
  split_conditions; vm_compute; reflexivity.
Qed.

Lemma WelcomeToTheJungle_confidence_floor o :
  has (title o) = true ->
  PrimFloat.leb 0.65 (WelcomeToTheJungle.calculateConfidence o) = true.
Proof.
  intros Ht. unfold WelcomeToTheJungle.calculateConfidence. rewrite Ht. cbv zeta.
  split_conditions; vm_compute; reflexivity.
Qed.

(** X14: a success of one of the three site strategies carries the URL it was
    given, a title, a description of more than 100 units, a remote type and
    a list of skills, and a confidence of at least 0.65. *)
Theorem site_success_guarantees (e : Extractor) (url : jsstring) (doc : Document)
        (c : Clock) (r : ExtractionResult) (c' : Clock) :
  In e siteExtractors ->
  extract e url doc c = (Normal r, c') ->
  success r = true ->
  exists o d,
    offer r = Some o /\ sourceUrl o = url /\ has (title o) = true /\
    description o = Some d /\ (100 < len d)%nat /\
    remoteType o <> None /\ skills o <> None /\
    PrimFloat.leb 0.65 (confidence r) = true.
Proof.
  unfold siteExtractors. cbn [In]. intros [<- | [<- | [<- | []]]].
  - cbn [extract LinkedIn.linkedInExtractor]. unfold LinkedIn.extract, bind, newDate, ret.
    destruct (has (LinkedIn.extractTitle doc)) eqn:Ht; cbn [negb]; [|now intros [= <- _]].
    destruct (LinkedIn.extractDescription doc) as [d|] eqn:Hd; [|now intros [= <- _]].
    destruct (nonempty d); cbn [negb]; [|now intros [= <- _]].
    destruct (extractPostedDate_settles doc (fun n => c (S n)))
      as [[pub [c1 ->]] | [c1 ->]]; [|discriminate].
    intros [= <- _] _. eexists; exists d. cbn [offer createSuccessResult confidence].
    project_offer. split; [reflexivity|]. split; [reflexivity|]. split; [exact Ht|].
    split; [reflexivity|]. split; [now apply LinkedIn_description_long with (doc := doc)|].
    split; [discriminate|]. split; [discriminate|]. now apply LinkedIn_confidence_floor.
  - cbn [extract Indeed.indeedExtractor]. unfold Indeed.extract, bind, newDate, ret.
    destruct (has (Indeed.extractTitle doc)) eqn:Ht; cbn [negb]; [|now intros [= <- _]].
    destruct (Indeed.extractDescription doc) as [d|] eqn:Hd; [|now intros [= <- _]].
    destruct (nonempty d); cbn [negb]; [|now intros [= <- _]].
    intros [= <- _] _. eexists; exists d. cbn [offer createSuccessResult confidence].
    project_offer. split; [reflexivity|]. split; [reflexivity|]. split; [exact Ht|].
    split; [reflexivity|]. split; [now apply Indeed_description_long with (doc := doc)|].
    split; [discriminate|]. split; [discriminate|]. now apply Indeed_confidence_floor.
  - cbn [extract WelcomeToTheJungle.welcomeToTheJungleExtractor].
    unfold WelcomeToTheJungle.extract, bind, newDate, ret.
    destruct (has (WelcomeToTheJungle.extractTitle doc)) eqn:Ht; cbn [negb];
      [|now intros [= <- _]].
    destruct (WelcomeToTheJungle.extractDescription doc) as [d|] eqn:Hd;
      [|now intros [= <- _]].
    destruct (nonempty d); cbn [negb]; [|now intros [= <- _]].
    intros [= <- _] _. eexists; exists d. cbn [offer createSuccessResult confidence].
    project_offer. split; [reflexivity|]. split; [reflexivity|]. split; [exact Ht|].
    split; [reflexivity|].
    split; [now apply WelcomeToTheJungle_description_long with (doc := doc)|].
    split; [discriminate|]. split; [discriminate|].
    now apply WelcomeToTheJungle_confidence_floor.
Qed.

(** X15: a URL the LinkedIn strategy accepts is a job page, whatever it shows. *)
Theorem LinkedIn_canHandle_isJobPage (url : jsstring) (doc : Document) :
  LinkedIn.canHandle url = true -> Registry.isJobPage url doc = true.
Proof.
  unfold LinkedIn.canHandle. cbv zeta. intros H.
  apply andb_true_iff in H. destruct H as [Hd Hp].
  apply existsb_str_eqb_In in Hd. apply includes_Contains in Hp.
  assert (Hk : Registry.isKnownJobSite url = true).
  { apply isKnownJobSite_spec. exists (u "linkedin.com").
    split; [unfold Registry.jobSiteDomains; cbn [map In]; tauto|].
    unfold LinkedIn.domains in Hd. cbn [In] in Hd.
    destruct Hd as [<- | [<- | []]]; apply includes_Contains; reflexivity. }
  assert (Hj : Registry.hasJobPath url = true).
  { apply hasJobPath_spec. exists (u "/jobs/").
    split; [unfold Registry.pathIndicators; cbn [map In]; tauto|].
    now apply Contains_toLowerCase. }
  unfold Registry.isJobPage, Registry.isJobPage_with. now rewrite Hk, Hj.
Qed.

End SiteStrategies.

(** A success of the Indeed strategy on [indeed_page]. *)
Lemma site_success_guarantees_witness :
  exists r o d,
    fst (Indeed.extract (u "https://www.indeed.com/viewjob?jk=1") indeed_page (still 0%Z))
    = Normal r /\
    offer r = Some o /\ description o = Some d /\ (100 < len d)%nat /\
    PrimFloat.leb 0.65 (confidence r) = true.
Proof.
  destruct (Indeed.extract (u "https://www.indeed.com/viewjob?jk=1") indeed_page (still 0%Z))
    as [[r|e] c'] eqn:E; [|vm_compute in E; discriminate].
  assert (Hr : success r = true) by (vm_compute in E; now injection E as <- _).
  destruct (@site_success_guarantees platform Indeed.indeedExtractor
              (u "https://www.indeed.com/viewjob?jk=1") indeed_page (still 0%Z) r c')
    as [o [d [Ho [_ [_ [Hd [Hl [_ [_ Hc]]]]]]]]].
  - unfold siteExtractors. cbn [In]. tauto.
  - exact E.
  - exact Hr.
  - exists r, o, d. cbn [fst]. tauto.
Defined.

(** The URL of a LinkedIn job. *)
Lemma LinkedIn_canHandle_isJobPage_witness :
  Registry.isJobPage (u "https://www.linkedin.com/jobs/view/42") engineer_page = true.
Proof.
  apply (@LinkedIn_canHandle_isJobPage platform). reflexivity.
Defined.

(* ------------------------------------------------------------------ *)
(** ** The local history of captured offers *)

Section LocalHistory.
Import Storage.

Ltac run_storage :=
  unfold addCapturedOffer, removeCapturedOffer, clearCapturedOffers, getCapturedOffers,
         await, resolve, get, set, remove, storage_get, storage_set, storage_remove, call;
  cbn [rejections items clock lookup update fst snd tl captured_offers].

Lemma getCapturedOffers_reads w :
  getCapturedOffers w
  = match rejections w with
    | true :: later => (Fulfilled [], mkArea (items w) later (clock w))
    | _ => (Fulfilled (offers_of w), mkArea (items w) (tl (rejections w)) (clock w))
    end.
Proof. run_storage. unfold offers_of. destruct (rejections w) as [|[|] later]; reflexivity. Qed.

Lemma addCapturedOffer_writes offer w :
  addCapturedOffer offer w
  = (let (read, w1) := getCapturedOffers w in
     match read with
     | Fulfilled offers => set CAPTURED_OFFERS (updated_with offer offers) w1
     | Rejected => (Rejected, w1)
     end).
Proof.
  unfold addCapturedOffer, await. destruct (getCapturedOffers w) as [[offers|] w1]; [|reflexivity].
  unfold updated_with, known. cbv zeta. now destruct (existsb _ offers).
Qed.

Lemma addCapturedOffer_cases offer w :
  addCapturedOffer offer w
  = match tl (rejections w) with
    | true :: rest => (Rejected, mkArea (items w) rest (clock w))
    | later =>
        (Fulfilled tt,
         mkArea (update CAPTURED_OFFERS (Some (updated_with offer (offers_read w))) (items w))
                (tl later) (clock w))
    end.
Proof.
  rewrite addCapturedOffer_writes, getCapturedOffers_reads. unfold offers_read.
  destruct (rejections w) as [|[|] [|[|] rest]]; reflexivity.
Qed.

Lemma removeCapturedOffer_cases url w :
  removeCapturedOffer url w
  = match tl (rejections w) with
    | true :: rest => (Rejected, mkArea (items w) rest (clock w))
    | later =>
        (Fulfilled tt,
         mkArea (update CAPTURED_OFFERS
                   (Some (filter (fun o => negb (str_eqb (sourceUrl o) url)) (offers_read w)))
                   (items w))
                (tl later) (clock w))
    end.
Proof.
  unfold removeCapturedOffer, await. rewrite getCapturedOffers_reads. unfold offers_read.
  destruct (rejections w) as [|[|] [|[|] rest]]; reflexivity.
Qed.

Lemma In_firstn {A} n (l : list A) x : In x (firstn n l) -> In x l.
Proof. intros H. rewrite <- (firstn_skipn n l). apply in_or_app. now left. Qed.

Lemma known_spec url l : known url l = true <-> exists o, In o l /\ sourceUrl o = url.
Proof.
  unfold known. rewrite existsb_exists.
  split; intros [o [Hin H]]; exists o; (split; [exact Hin|]); now apply str_eqb_eq.
Qed.

Lemma known_false url l o : known url l = false -> In o l -> sourceUrl o <> url.
Proof.
  intros Hk Hin E. assert (H : known url l = true) by (apply known_spec; eauto).
  congruence.
Qed.

Lemma updated_with_In offer l : In offer (updated_with offer l).
Proof.
  unfold updated_with. destruct (known (sourceUrl offer) l) eqn:E.
  - apply known_spec in E. destruct E as [o [Hin Ho]].
    apply in_map_iff. exists o. split; [|exact Hin].
    apply str_eqb_eq in Ho. now rewrite Ho.
  - now left.
Qed.

Lemma updated_with_same_url offer l o :
  In o (updated_with offer l) -> sourceUrl o = sourceUrl offer -> o = offer.
Proof.
  unfold updated_with. destruct (known (sourceUrl offer) l) eqn:E.
  - intros Hin Ho. apply in_map_iff in Hin. destruct Hin as [x [Hx Hin]].
    destruct (str_eqb (sourceUrl x) (sourceUrl offer)) eqn:Ex; [now subst|].
    subst x. apply str_eqb_eq in Ho. congruence.
  - intros Hin Ho. apply In_firstn in Hin. destruct Hin as [<- | Hin]; [reflexivity|].
    now destruct (known_false _ _ E Hin).
Qed.

Lemma updated_with_urls offer l :
  known (sourceUrl offer) l = true ->
  map sourceUrl (updated_with offer l) = map sourceUrl l.
Proof.
  unfold updated_with. intros ->. rewrite map_map. apply map_ext.
  intros o. destruct (str_eqb (sourceUrl o) (sourceUrl offer)) eqn:E; [|reflexivity].
  apply str_eqb_eq in E. now rewrite E.
Qed.

Lemma updated_with_length offer l :
  (List.length (updated_with offer l) <= Nat.max 100 (List.length l))%nat.
Proof.
  unfold updated_with. destruct (known (sourceUrl offer) l).
  - rewrite length_map. lia.
  - rewrite length_firstn. cbn [List.length]. lia.
Qed.

Lemma offers_of_update l it rs c :
  offers_of (mkArea (update CAPTURED_OFFERS (Some l) it) rs c) = l.
Proof. reflexivity. Qed.

(** X16: once [addCapturedOffer] has resolved, the history holds the offer, and no
    other offer of the same URL; a later [getCapturedOffers] that the browser
    does not reject returns such a list. *)
Theorem addCapturedOffer_is_found (offer : JobOffer) (w w' : Area) :
  addCapturedOffer offer w = (Fulfilled tt, w') ->
  (In offer (offers_of w') /\
   forall o, In o (offers_of w') -> sourceUrl o = sourceUrl offer -> o = offer) /\
  (hd false (rejections w') = false ->
   exists l w'', getCapturedOffers w' = (Fulfilled l, w'') /\ In offer l /\
                 forall o, In o l -> sourceUrl o = sourceUrl offer -> o = offer).
Proof.
  rewrite addCapturedOffer_cases. intros H.
  assert (Hw : offers_of w' = updated_with offer (offers_read w)).
  { destruct (tl (rejections w)) as [|[|] rest]; try discriminate;
      injection H as <-; reflexivity. }
  assert (Hfound : In offer (offers_of w') /\
                   forall o, In o (offers_of w') -> sourceUrl o = sourceUrl offer -> o = offer).
  { rewrite Hw. split; [apply updated_with_In | apply updated_with_same_url]. }
  split; [exact Hfound|]. intros Hr. rewrite getCapturedOffers_reads.
  destruct (rejections w') as [|[|] later]; try discriminate; eauto.
Qed.

(** X17: the history never grows beyond 100 offers. When the browser rejects
    no call: an offer of a new URL is put first, the others follow in their
    order, and the last of 100 is dropped; an offer of a known URL is
    written at every place where an offer of that URL stood, the others
    staying where they are, and the history keeps its length. *)
Theorem addCapturedOffer_history (offer : JobOffer) (w : Area) :
  let before := offers_of w in
  let after := offers_of (snd (addCapturedOffer offer w)) in
  (List.length after <= Nat.max 100 (List.length before))%nat /\
  (undisturbed w -> known (sourceUrl offer) before = false ->
   after = firstn 100 (offer :: before) /\
   ((List.length before < 100)%nat -> after = offer :: before) /\
   (List.length before = 100%nat -> after = offer :: removelast before)) /\
  (undisturbed w -> known (sourceUrl offer) before = true ->
   List.length after = List.length before /\
   map sourceUrl after = map sourceUrl before /\
   forall n o, nth_error before n = Some o ->
     (sourceUrl o = sourceUrl offer -> nth_error after n = Some offer) /\
     (sourceUrl o <> sourceUrl offer -> nth_error after n = Some o)).
Proof.
  cbv zeta. rewrite addCapturedOffer_cases. split; [|split].
  - unfold offers_read.
    destruct (rejections w) as [|[|] [|[|] rest]]; cbn [tl snd];
      rewrite ?offers_of_update; try lia;
      try (etransitivity; [apply updated_with_length|]; cbn [List.length]; lia);
      unfold offers_of; cbn [items]; fold (offers_of w); lia.
  - unfold undisturbed, offers_read. intros -> Hk. cbn [tl snd].
    rewrite offers_of_update. unfold updated_with. rewrite Hk.
    split; [reflexivity|].
    change (firstn 100 (offer :: offers_of w)) with (offer :: firstn 99 (offers_of w)).
    split.
    + intros Hl. f_equal. apply firstn_all2. lia.
    + intros Hl. f_equal. rewrite removelast_firstn_len. f_equal. lia.
  - unfold undisturbed, offers_read. intros -> Hk. cbn [tl snd].
    rewrite offers_of_update.
    split; [unfold updated_with; rewrite Hk; apply length_map|].
    split; [now apply updated_with_urls|].
    intros n o Hn. unfold updated_with. rewrite Hk.
    rewrite nth_error_map, Hn. cbn [option_map].
    destruct (str_eqb (sourceUrl o) (sourceUrl offer)) eqn:E.
    + split; [reflexivity|]. apply str_eqb_eq in E. contradiction.
    + split; [|reflexivity]. intros Ho. apply str_eqb_eq in Ho. congruence.
Qed.

Lemma NoDup_firstn {A} n (l : list A) : NoDup l -> NoDup (firstn n l).
Proof.
  intros H. rewrite <- (firstn_skipn n l) in H. now apply NoDup_app_remove_r in H.
Qed.

Lemma NoDup_map_filter {A B} (f : A -> B) (p : A -> bool) l :
  NoDup (map f l) -> NoDup (map f (filter p l)).
Proof.
  induction l as [|x l IH]; [trivial|]. cbn [map filter]. intros H.
  apply NoDup_cons_iff in H. destruct H as [Hx Hl].
  destruct (p x); [|now apply IH]. cbn [map]. constructor; [|now apply IH].
  intros Hin. apply Hx. apply in_map_iff in Hin. destruct Hin as [y [Hy Hin]].
  apply filter_In in Hin. apply in_map_iff. exists y. tauto.
Qed.

Lemma updated_with_NoDup offer l :
  NoDup (map sourceUrl l) -> NoDup (map sourceUrl (updated_with offer l)).
Proof.
  intros H. destruct (known (sourceUrl offer) l) eqn:E.
  - now rewrite updated_with_urls.
  - unfold updated_with. rewrite E. rewrite <- firstn_map. apply NoDup_firstn.
    cbn [map]. constructor; [|exact H].
    intros Hin. apply in_map_iff in Hin. destruct Hin as [o [Ho Hin]].
    now destruct (known_false _ _ E Hin).
Qed.

Lemma offers_read_NoDup w :
  NoDup (map sourceUrl (offers_of w)) -> NoDup (map sourceUrl (offers_read w)).
Proof.
  unfold offers_read. destruct (rejections w) as [|[|] later]; trivial. intros _. constructor.
Qed.

(** X18: no two offers of the history have the same URL: [addCapturedOffer] and
    [removeCapturedOffer] keep it so, whatever the browser rejects. *)
Theorem captured_offers_one_per_url (w : Area) :
  NoDup (map sourceUrl (offers_of w)) ->
  (forall offer, NoDup (map sourceUrl (offers_of (snd (addCapturedOffer offer w))))) /\
  (forall url, NoDup (map sourceUrl (offers_of (snd (removeCapturedOffer url w))))).
Proof.
  intros H. split.
  - intros offer. rewrite addCapturedOffer_cases.
    destruct (tl (rejections w)) as [|[|] rest]; cbn [snd]; rewrite ?offers_of_update;
      try (apply updated_with_NoDup, offers_read_NoDup, H); exact H.
  - intros url. rewrite removeCapturedOffer_cases.
    destruct (tl (rejections w)) as [|[|] rest]; cbn [snd]; rewrite ?offers_of_update;
      try (apply NoDup_map_filter, offers_read_NoDup, H); exact H.
Qed.

(** X19: when the browser rejects the write, [addCapturedOffer] is rejected and
    the items are as they were. When it rejects the read and accepts the
    write, the offer is added to an empty list: what the history held is
    lost. *)
Theorem addCapturedOffer_rejections (offer : JobOffer) (w : Area) :
  (fst (addCapturedOffer offer w) = Rejected <-> hd false (tl (rejections w)) = true) /\
  (fst (addCapturedOffer offer w) = Rejected ->
   items (snd (addCapturedOffer offer w)) = items w) /\
  (hd false (rejections w) = true -> hd false (tl (rejections w)) = false ->
   fst (addCapturedOffer offer w) = Fulfilled tt /\
   offers_of (snd (addCapturedOffer offer w)) = [offer]).
Proof.
  rewrite addCapturedOffer_cases. unfold offers_read.
  destruct (rejections w) as [|[|] [|[|] rest]]; cbn [tl hd fst snd];
    repeat split; try discriminate; try reflexivity; intros; discriminate.
Qed.

(** X20: once [removeCapturedOffer] has resolved, no offer of the history has the
    URL; when the browser rejected no call, the other offers are all there,
    in their order. Removing the URL of an offer that was just added to a
    history of fewer than 100 offers, none of that URL, gives the history
    back. *)
Theorem removeCapturedOffer_removes (url : jsstring) (w : Area) :
  (forall w', removeCapturedOffer url w = (Fulfilled tt, w') ->
     forall o, In o (offers_of w') -> sourceUrl o <> url) /\
  (undisturbed w ->
   offers_of (snd (removeCapturedOffer url w))
   = filter (fun o => negb (str_eqb (sourceUrl o) url)) (offers_of w)) /\
  (forall offer,
     undisturbed w -> sourceUrl offer = url ->
     known url (offers_of w) = false -> (List.length (offers_of w) < 100)%nat ->
     offers_of (snd (removeCapturedOffer url (snd (addCapturedOffer offer w))))
     = offers_of w).
Proof.
  split; [|split].
  - intros w'. rewrite removeCapturedOffer_cases. intros H o Hin Ho.
    assert (Hw : offers_of w'
                 = filter (fun o => negb (str_eqb (sourceUrl o) url)) (offers_read w)).
    { destruct (tl (rejections w)) as [|[|] rest]; try discriminate;
        injection H as <-; reflexivity. }
    rewrite Hw in Hin. apply filter_In in Hin. destruct Hin as [_ Hin].
    apply str_eqb_eq in Ho. now rewrite Ho in Hin.
  - unfold undisturbed. intros Hr. rewrite removeCapturedOffer_cases.
    unfold offers_read. rewrite Hr. reflexivity.
  - unfold undisturbed. intros offer Hr <- Hk Hl.
    rewrite addCapturedOffer_cases, Hr. cbn [tl snd].
    rewrite removeCapturedOffer_cases. cbn [rejections tl snd].
    rewrite offers_of_update. unfold offers_read. cbn [rejections].
    rewrite offers_of_update, Hr. unfold updated_with. rewrite Hk.
    change (firstn 100 (offer :: offers_of w)) with (offer :: firstn 99 (offers_of w)).
    rewrite firstn_all2 by lia. cbn [filter]. rewrite str_eqb_refl. cbn [negb].
    apply forallb_filter_id. apply forallb_forall. intros o Hin.
    apply negb_true_iff. destruct (str_eqb (sourceUrl o) (sourceUrl offer)) eqn:E;
      [|reflexivity].
    apply str_eqb_eq in E. now destruct (known_false _ _ Hk Hin).
Qed.

(* ------------------------------------------------------------------ *)
(** ** The stored tokens *)

Section Tokens.
Context {V : Schemas}.

Lemma get_reads k w :
  get k w
  = match rejections w with
    | true :: later => (Fulfilled None, mkArea (items w) later (clock w))
    | _ => (Fulfilled (or_null k (lookup k (items w))),
            mkArea (items w) (tl (rejections w)) (clock w))
    end.
Proof.
  unfold get, storage_get, call. destruct (rejections w) as [|[|] later]; reflexivity.
Qed.

Lemma or_null_Some k (value : option (Value k)) v :
  or_null k value = Some v -> value = Some v.
Proof.
  destruct k; cbn [or_null]; try (intros H; exact H);
    destruct value as [[]|]; intros H; try discriminate; exact H.
Qed.

Lemma or_null_truthy v : truthy v = true -> or_null AUTH_TOKENS (Some v) = Some v.
Proof. destruct v; cbn; intros H; try discriminate; reflexivity. Qed.

(** X21: tokens that are not of the schema are removed, and the user with them,
    when the browser rejects no call: [getAuthTokens] answers [null],
    [isAuthenticated] answers [false], and the other items stay. *)
Theorem invalid_tokens_are_cleared (w : Area) (v : jsval) :
  undisturbed w ->
  auth_tokens (items w) = Some v -> truthy v = true ->
  AuthTokensSchema_safeParse v = None ->
  getAuthTokens w
  = (Fulfilled None,
     mkArea (mkItems None None (settings (items w)) (captured_offers (items w)))
            [] (clock w)) /\
  fst (isAuthenticated w) = Fulfilled false.
Proof.
  unfold undisturbed. intros Hr Hv Ht Hs.
  assert (H : getAuthTokens w
              = (Fulfilled None,
                 mkArea (mkItems None None (settings (items w)) (captured_offers (items w)))
                        [] (clock w))).
  { unfold getAuthTokens, await. rewrite get_reads, Hr. cbn [lookup tl].
    rewrite Hv, (or_null_truthy _ Ht), Ht. cbn [negb]. rewrite Hs. reflexivity. }
  split; [exact H|]. unfold isAuthenticated, await. now rewrite H.
Qed.

(** X22: [isAuthenticated] answers [true] only when the stored value is of the
    schema and its expiry is not less than 30 seconds ahead of the clock; the
    items are then as they were. *)
Theorem isAuthenticated_sound (w : Area) :
  fst (isAuthenticated w) = Fulfilled true ->
  exists v t,
    auth_tokens (items w) = Some v /\ AuthTokensSchema_safeParse v = Some t /\
    PrimFloat.ltb (expiresAt t) (number_of_Z (clock w 0%nat) + 30000)%float = false /\
    items (snd (isAuthenticated w)) = items w.
Proof.
  unfold isAuthenticated, getAuthTokens, await, Date_now, resolve. rewrite get_reads.
  destruct (rejections w) as [|[|] later]; cbn [lookup tl]; try discriminate;
    (destruct (or_null AUTH_TOKENS (auth_tokens (items w))) as [v|] eqn:Hv; [|discriminate];
     apply or_null_Some in Hv;
     destruct (truthy v); cbn [negb]; [|discriminate];
     destruct (AuthTokensSchema_safeParse v) as [t|] eqn:Ht;
     [|destruct (clearAuth _) as [[|] w1]; discriminate];
     cbn [fst snd items clock]; intros H; injection H as H;
     exists v, t; apply negb_true_iff in H; auto).
Qed.

Lemma clearAuth_runs w :
  clearAuth w
  = (match rejections w with
     | [] | [false] | false :: false :: _ => Fulfilled tt
     | _ => Rejected
     end,
     mkArea (mkItems (if hd false (rejections w) then auth_tokens (items w) else None)
                     (if hd false (tl (rejections w)) then user (items w) else None)
                     (settings (items w)) (captured_offers (items w)))
            (tl (tl (rejections w))) (clock w)).
Proof.
  unfold clearAuth, all2, remove, storage_remove, call.
  destruct w as [[a us s o] [|[|] [|[|] later]] c]; reflexivity.
Qed.

(** X26: what [setAuthTokens] stores is what [getAuthTokens] reads back, when
    the browser rejects no call and the stored object is of the schema; the
    user, the settings and the captured offers are left as they were, and
    [isAuthenticated] then compares the expiry of those tokens with the
    clock. *)
Theorem setAuthTokens_round_trip (tokens : AuthTokens) (w : Area) :
  undisturbed w ->
  AuthTokensSchema_safeParse (AuthTokens_value tokens) = Some tokens ->
  let w' := snd (setAuthTokens tokens w) in
  fst (setAuthTokens tokens w) = Fulfilled tt /\
  fst (getAuthTokens w') = Fulfilled (Some tokens) /\
  items (snd (getAuthTokens w')) = items w' /\
  (user (items w'), settings (items w'), captured_offers (items w'))
  = (user (items w), settings (items w), captured_offers (items w)) /\
  fst (isAuthenticated w')
  = Fulfilled (negb (PrimFloat.ltb (expiresAt tokens)
                       (number_of_Z (clock w 0%nat) + 30000)%float)).
Proof.
  intros Hr Hs. cbv zeta. unfold undisturbed in Hr.
  assert (Hset : setAuthTokens tokens w
                 = (Fulfilled tt,
                    mkArea (mkItems (Some (AuthTokens_value tokens)) (user (items w))
                              (settings (items w)) (captured_offers (items w)))
                           [] (clock w))).
  { unfold setAuthTokens, set, storage_set, call. rewrite Hr. reflexivity. }
  rewrite Hset. cbn [fst snd].
  set (w' := mkArea _ [] (clock w)).
  assert (Hget : getAuthTokens w' = (Fulfilled (Some tokens), w')).
  { unfold getAuthTokens, await. rewrite get_reads. cbn [rejections w' lookup items
      auth_tokens or_null AuthTokens_value truthy negb tl]. rewrite Hs. reflexivity. }
  split; [reflexivity|]. rewrite Hget. cbn [fst snd].
  split; [reflexivity|]. split; [reflexivity|]. split; [reflexivity|].
  unfold isAuthenticated, await. rewrite Hget. reflexivity.
Qed.

(** X27: after [clearAuth], when the browser rejects no call, nobody is
    signed in: no tokens and no user are read, and the settings and the
    captured offers are as they were. Both removals are asked for whatever
    happens to the other: when the browser rejects the first and accepts the
    second, [clearAuth] is rejected, the user is gone and the tokens are
    still there. *)
Theorem clearAuth_signs_out (w : Area) :
  (undisturbed w ->
   let w' := snd (clearAuth w) in
   fst (clearAuth w) = Fulfilled tt /\
   fst (getAuthTokens w') = Fulfilled None /\
   fst (getUser w') = Fulfilled None /\
   fst (isAuthenticated w') = Fulfilled false /\
   (settings (items w'), captured_offers (items w'))
   = (settings (items w), captured_offers (items w))) /\
  (forall later, rejections w = true :: false :: later ->
   let w' := snd (clearAuth w) in
   fst (clearAuth w) = Rejected /\
   auth_tokens (items w') = auth_tokens (items w) /\ user (items w') = None).
Proof.
  split.
  - intros Hr. cbv zeta. unfold undisturbed in Hr. rewrite clearAuth_runs, Hr.
    cbn [fst snd hd tl items settings captured_offers].
    set (w' := mkArea _ [] (clock w)).
    assert (Hget : getAuthTokens w' = (Fulfilled None, mkArea (items w') [] (clock w))).
    { unfold getAuthTokens, await. rewrite get_reads. reflexivity. }
    split; [reflexivity|]. rewrite Hget. split; [reflexivity|].
    split; [unfold getUser; rewrite get_reads; reflexivity|].
    split; [|reflexivity]. unfold isAuthenticated, await. rewrite Hget. reflexivity.
  - intros later Hr. cbv zeta. rewrite clearAuth_runs, Hr. now cbn.
Qed.

End Tokens.

(** An offer of a known URL added to a history of two. *)
Lemma addCapturedOffer_is_found_witness :
  let w := area_with [ offer_at "https://a.example/1" "Engineer";
                       offer_at "https://a.example/2" "Designer" ] [] in
  let offer := offer_at "https://a.example/2" "Lead designer" in
  In offer (offers_of (snd (addCapturedOffer offer w))).
Proof.
  cbv zeta.
  apply (@addCapturedOffer_is_found
           (offer_at "https://a.example/2" "Lead designer")
           (area_with [ offer_at "https://a.example/1" "Engineer";
                        offer_at "https://a.example/2" "Designer" ] [])).
  reflexivity.
Defined.

Lemma captured_offers_one_per_url_witness :
  let w := area_with [ offer_at "https://a.example/1" "Engineer";
                       offer_at "https://a.example/2" "Designer" ] [] in
  NoDup (map sourceUrl
           (offers_of (snd (addCapturedOffer (offer_at "https://a.example/2" "Lead") w)))) /\
  NoDup (map sourceUrl
           (offers_of (snd (removeCapturedOffer (u "https://a.example/1") w)))).
Proof.
  cbv zeta.
  destruct (@captured_offers_one_per_url
              (area_with [ offer_at "https://a.example/1" "Engineer";
                           offer_at "https://a.example/2" "Designer" ] []))
    as [Hadd Hremove].
  - apply distinct_NoDup. reflexivity.
  - split; [apply Hadd | apply Hremove].
Defined.

(** A string kept where the tokens should be. *)
Lemma invalid_tokens_are_cleared_witness :
  let w := area_of_tokens (VStr (u "stale")) [] in
  Storage.auth_tokens (items (snd (getAuthTokens w))) = None /\
  Storage.user (items (snd (getAuthTokens w))) = None /\
  offers_of (snd (getAuthTokens w)) = offers_of w /\
  fst (isAuthenticated w) = Fulfilled false.
Proof.
  cbv zeta.
  destruct (@invalid_tokens_are_cleared plain_schemas
              (area_of_tokens (VStr (u "stale")) []) (VStr (u "stale")))
    as [Hget Hauth].
  - reflexivity.
  - reflexivity.
  - reflexivity.
  - reflexivity.
  - rewrite Hget. split; [reflexivity|]. split; [reflexivity|].
    split; [reflexivity | exact Hauth].
Defined.

(** Tokens that expire one minute after the time the clock reads. *)
Lemma isAuthenticated_sound_witness :
  let tokens := VObj [ (u "accessToken", VStr (u "a")); (u "refreshToken", VStr (u "r"));
                       (u "expiresAt", VNum 60000) ] in
  exists t, AuthTokensSchema_safeParse tokens = Some t /\
            PrimFloat.ltb (expiresAt t) 30000 = false.
Proof.
  cbv zeta.
  destruct (@isAuthenticated_sound plain_schemas
              (area_of_tokens
                 (VObj [ (u "accessToken", VStr (u "a")); (u "refreshToken", VStr (u "r"));
                         (u "expiresAt", VNum 60000) ]) []))
    as [v [t [Hv [Ht [He _]]]]]; [reflexivity|].
  injection Hv as <-. exists t. split; [exact Ht | exact He].
Defined.

(** Tokens written over a string that was kept in their place. *)
Lemma setAuthTokens_round_trip_witness :
  let tokens := mkAuthTokens (u "a") (u "r") 60000 in
  let w := area_of_tokens (VStr (u "stale")) [] in
  fst (getAuthTokens (snd (setAuthTokens tokens w))) = Fulfilled (Some tokens) /\
  fst (isAuthenticated (snd (setAuthTokens tokens w))) = Fulfilled true.
Proof.
  cbv zeta.
  destruct (@setAuthTokens_round_trip plain_schemas (mkAuthTokens (u "a") (u "r") 60000)
              (area_of_tokens (VStr (u "stale")) []))
    as [_ [Hget [_ [_ Hauth]]]].
  - reflexivity.
  - reflexivity.
  - split; [exact Hget | exact Hauth].
Defined.

End LocalHistory.

(* ------------------------------------------------------------------ *)
(** ** Where a record says it comes from *)

Section Origin.
Context {P : Platform}.

Ltac keeps_origin H :=
  repeat match type of H with
         | (if ?b then _ else _) = _ => destruct b
         | cbind ?x _ = _ => destruct x; cbn [cbind] in H
         | match ?x with _ => _ end = _ => destruct x
         end;
  try discriminate; injection H as <-; unfold origin; offer_fields; reflexivity.

Lemma applyJsonLdData_origin o data o' :
  Generic.applyJsonLdData o data = Normal o' -> origin o' = origin o.
Proof.
  unfold Generic.applyJsonLdData. intros H.
  destruct (get data (u "title")) as [v1|]; cbn [cbind] in H; [|discriminate].
  destruct (if truthy v1 then _ else _) as [o1|] eqn:E1; cbn [cbind] in H; [|discriminate].
  assert (T1 : origin o1 = origin o) by keeps_origin E1.
  destruct (get data (u "description")) as [v2|]; cbn [cbind] in H; [|discriminate].
  destruct (if truthy v2 then _ else _) as [o2|] eqn:E2; cbn [cbind] in H; [|discriminate].
  assert (T2 : origin o2 = origin o1) by keeps_origin E2.
  destruct (get data (u "hiringOrganization")) as [org|]; cbn [cbind] in H; [|discriminate].
  destruct (if truthy (get_opt org _) then _ else _) as [o3|] eqn:E3;
    cbn [cbind] in H; [|discriminate].
  assert (T3 : origin o3 = origin o2) by keeps_origin E3.
  destruct (get data (u "jobLocation")) as [loc|]; cbn [cbind] in H; [|discriminate].
  destruct (if truthy (get_opt loc _) then _ else _) as [o4|] eqn:E4;
    cbn [cbind] in H; [|discriminate].
  assert (T4 : origin o4 = origin o3) by keeps_origin E4.
  destruct (get data (u "employmentType")) as [v5|]; cbn [cbind] in H; [|discriminate].
  destruct (if truthy v5 then _ else _) as [o5|] eqn:E5; cbn [cbind] in H; [|discriminate].
  assert (T5 : origin o5 = origin o4) by keeps_origin E5.
  destruct (get data (u "baseSalary")) as [bs|]; cbn [cbind] in H; [|discriminate].
  destruct (if truthy (get_opt bs _) then _ else _) as [o6|] eqn:E6;
    cbn [cbind] in H; [|discriminate].
  assert (T6 : origin o6 = origin o5) by keeps_origin E6.
  destruct (get data (u "datePosted")) as [v7|]; cbn [cbind] in H; [|discriminate].
  destruct (get data (u "skills")) as [v8|]; cbn [cbind] in H; [|discriminate].
  injection H as <-.
  assert (T7 : forall x, origin (if truthy v8 then Generic.set_skills x
                                   (Some match v8 with VArr l => l | _ => [v8] end) else x)
                         = origin x)
    by (intros x; destruct (truthy v8); reflexivity).
  rewrite T7. destruct (truthy v7); unfold origin in *; offer_fields; congruence.
Qed.

Ltac step_keeps_origin :=
  intros;
  match goal with |- origin (?lhs) = _ => let step := head_symbol lhs in unfold step end;
  cbv zeta;
  try match goal with
      | |- context [if ?b then _ else _] => destruct b
      | |- context [match remoteType ?x with _ => _ end] => destruct (remoteType x) as [[]|]
      end;
  reflexivity.

Lemma meta_title_origin doc o : origin (meta_title doc o) = origin o.
Proof. step_keeps_origin. Qed.

Lemma meta_description_origin doc o : origin (meta_description doc o) = origin o.
Proof. step_keeps_origin. Qed.

Lemma meta_company_origin doc o : origin (meta_company doc o) = origin o.
Proof. step_keeps_origin. Qed.

Lemma page_title_origin doc o : origin (page_title doc o) = origin o.
Proof. step_keeps_origin. Qed.

Lemma page_description_origin doc o : origin (page_description doc o) = origin o.
Proof. step_keeps_origin. Qed.

Lemma page_company_origin doc o : origin (page_company doc o) = origin o.
Proof. step_keeps_origin. Qed.

Lemma page_location_origin doc o : origin (page_location doc o) = origin o.
Proof. step_keeps_origin. Qed.

Lemma derive_skills_origin o : origin (derive_skills o) = origin o.
Proof. step_keeps_origin. Qed.

Lemma derive_remoteType_origin o : origin (derive_remoteType o) = origin o.
Proof. step_keeps_origin. Qed.

Lemma fillFromPage_origin o doc : origin (fillFromPage o doc) = origin o.
Proof.
  unfold fillFromPage. rewrite extractMetaTags_steps.
  now rewrite derive_remoteType_origin, derive_skills_origin, page_location_origin,
    page_company_origin, page_description_origin, page_title_origin,
    meta_company_origin, meta_description_origin, meta_title_origin.
Qed.

Lemma conclude_origin b o r :
  conclude b o = r -> success r = true -> offer r = Some o.
Proof.
  unfold conclude. cbv zeta.
  destruct (negb (has (title o)) || negb (has (description o))); intros <-;
    [discriminate | reflexivity].
Qed.

Lemma Generic_extract_origin url doc c r c' :
  Generic.extract url doc c = (Normal r, c') -> success r = true ->
  exists o, offer r = Some o /\
            origin o = (url, getDomain url, Date_toISOString (c 0%nat)).
Proof.
  rewrite extract_steps. unfold structured.
  intros H Hs.
  assert (Ho : exists o1, origin o1 = (url, getDomain url, Date_toISOString (c 0%nat)) /\
                          conclude (is_some (Generic.extractJsonLd doc))
                            (fillFromPage o1 doc) = r).
  { destruct (Generic.extractJsonLd doc) as [data|].
    - destruct (Generic.applyJsonLdData _ data) as [o1|] eqn:E; cbn [cmap] in H;
        [|discriminate].
      injection H as <- _. exists o1. split; [|reflexivity].
      now rewrite (applyJsonLdData_origin _ _ E).
    - cbn [cmap] in H. injection H as <- _. eexists. split; [|reflexivity]. reflexivity. }
  destruct Ho as [o1 [Ho1 Hr]]. exists (fillFromPage o1 doc).
  split; [now apply conclude_origin with (b := is_some (Generic.extractJsonLd doc))|].
  now rewrite fillFromPage_origin.
Qed.

Lemma site_extract_origin e url doc c r c' :
  In e siteExtractors ->
  extract e url doc c = (Normal r, c') -> success r = true ->
  exists o, offer r = Some o /\ sourceUrl o = url /\
            In (sourceDomain o) (domains_written url).
Proof.
  intros He H Hs.
  assert (Hall : match fst (extract e url doc c) with
                 | Normal r =>
                     success r = true ->
                     exists o, offer r = Some o /\ sourceUrl o = url /\
                               In (sourceDomain o) (domains_written url)
                 | Throw _ => True
                 end).
  { clear H Hs r c'. unfold siteExtractors in He. cbn [In] in He.
    destruct He as [<- | [<- | [<- | []]]].
    - cbn [extract LinkedIn.linkedInExtractor]. unfold LinkedIn.extract, bind, newDate, ret.
      destruct (has (LinkedIn.extractTitle doc)); cbn [negb fst]; [|discriminate].
      destruct (LinkedIn.extractDescription doc) as [d|]; cbn [fst]; [|discriminate].
      destruct (nonempty d); cbn [negb fst]; [|discriminate].
      destruct (extractPostedDate_settles doc (fun n => c (S n)))
        as [[pub [c1 ->]] | [c1 ->]]; [|exact I].
      cbn [fst]. intros _. eexists. split; [reflexivity|]. cbn [sourceUrl sourceDomain].
      split; [reflexivity|].
      right. left. reflexivity.
    - cbn [extract Indeed.indeedExtractor]. unfold Indeed.extract, bind, newDate, ret.
      destruct (has (Indeed.extractTitle doc)); cbn [negb fst]; [|discriminate].
      destruct (Indeed.extractDescription doc) as [d|]; cbn [fst]; [|discriminate].
      destruct (nonempty d); cbn [negb fst]; [|discriminate].
      intros _. eexists. split; [reflexivity|]. cbn [sourceUrl sourceDomain].
      split; [reflexivity|].
      left. reflexivity.
    - cbn [extract WelcomeToTheJungle.welcomeToTheJungleExtractor].
      unfold WelcomeToTheJungle.extract, bind, newDate, ret.
      destruct (has (WelcomeToTheJungle.extractTitle doc)); cbn [negb fst]; [|discriminate].
      destruct (WelcomeToTheJungle.extractDescription doc) as [d|]; cbn [fst];
        [|discriminate].
      destruct (nonempty d); cbn [negb fst]; [|discriminate].
      intros _. eexists. split; [reflexivity|]. cbn [sourceUrl sourceDomain].
      split; [reflexivity|].
      right. right. left. reflexivity. }
  rewrite H in Hall. cbn [fst] in Hall. exact (Hall Hs).
Qed.

(** X23: a record [extractJobOffer] returns carries the URL it was given; the
    domain it names is the domain of that URL, or the domain the LinkedIn or
    the Welcome to the Jungle strategy writes whatever the URL. *)
Theorem extractJobOffer_origin (url : jsstring) (doc : Document) (c : Clock) :
  let r := fst (Registry.extractJobOffer url doc c) in
  forall o, offer r = Some o ->
    sourceUrl o = url /\ In (sourceDomain o) (domains_written url).
Proof.
  cbv zeta. intros o Ho.
  destruct (extractJobOffer_surfaced url doc c)
    as [[pre [e [post [c1 [c' [Hl [_ [_ [He [Hs _]]]]]]]]]] | [c' [_ Hr]]];
    [|rewrite Hr in Ho; discriminate].
  assert (Hin : In e Registry.extractors) by (rewrite Hl; apply in_or_app; right; now left).
  rewrite extractors_order in Hin. cbn [In] in Hin.
  assert (Hsite : In e siteExtractors \/ e = Generic.genericExtractor).
  { unfold siteExtractors. cbn [In].
    destruct Hin as [<- | [<- | [<- | [<- | []]]]]; auto. }
  destruct Hsite as [Hsite | ->].
  - destruct (@site_extract_origin e url doc c1 _ c' Hsite He Hs) as [o' [Ho' [Hu Hd]]].
    rewrite Ho in Ho'. injection Ho' as <-. now split.
  - destruct (@Generic_extract_origin url doc c1 _ c' He Hs) as [o' [Ho' Horigin]].
    rewrite Ho in Ho'. injection Ho' as <-. unfold origin in Horigin.
    injection Horigin as Hu Hd _. split; [exact Hu|]. unfold domains_written. now left.
Qed.

(** X24: no site strategy accepts a URL that does not parse, the classifier
    relies on its scorer, and a record names the empty domain. *)
Theorem unparsable_url (url : jsstring) (doc : Document) (c : Clock) :
  URL_hostname url = None ->
  Forall (fun e => canHandle e url doc = false) siteExtractors /\
  Registry.isJobPage url doc = Registry.detectJobPageHeuristics url doc /\
  forall o, offer (fst (Registry.extractJobOffer url doc c)) = Some o ->
            sourceUrl o = url /\ sourceDomain o = [].
Proof.
  intros Hu.
  assert (Hd : getDomain url = []) by (unfold getDomain; now rewrite Hu).
  assert (Hsite : Forall (fun e => canHandle e url doc = false) siteExtractors).
  { unfold siteExtractors.
    repeat constructor; cbn [canHandle LinkedIn.linkedInExtractor Indeed.indeedExtractor
                             WelcomeToTheJungle.welcomeToTheJungleExtractor];
      unfold LinkedIn.canHandle, Indeed.canHandle, WelcomeToTheJungle.canHandle;
      rewrite Hd; reflexivity. }
  split; [exact Hsite|]. split.
  - unfold Registry.isJobPage, Registry.isJobPage_with, Registry.isKnownJobSite.
    rewrite Hd. reflexivity.
  - intros o Ho. unfold Registry.extractJobOffer in Ho. rewrite extractors_order in Ho.
    apply Forall_cons_iff in Hsite. destruct Hsite as [Hl Hsite].
    apply Forall_cons_iff in Hsite. destruct Hsite as [Hi Hsite].
    apply Forall_cons_iff in Hsite. destruct Hsite as [Hw _].
    cbn [Registry.tryEach] in Ho. rewrite Hl, Hi, Hw in Ho.
    change (canHandle Generic.genericExtractor url doc) with true in Ho.
    cbv beta iota in Ho.
    change (extract Generic.genericExtractor url doc c) with (Generic.extract url doc c) in Ho.
    destruct (Generic.extract url doc c) as [[r|e] c1] eqn:E;
      [|cbn [fst offer createEmptyResult] in Ho; discriminate].
    destruct (success r && is_some (offer r)) eqn:Es;
      [|cbn [fst offer createEmptyResult] in Ho; discriminate].
    apply andb_true_iff in Es. destruct Es as [Es _]. cbn [fst] in Ho.
    destruct (@Generic_extract_origin url doc c r c1 E Es) as [o' [Ho' Horigin]].
    rewrite Ho in Ho'. injection Ho' as <-. unfold origin in Horigin.
    injection Horigin as Hu' Hd' _. split; [exact Hu'|]. now rewrite Hd', Hd.
Qed.

End Origin.

(** The OpenGraph page, read at the address of a careers site. *)
Lemma extractJobOffer_origin_witness :
  option_map (fun o => (sourceUrl o, sourceDomain o))
    (offer (fst (Registry.extractJobOffer (u "https://www.acme.io/jobs/42") meta_page
                   (still 0%Z))))
  = Some (u "https://www.acme.io/jobs/42", u "acme.io").
Proof.
  pose proof (@extractJobOffer_origin platform (u "https://www.acme.io/jobs/42") meta_page
                (still 0%Z)) as H.
  cbv zeta in H.
  destruct (offer (fst (Registry.extractJobOffer (u "https://www.acme.io/jobs/42") meta_page
                          (still 0%Z)))) as [o|] eqn:E;
    [|vm_compute in E; discriminate].
  cbn [option_map]. rewrite (proj1 (H o eq_refl)). f_equal.
  vm_compute in E. injection E as <-. reflexivity.
Defined.

(** A path without a scheme, on a page that the Generic strategy reads. *)
Lemma unparsable_url_witness :
  Registry.isJobPage (u "/jobs/42") meta_page
  = Registry.detectJobPageHeuristics (u "/jobs/42") meta_page /\
  option_map sourceDomain
    (offer (fst (Registry.extractJobOffer (u "/jobs/42") meta_page (still 0%Z))))
  = Some [].
Proof.
  destruct (@unparsable_url platform (u "/jobs/42") meta_page (still 0%Z) eq_refl)
    as [_ [Hpage Hoffer]].
  split; [exact Hpage|].
  destruct (offer (fst (Registry.extractJobOffer (u "/jobs/42") meta_page (still 0%Z))))
    as [o|] eqn:E; [|vm_compute in E; discriminate].
  cbn [option_map]. now rewrite (proj2 (Hoffer o eq_refl)).
Defined.

(* ------------------------------------------------------------------ *)
(** ** The structured text of a fragment *)

Lemma lead_dropWhile f s : (lead f s + List.length (dropWhile f s) = List.length s)%nat.
Proof.
  induction s as [|c s IH]; [reflexivity|]. cbn [lead dropWhile].
  destruct (f c); cbn [List.length]; lia.
Qed.

Lemma match_here_three_line_feeds bef s :
  match_here (Seq (times 3 (chr 10)) (Star (chr 10))) bef s
  = match s with
    | c1 :: c2 :: c3 :: s3 =>
        if line_feed c1 && line_feed c2 && line_feed c3
        then Some (past line_feed (Some c3) s3 [])
        else None
    | _ => None
    end.
Proof.
  unfold match_here.
  change (times 3 (chr 10)) with (Seq (Cls line_feed) (Seq (Cls line_feed) (Cls line_feed))).
  change (chr 10) with (Cls line_feed).
  rewrite !run_Seq, run_Cls. cbn [rest].
  destruct s as [|c1 s]; [reflexivity|].
  destruct (line_feed c1); [|now destruct s as [|? [|? ?]]].
  rewrite run_Seq, run_Cls. cbn [rest advance_to].
  destruct s as [|c2 s]; [reflexivity|].
  destruct (line_feed c2); [|now destruct s].
  rewrite run_Cls. cbn [rest advance_to].
  destruct s as [|c3 s]; [reflexivity|]. destruct (line_feed c3); [|reflexivity].
  rewrite run_Star_Cls by discriminate. reflexivity.
Qed.

Lemma replaceAll_from_step r by_ bef c s :
  replaceAll_from r by_ bef 0 (c :: s)
  = match option_map (fun q => (List.length (c :: s) - List.length (rest q))%nat)
            (match_here r bef (c :: s)) with
    | Some O => by_ ++ c :: replaceAll_from r by_ (Some c) 0 s
    | Some (S k) => by_ ++ replaceAll_from r by_ (Some c) k s
    | None => c :: replaceAll_from r by_ (Some c) 0 s
    end.
Proof. cbn [replaceAll_from]. now destruct (match_here r bef (c :: s)). Qed.

Lemma matched_three_line_feeds bef s :
  option_map (fun q => (List.length s - List.length (rest q))%nat)
    (match_here (Seq (times 3 (chr 10)) (Star (chr 10))) bef s)
  = if (3 <=? lead line_feed s)%nat then Some (lead line_feed s) else None.
Proof.
  rewrite match_here_three_line_feeds.
  destruct s as [|c1 [|c2 [|c3 s3]]]; cbn [lead].
  - reflexivity.
  - now destruct (line_feed c1).
  - now destruct (line_feed c1), (line_feed c2).
  - destruct (line_feed c1), (line_feed c2), (line_feed c3); try reflexivity.
    cbn [andb option_map Nat.leb]. rewrite rest_past. f_equal.
    pose proof (lead_dropWhile line_feed s3). cbn [List.length]. lia.
Qed.

Lemma replaceAll_three_line_feeds s :
  (forall bef r, r = 0%nat \/ (r + lead line_feed s <= 2)%nat ->
     spaced_lines r
       (replaceAll_from (Seq (times 3 (chr 10)) (Star (chr 10))) [10; 10] bef 0 s) = true) /\
  (forall bef k, lead line_feed s = k ->
     spaced_lines 2
       (replaceAll_from (Seq (times 3 (chr 10)) (Star (chr 10))) [10; 10] bef k s) = true).
Proof.
  induction s as [|c s [IH0 IHk]].
  - split; [reflexivity|]. intros bef k <-. reflexivity.
  - assert (H0 : forall bef r, r = 0%nat \/ (r + lead line_feed (c :: s) <= 2)%nat ->
       spaced_lines r
         (replaceAll_from (Seq (times 3 (chr 10)) (Star (chr 10))) [10; 10] bef 0 (c :: s))
       = true).
    { intros bef r Hr. rewrite replaceAll_from_step, matched_three_line_feeds.
      destruct (3 <=? lead line_feed (c :: s))%nat eqn:E3.
      - apply Nat.leb_le in E3. assert (r = 0%nat) by lia. subst r.
        cbn [lead] in *. destruct (line_feed c) eqn:E; [|lia].
        cbn [app spaced_lines]. change (line_feed 10) with true.
        cbn [Nat.ltb Nat.leb andb]. now apply IHk.
      - apply Nat.leb_gt in E3. cbn [spaced_lines]. cbn [lead] in *.
        destruct (line_feed c) eqn:E.
        + replace (r <? 2)%nat with true by (symmetry; apply Nat.ltb_lt; lia).
          apply IH0. right. lia.
        + apply IH0. now left. }
    split; [exact H0|].
    intros bef k Hk. cbn [lead] in Hk. destruct (line_feed c) eqn:E.
    + subst k. rewrite replaceAll_from_skip. now apply IHk.
    + subst k. apply H0. right. cbn [lead]. rewrite E. lia.
Qed.

Lemma spaced_lines_weaken r r' s :
  (r' <= r)%nat -> spaced_lines r s = true -> spaced_lines r' s = true.
Proof.
  revert r r'. induction s as [|c s IH]; intros r r' Hr; [reflexivity|].
  cbn [spaced_lines]. destruct (line_feed c); [|trivial].
  intros H. apply andb_true_iff in H. destruct H as [H1 H2]. apply Nat.ltb_lt in H1.
  replace (r' <? 2)%nat with true by (symmetry; apply Nat.ltb_lt; lia).
  apply (IH (S r)); [lia | exact H2].
Qed.

Lemma spaced_lines_app r x y :
  spaced_lines r (x ++ y) = true -> spaced_lines r x = true /\ spaced_lines 0 y = true.
Proof.
  revert r. induction x as [|c x IH]; intros r H.
  - split; [reflexivity|]. apply spaced_lines_weaken with (r := r); [lia | exact H].
  - cbn [app spaced_lines] in *. destruct (line_feed c); [|now apply IH].
    apply andb_true_iff in H. destruct H as [H1 H2]. rewrite H1.
    destruct (IH _ H2) as [Hx Hy]. now split.
Qed.

Lemma spaced_lines_no_triple s :
  spaced_lines 0 s = true -> ~ Contains s [10; 10; 10].
Proof.
  intros H [x [y E]]. subst s. apply spaced_lines_app in H. destruct H as [_ H].
  cbn in H. discriminate.
Qed.

(** Collapsing runs of a class without the line feed keeps the line feeds
    apart. *)
Lemma collapse_spaced_lines f b s :
  f 10 = false -> b <> 10 ->
  forall inrun r r',
    (r' <= r)%nat -> (inrun = true -> r' = 0%nat) ->
    spaced_lines r s = true -> spaced_lines r' (collapse f [b] inrun s) = true.
Proof.
  intros Hf Hb. induction s as [|c s IH]; intros inrun r r' Hr Hin H; [reflexivity|].
  cbn [collapse]. cbn [spaced_lines] in H.
  assert (Hlf : forall d, line_feed d = true -> d = 10)
    by (intros d Hd; unfold line_feed in Hd; apply N.eqb_eq in Hd; now subst).
  destruct (f c) eqn:E.
  - assert (Hc : line_feed c = false).
    { destruct (line_feed c) eqn:El; [|reflexivity]. apply Hlf in El. subst c. congruence. }
    rewrite Hc in H. destruct inrun; cbn [app].
    + rewrite (Hin eq_refl). apply (IH true 0%nat 0%nat); auto.
    + cbn [spaced_lines].
      replace (line_feed b) with false
        by (symmetry; unfold line_feed; apply N.eqb_neq; congruence).
      apply (IH true 0%nat 0%nat); auto.
  - cbn [spaced_lines]. destruct (line_feed c).
    + apply andb_true_iff in H. destruct H as [H1 H2]. apply Nat.ltb_lt in H1.
      replace (r' <? 2)%nat with true by (symmetry; apply Nat.ltb_lt; lia).
      apply (IH false (S r) (S r')); [lia | discriminate | exact H2].
    + apply (IH false 0%nat 0%nat); [lia | discriminate | exact H].
Qed.

Lemma spaced_lines_trim s : spaced_lines 0 s = true -> spaced_lines 0 (trim s) = true.
Proof.
  destruct (trim_sandwich s) as [a [b [E _]]]. rewrite E at 1. intros H.
  apply spaced_lines_app in H. destruct H as [_ H].
  now apply spaced_lines_app in H.
Qed.

(** What the two replacements and the trimming of [htmlToStructuredText]
    leave of a text. *)
Lemma tidy_text text :
  let out :=
    trim (replaceAll (plus (oneof [32; 9]%N)) (u " ")
            (replaceAll (Seq (times 3 (chr 10)) (Star (chr 10))) (nl ++ nl) text)) in
  isolated blank_or_tab 32 out = true /\ spaced_lines 0 out = true.
Proof.
  cbv zeta. change (oneof [32; 9]%N) with (Cls blank_or_tab).
  rewrite replaceAll_plus_Cls. change (u " ") with [32].
  split.
  - apply isolated_trim, collapse_isolated.
  - apply spaced_lines_trim.
    apply (@collapse_spaced_lines blank_or_tab 32 _ eq_refl ltac:(discriminate)
             false 0%nat 0%nat); [lia | discriminate|].
    apply (proj1 (replaceAll_three_line_feeds text)). now left.
Qed.

(** X25: the text [htmlToStructuredText] returns is tidy, whatever the
    fragment: it holds no tab, no two spaces in a row and no three line
    feeds in a row, and it neither starts nor ends with white space. *)
Theorem htmlToStructuredText_tidy {P : Platform} (html : jsstring) :
  let out := htmlToStructuredText html in
  ~ In 9 out /\ ~ Contains out (u "  ") /\ ~ Contains out (nl ++ nl ++ nl) /\
  starts_with_space out = false /\ ends_with_space out = false.
Proof.
  cbv zeta. unfold htmlToStructuredText.
  destruct (negb (nonempty html)).
  - split; [intros []|]. split; [intros [a [b E]]; now destruct a|].
    split; [intros [a [b E]]; now destruct a|]. now split.
  - cbv zeta. destruct (tidy_text (walk (without_unwanted (DOMParser_body html)) []))
      as [Hi Hl].
    cbv zeta in Hi, Hl. split; [|split; [|split; [|split]]].
    + intros H. pose proof (@isolated_units blank_or_tab 32 _ 9 Hi H eq_refl). discriminate.
    + change (u "  ") with [32; 32]. now apply (@isolated_no_double blank_or_tab).
    + now apply spaced_lines_no_triple.
    + apply trim_head.
    + apply trim_last.
Qed.
